(** * UCP flower shop: the checkout session lifecycle of [server.js]

    A shallow embedding of the hardened server ([server.js], the version with
    the idempotency middleware, sanitisation and expiry) and the properties of
    its checkout state machine.

    The server is embedded at two levels of detail.

    - The first part describes the handlers on well-formed requests: the
      members of a body have the types the handlers expect (identifiers,
      emails and names are strings, quantities are numbers, and each may be
      absent; the [line_items] member may also be a JSON scalar in place of
      an array), and numbers are exact rationals ([Q]), [0.08] being 8/100.
      It carries the properties of the life cycle of a session: status,
      expiry, idempotent replay, and what a request leaves alone.
    - The module [Wire] describes the same functions on every JSON value a
      body can be and in the arithmetic of doubles, with the conversions and
      the [TypeError]s of JavaScript, and with every assignment made when
      its statement runs.  It carries the properties that depend on this:
      the totals, the quantities that are stored, the bodies that are
      accepted, and what a rejected request leaves behind.

    Conventions common to both.
    - [Date.now()] is an input of every request: one reading [now] (in
      milliseconds) per request.  [expires_at] is kept as that number of
      milliseconds instead of its ISO rendering; the server only ever parses
      it back and compares.
    - Strings are [string]; a character is read as the code point of its
      byte (Latin-1), which fixes white space and lower-casing.
    - The buyer object of a checkout is shared between the stored checkout
      and every response object spread from it ([{ ucp, ...checkout }] copies
      the reference), and [PUT] assigns into it.  Buyers therefore live in a
      heap and checkouts hold a reference.  All other parts of a checkout are
      replaced, never assigned into, and are kept by value.
    - The constant members [ucp], [links] and [payment] of a response are the
      same in every snapshot and are left out.
    - The rate limiter and the JSON body parser run before the handlers and
      are not part of the model: the handlers are modelled from the moment
      they are invoked. *)

From Stdlib Require Import ZArith QArith Qround Qabs Qpower Qreduction String Ascii Lia Lqa.
From stdpp Require Import gmap strings list fin_maps pretty.

Local Open Scope Z_scope.
Local Open Scope string_scope.

(** ** JavaScript values and helpers *)

(** The outcome of a block that may [throw]: the value, or [error.message]. *)
Inductive Result (A : Type) : Type :=
| Ok (a : A)
| Throw (message : string).
Arguments Ok {A} a.
Arguments Throw {A} message.

(** JSON values that are neither arrays nor objects. *)
Inductive JsScalar : Type :=
| JsNull
| JsBool (b : bool)
| JsNum (q : Q)
| JsStr (s : string).

Definition str_nonempty (s : string) : bool :=
  match s with EmptyString => false | String _ _ => true end.

(** ToBoolean. *)
Definition truthy (v : JsScalar) : bool :=
  match v with
  | JsNull => false
  | JsBool b => b
  | JsNum q => negb (Qeq_bool q 0)
  | JsStr s => str_nonempty s
  end.

(** ToBoolean of an optional string member ([undefined] and [''] are falsy). *)
Definition truthy_str (o : option string) : bool :=
  match o with Some s => str_nonempty s | None => false end.

(** ToBoolean of an optional number ([undefined] and [0] are falsy). *)
Definition truthy_num (o : option Q) : bool :=
  match o with Some q => negb (Qeq_bool q 0) | None => false end.

(** [x < y] on numbers. *)
Definition Qltb (x y : Q) : bool := negb (Qle_bool y x).

(** [Math.round]: the nearest integer, halves towards +infinity. *)
Definition Math_round (x : Q) : Z := Qfloor (x + (1 # 2)).

(** White space of [String.prototype.trim] and of the regular expression
    class [\s], restricted to one-byte code points: TAB, LF, VT, FF, CR,
    SPACE and NO-BREAK SPACE. *)
Definition is_space (a : ascii) : bool :=
  let n := nat_of_ascii a in
  ((9 <=? n) && (n <=? 13) || (n =? 32) || (n =? 160))%nat.

Fixpoint trimStart (s : string) : string :=
  match s with
  | EmptyString => EmptyString
  | String a r => if is_space a then trimStart r else s
  end.

Fixpoint trimEnd (s : string) : string :=
  match s with
  | EmptyString => EmptyString
  | String a r =>
      match trimEnd r with
      | EmptyString => if is_space a then EmptyString else String a EmptyString
      | r' => String a r'
      end
  end.

Definition trim (s : string) : string := trimEnd (trimStart s).

(** [toLowerCase] on one-byte code points: A-Z, and the Latin-1 capitals
    U+00C0..U+00DE except the multiplication sign U+00D7. *)
Definition lower_char (a : ascii) : ascii :=
  let n := nat_of_ascii a in
  if ((65 <=? n) && (n <=? 90)
      || (192 <=? n) && (n <=? 222) && negb (n =? 215))%nat
  then ascii_of_nat (n + 32) else a.

Fixpoint toLowerCase (s : string) : string :=
  match s with
  | EmptyString => EmptyString
  | String a r => String (lower_char a) (toLowerCase r)
  end.

(** [s.slice(0, n)]. *)
Fixpoint slice0 (n : nat) (s : string) : string :=
  match n, s with
  | S n', String a r => String a (slice0 n' r)
  | _, _ => EmptyString
  end.

(** The character class [[^\s@]]. *)
Definition not_space_at (a : ascii) : bool :=
  negb (is_space a) && negb (Ascii.eqb a "@").

Fixpoint all_chars (p : ascii -> bool) (s : string) : bool :=
  match s with
  | EmptyString => true
  | String a r => p a && all_chars p r
  end.

(** Splits at the first occurrence of [c]. *)
Fixpoint split_first (c : ascii) (s : string) : option (string * string) :=
  match s with
  | EmptyString => None
  | String a r =>
      if Ascii.eqb a c then Some (EmptyString, r)
      else match split_first c r with
           | Some (u, v) => Some (String a u, v)
           | None => None
           end
  end.

(** Some dot of [s] is followed by at least one more character. *)
Fixpoint dot_before_end (s : string) : bool :=
  match s with
  | EmptyString => false
  | String a r => Ascii.eqb a "." && str_nonempty r || dot_before_end r
  end.

(** [/^[^\s@]+@[^\s@]+\.[^\s@]+$/.test(s)].  The class excludes [@], so the
    [@] of a match is the first one of [s]; the rest must consist of class
    characters with a dot that is neither its first nor its last one
    ([emailRegex_test_shape] relates this to the three groups of the
    expression). *)
Definition emailRegex_test (s : string) : bool :=
  match split_first "@" s with
  | None => false
  | Some (u, v) =>
      str_nonempty u && all_chars not_space_at u && all_chars not_space_at v
      && match v with
         | EmptyString => false
         | String _ r => dot_before_end r
         end
  end.

(** [function sanitizeEmail(email)] ([null] is [None]). *)
Definition sanitizeEmail (email : option string) : option string :=
  match email with
  | None => None
  | Some e =>
      if negb (str_nonempty e) then None
      else
        let trimmed := toLowerCase (trim e) in
        if emailRegex_test trimmed then Some trimmed else None
  end.

(** [function sanitizeName(name)]. *)
Definition sanitizeName (name : option string) : option string :=
  match name with
  | None => None
  | Some n =>
      if negb (str_nonempty n) then None
      else Some (slice0 100 (trim n))
  end.

(** ** Data model *)

Record Product : Type := mkProduct {
  p_id : string;
  p_name : string;
  p_price : Z;
  p_stock : Z
}.

(** [const PRODUCTS] (prices in cents). *)
Definition PRODUCTS : list Product :=
  [ mkProduct "1" "Red Roses" 299 100;
    mkProduct "2" "Pink Tulips" 199 80;
    mkProduct "3" "White Lilies" 399 60 ].

(** An entry of a [totals] array; line items omit [display_text]. *)
Record TotalEntry : Type := mkTotal {
  t_type : string;
  t_amount : Q;
  t_display_text : option string
}.

Record ItemSnapshot : Type := mkItem {
  item_id : string;
  item_title : string;
  item_price : Z
}.

Record LineItem : Type := mkLineItem {
  li_id : string;
  li_item : ItemSnapshot;
  li_quantity : Q;
  li_totals : list TotalEntry
}.

Record Message : Type := mkMessage {
  m_type : string;
  m_code : string;
  m_severity : option string;
  m_content : string;
  m_path : option string
}.

(** A buyer object; an absent member is [None]. *)
Record Buyer : Type := mkBuyer {
  email : option string;
  full_name : option string
}.

Record Order : Type := mkOrder {
  order_id : string;
  permalink_url : string
}.

Inductive Status : Type :=
| incomplete
| ready_for_complete
| completed
| canceled.

(** A checkout object.  [buyer] is a reference into the buyer heap.  The
    same record is the type of the response objects [{ ucp, ...checkout }]
    kept in [processedRequests]: the spread copies every member, and with it
    the buyer reference. *)
Record Checkout : Type := mkCheckout {
  checkout_id : string;
  line_items : list LineItem;
  buyer : nat;
  currency : string;
  totals : list TotalEntry;
  messages : list Message;
  expires_at : Z;
  status : Status;
  order : option Order
}.

(** The module-level variables of the server and the heap of buyer objects. *)
Record State : Type := mkState {
  checkouts : gmap string Checkout;
  processedRequests : gmap string Checkout;
  lineItemCounter : Z;
  buyers : list Buyer
}.

Definition initial : State := mkState ∅ ∅ 0 [].

(** A checkout as serialised by [res.json]: the buyer reference is followed
    at the moment of sending. *)
Record Snapshot : Type := mkSnapshot {
  s_id : string;
  s_line_items : list LineItem;
  s_buyer : option Buyer;
  s_currency : string;
  s_totals : list TotalEntry;
  s_messages : list Message;
  s_expires_at : Z;
  s_status : Status;
  s_order : option Order
}.

Inductive Body : Type :=
| ErrorBody (st : Status) (msgs : list Message)
| CheckoutBody (s : Snapshot).

Record Response : Type := mkResponse {
  http_status : Z;
  body : Body
}.

Definition render (h : list Buyer) (c : Checkout) : Snapshot :=
  mkSnapshot (checkout_id c) (line_items c) (h !! buyer c) (currency c)
    (totals c) (messages c) (expires_at c) (status c) (order c).

(** *** Request bodies *)

(** [li.item]: an object whose [id] may be missing. *)
Record ItemRef : Type := mkItemRef { ref_id : option string }.

(** An entry of a submitted [line_items] array. *)
Record LineItemInput : Type := mkInput {
  in_item : option ItemRef;
  in_quantity : option Q
}.

(** The [line_items] member of a body when it is present: an array of
    entries, or some other JSON scalar. *)
Inductive LineItemsField : Type :=
| LiArray (l : list LineItemInput)
| LiOther (v : JsScalar).

Record BuyerInput : Type := mkBuyerInput {
  b_email : option string;
  b_full_name : option string
}.

Record CreateBody : Type := mkCreateBody {
  cr_line_items : option LineItemsField;
  cr_buyer : option BuyerInput;
  cr_currency : option string
}.

Record UpdateBody : Type := mkUpdateBody {
  up_line_items : option LineItemsField;
  up_buyer : option BuyerInput
}.

(** ToBoolean of the [line_items] member; an array is an object, hence
    truthy even when empty. *)
Definition truthy_field (f : option LineItemsField) : bool :=
  match f with
  | None => false
  | Some (LiArray _) => true
  | Some (LiOther v) => truthy v
  end.

(** ** Helper functions of the server *)

(** [tax = Math.round(subtotal * 0.08)]. *)
Definition tax_rate : Q := 8 # 100.

(** [function calculateTotals(lineItems)]. *)
Definition calculateTotals (lineItems : list LineItem) : list TotalEntry :=
  let subtotal :=
    fold_left (fun sum item => sum + inject_Z (item_price (li_item item)) * li_quantity item)%Q
      lineItems 0%Q in
  let tax := inject_Z (Math_round (subtotal * tax_rate)) in
  let total := (subtotal + tax)%Q in
  [ mkTotal "subtotal" subtotal (Some "Subtotal");
    mkTotal "tax" tax (Some "Tax (8%)");
    mkTotal "total" total (Some "Total") ].

(** [PRODUCTS.find(p => p.id === productId)]. *)
Definition find_product (productId : option string) : option Product :=
  match productId with
  | None => None
  | Some pid => find (fun p => String.eqb (p_id p) pid) PRODUCTS
  end.

(** [function createLineItem(productId, quantity)], with the counter passed
    in and out. *)
Definition createLineItem (now : Z) (counter : Z) (productId : option string)
    (quantity : Q) : Z * option LineItem :=
  match find_product productId with
  | None => (counter, None)
  | Some product =>
      let counter' := counter + 1 in
      (counter',
       Some (mkLineItem
               ("li_" +:+ pretty counter' +:+ "_" +:+ pretty now)
               (mkItem (p_id product) (p_name product) (p_price product))
               quantity
               [mkTotal "subtotal" (inject_Z (p_price product) * quantity)%Q None]))
  end.

(** [function determineStatus(checkout)], on the buyer the checkout refers to
    ([None] when the reference is [undefined], as [?.] allows). *)
Definition determineStatus (b : option Buyer) (items : list LineItem) : Status :=
  if negb (truthy_str (b ≫= email)) || negb (truthy_str (b ≫= full_name))
  then incomplete
  else if (length items =? 0)%nat then incomplete
  else ready_for_complete.

(** [function validateCheckout(checkout)]. *)
Definition validateCheckout (b : option Buyer) : list Message :=
  (if negb (truthy_str (b ≫= email))
   then [mkMessage "error" "missing_buyer_email" (Some "recoverable")
           "Buyer email is required" (Some "$.buyer.email")]
   else [])
  ++
  (if negb (truthy_str (b ≫= full_name))
   then [mkMessage "error" "missing_buyer_name" (Some "recoverable")
           "Buyer name is required" (Some "$.buyer.full_name")]
   else []).

(** The body of the [forEach] callback of [validateLineItems]. *)
Definition validate_entry (item : LineItemInput) : Result unit :=
  if negb (truthy_str (in_item item ≫= ref_id)) || negb (truthy_num (in_quantity item))
  then Throw "Each line item must have item.id and quantity"
  else
    match in_quantity item with
    | Some q =>
        if Qltb q 1 || Qltb 100 q
        then Throw "Quantity must be between 1 and 100"
        else Ok tt
    | None => Ok tt
    end.

Fixpoint validate_entries (l : list LineItemInput) : Result unit :=
  match l with
  | [] => Ok tt
  | item :: rest =>
      match validate_entry item with
      | Throw m => Throw m
      | Ok _ => validate_entries rest
      end
  end.

(** [function validateLineItems(lineItems)], called on a present member. *)
Definition validateLineItems (lineItems : LineItemsField) : Result unit :=
  match lineItems with
  | LiOther _ => Throw "line_items must be a non-empty array"
  | LiArray [] => Throw "line_items must be a non-empty array"
  | LiArray l => validate_entries l
  end.

(** [function ucpError(code, message, severity = 'requires_buyer_input')]. *)
Definition ucpError (code message : string) : Body :=
  ErrorBody canceled
    [mkMessage "error" code (Some "requires_buyer_input") message None].

(** ** State updates *)

Definition set_checkouts (f : gmap string Checkout -> gmap string Checkout)
    (st : State) : State :=
  mkState (f (checkouts st)) (processedRequests st) (lineItemCounter st) (buyers st).

Definition set_processedRequests (f : gmap string Checkout -> gmap string Checkout)
    (st : State) : State :=
  mkState (checkouts st) (f (processedRequests st)) (lineItemCounter st) (buyers st).

Definition set_lineItemCounter (n : Z) (st : State) : State :=
  mkState (checkouts st) (processedRequests st) n (buyers st).

Definition set_buyers (h : list Buyer) (st : State) : State :=
  mkState (checkouts st) (processedRequests st) (lineItemCounter st) h.

(** [if (req.idempotencyKey) processedRequests.set(req.idempotencyKey, responseData)]. *)
Definition remember (idempotencyKey : option string) (responseData : Checkout)
    (st : State) : State :=
  match idempotencyKey with
  | Some k =>
      if str_nonempty k then set_processedRequests (insert k responseData) st else st
  | None => st
  end.

(** ** Building line items *)

(** The callback [li => createLineItem(li.item.id, li.quantity)].  Reading
    [li.item.id] throws when [li.item] is [undefined].  An entry for a
    catalogue product without a quantity would become a line item whose
    quantity is [undefined]; numeric line items have no such value, and the
    case is made a failure here.  [validated_entries_build] shows that no
    entry that passed [validateLineItems] takes that branch, and the server
    maps no other entries. *)
Definition create_from_entry (now : Z) (counter : Z) (li : LineItemInput)
    : Z * Result (option LineItem) :=
  match in_item li with
  | None => (counter, Throw "Cannot read properties of undefined (reading 'id')")
  | Some r =>
      match in_quantity li with
      | Some q =>
          let '(counter', x) := createLineItem now counter (ref_id r) q in
          (counter', Ok x)
      | None =>
          match find_product (ref_id r) with
          | None => (counter, Ok None)
          | Some _ => (counter, Throw "quantity is undefined")
          end
      end
  end.

(** [.map(li => createLineItem(li.item.id, li.quantity))], left to right. *)
Fixpoint map_createLineItem (now : Z) (counter : Z) (l : list LineItemInput)
    : Z * Result (list (option LineItem)) :=
  match l with
  | [] => (counter, Ok [])
  | li :: rest =>
      match create_from_entry now counter li with
      | (counter1, Throw m) => (counter1, Throw m)
      | (counter1, Ok x) =>
          match map_createLineItem now counter1 rest with
          | (counter2, Ok xs) => (counter2, Ok (x :: xs))
          | (counter2, Throw m) => (counter2, Throw m)
          end
      end
  end.

(** [.filter(li => li !== null)]. *)
Definition filter_not_null (l : list (option LineItem)) : list LineItem :=
  omap (fun x => x) l.

(** [line_items.length > 0] for a present member ([undefined > 0] is false). *)
Definition length_positive (f : LineItemsField) : bool :=
  match f with
  | LiArray l => (0 <? length l)%nat
  | LiOther (JsStr s) => (0 <? String.length s)%nat
  | LiOther _ => false
  end.

(** The receiver of [.map] in [(line_items || []).map(...)]; a truthy value
    that is no array has no [map]. *)
Definition or_empty_array (f : option LineItemsField) : Result (list LineItemInput) :=
  match f with
  | None => Ok []
  | Some (LiArray l) => Ok l
  | Some (LiOther v) =>
      if truthy v then Throw "(line_items || []).map is not a function" else Ok []
  end.

(** The receiver of [.map] in [line_items.map(...)] of [PUT]. *)
Definition array_entries (x : LineItemsField) : Result (list LineItemInput) :=
  match x with
  | LiArray l => Ok l
  | LiOther _ => Throw "line_items.map is not a function"
  end.

(** [if (x) target.member = x]: only a truthy value is assigned. *)
Definition if_truthy (o : option string) : option string :=
  match o with
  | Some s => if str_nonempty s then Some s else None
  | None => None
  end.

(** The sanitised value of a submitted member, when it is assigned at all. *)
Definition clean_email (b : option BuyerInput) : option string :=
  if truthy_str (b ≫= b_email) then if_truthy (sanitizeEmail (b ≫= b_email)) else None.

Definition clean_name (b : option BuyerInput) : option string :=
  if truthy_str (b ≫= b_full_name) then if_truthy (sanitizeName (b ≫= b_full_name)) else None.

Definition six_hours : Z := 6 * 60 * 60 * 1000.

(** ** The handlers *)

(** [if (line_items && line_items.length > 0) validateLineItems(line_items)]
    of [POST]. *)
Definition validate_if_nonempty (f : option LineItemsField) : Result unit :=
  match f with
  | Some x => if truthy_field f && length_positive x then validateLineItems x else Ok tt
  | None => Ok tt
  end.

(** [const sanitizedBuyer = {}] and the two guarded assignments of [POST]. *)
Definition sanitized_buyer (b : option BuyerInput) : Buyer :=
  mkBuyer (clean_email b) (clean_name b).

(** The object literal [const checkout = { ... }] of [POST] with the two
    assignments [checkout.messages = ...] and [checkout.status = ...] that
    follow it; [ref] is where the new buyer object is allocated. *)
Definition new_checkout (now : Z) (ref : nat) (sanitizedBuyer : Buyer)
    (currency : option string) (lineItemsResponse : list LineItem) : Checkout :=
  mkCheckout ("chk_" +:+ pretty now) lineItemsResponse ref
    (match if_truthy currency with Some c => c | None => "USD" end)
    (calculateTotals lineItemsResponse)
    (validateCheckout (Some sanitizedBuyer))
    (now + six_hours)
    (determineStatus (Some sanitizedBuyer) lineItemsResponse)
    None.

(** [app.post('/api/checkout-sessions', ...)], after the middleware. *)
Definition createCheckout (st : State) (now : Z) (idempotencyKey : option string)
    (req : CreateBody) : State * Response :=
  let f := cr_line_items req in
  match validate_if_nonempty f with
  | Throw m => (st, mkResponse 400 (ucpError "invalid_request" m))
  | Ok _ =>
      let checkoutId := "chk_" +:+ pretty now in
      match or_empty_array f with
      | Throw m => (st, mkResponse 400 (ucpError "invalid_request" m))
      | Ok entries =>
          match map_createLineItem now (lineItemCounter st) entries with
          | (counter, Throw m) =>
              (set_lineItemCounter counter st,
               mkResponse 400 (ucpError "invalid_request" m))
          | (counter, Ok mapped) =>
              let lineItemsResponse := filter_not_null mapped in
              let sanitizedBuyer := sanitized_buyer (cr_buyer req) in
              let checkout :=
                new_checkout now (length (buyers st)) sanitizedBuyer
                  (cr_currency req) lineItemsResponse in
              let st1 := set_buyers (buyers st ++ [sanitizedBuyer])
                           (set_lineItemCounter counter st) in
              let st2 := set_checkouts (insert checkoutId checkout) st1 in
              let st3 := remember idempotencyKey checkout st2 in
              (st3, mkResponse 201 (CheckoutBody (render (buyers st3) checkout)))
          end
      end
  end.

Definition not_found : Response :=
  mkResponse 404 (ucpError "not_found" "Checkout not found").

Definition expired : Response :=
  mkResponse 404 (ucpError "expired" "Checkout session has expired").

(** [checkouts.delete(req.params.id)]. *)
Definition evict (id : string) (st : State) : State :=
  set_checkouts (delete id) st.

(** [app.get('/api/checkout-sessions/:id', ...)]. *)
Definition getCheckout (st : State) (now : Z) (id : string) : State * Response :=
  match checkouts st !! id with
  | None => (st, not_found)
  | Some checkout =>
      if (expires_at checkout <? now)%Z then (evict id st, expired)
      else (st, mkResponse 200 (CheckoutBody (render (buyers st) checkout)))
  end.

(** The assignments [checkout.buyer.email = cleanEmail] and
    [checkout.buyer.full_name = cleanName] of [PUT], applied to the buyer
    object itself. *)
Definition patch_buyer (patch : option BuyerInput) (b : Buyer) : Buyer :=
  mkBuyer
    (match clean_email patch with Some e => Some e | None => email b end)
    (match clean_name patch with Some n => Some n | None => full_name b end).

Definition with_line_items (items : list LineItem) (c : Checkout) : Checkout :=
  mkCheckout (checkout_id c) items (buyer c) (currency c) (calculateTotals items)
    (messages c) (expires_at c) (status c) (order c).

Definition with_messages_status (m : list Message) (s : Status) (c : Checkout) : Checkout :=
  mkCheckout (checkout_id c) (line_items c) (buyer c) (currency c) (totals c)
    m (expires_at c) s (order c).

(** [checkout.messages = validateCheckout(checkout)] and
    [checkout.status = determineStatus(checkout)], reading the buyer the
    checkout refers to in [heap]. *)
Definition revalidated (heap : list Buyer) (c : Checkout) : Checkout :=
  with_messages_status (validateCheckout (heap !! buyer c))
    (determineStatus (heap !! buyer c) (line_items c)) c.

(** The block [if (line_items) { validateLineItems(line_items); ... }] of
    [PUT]: the checkout with its line items and totals replaced, and the
    counter. *)
Definition replace_line_items (now : Z) (counter : Z) (f : option LineItemsField)
    (checkout : Checkout) : Z * Result Checkout :=
  match f with
  | Some x =>
      if truthy_field f then
        match validateLineItems x with
        | Throw m => (counter, Throw m)
        | Ok _ =>
            match array_entries x with
            | Throw m => (counter, Throw m)
            | Ok entries =>
                match map_createLineItem now counter entries with
                | (counter', Throw m) => (counter', Throw m)
                | (counter', Ok mapped) =>
                    (counter', Ok (with_line_items (filter_not_null mapped) checkout))
                end
            end
        end
      else (counter, Ok checkout)
  | None => (counter, Ok checkout)
  end.

(** [app.put('/api/checkout-sessions/:id', ...)], after the middleware. *)
Definition updateCheckout (st : State) (now : Z) (idempotencyKey : option string)
    (id : string) (req : UpdateBody) : State * Response :=
  match checkouts st !! id with
  | None => (st, not_found)
  | Some checkout =>
      if (expires_at checkout <? now)%Z then (evict id st, expired)
      else
        match replace_line_items now (lineItemCounter st) (up_line_items req) checkout with
        | (counter, Throw m) =>
            (set_lineItemCounter counter st,
             mkResponse 400 (ucpError "invalid_request" m))
        | (counter, Ok checkout1) =>
            let heap := alter (patch_buyer (up_buyer req)) (buyer checkout1) (buyers st) in
            let checkout2 := revalidated heap checkout1 in
            let st1 := set_buyers heap (set_lineItemCounter counter st) in
            let st2 := set_checkouts (insert id checkout2) st1 in
            let st3 := remember idempotencyKey checkout2 st2 in
            (st3, mkResponse 200 (CheckoutBody (render (buyers st3) checkout2)))
        end
  end.

Definition not_ready_message : Message :=
  mkMessage "error" "not_ready" (Some "requires_buyer_input")
    "Please add email and full name first" None.

Definition order_confirmed_message : Message :=
  mkMessage "info" "order_confirmed" None "Order placed successfully!" None.

Definition with_messages (m : list Message) (s : Snapshot) : Snapshot :=
  mkSnapshot (s_id s) (s_line_items s) (s_buyer s) (s_currency s) (s_totals s)
    m (s_expires_at s) (s_status s) (s_order s).

Definition is_ready (s : Status) : bool :=
  match s with ready_for_complete => true | _ => false end.

(** The assignments of [checkout.order], [checkout.status] and
    [checkout.messages] on completion. *)
Definition placed (now : Z) (c : Checkout) : Checkout :=
  let orderId := "ORD_" +:+ pretty now in
  mkCheckout (checkout_id c) (line_items c) (buyer c) (currency c) (totals c)
    [order_confirmed_message] (expires_at c) completed
    (Some (mkOrder orderId ("http://localhost:3000/orders/" +:+ orderId))).

(** [app.post('/api/checkout-sessions/:id/complete', ...)], after the
    middleware. *)
Definition completeCheckout (st : State) (now : Z) (idempotencyKey : option string)
    (id : string) : State * Response :=
  match checkouts st !! id with
  | None => (st, not_found)
  | Some checkout =>
      if (expires_at checkout <? now)%Z then (evict id st, expired)
      else if negb (is_ready (status checkout)) then
        (st, mkResponse 400
               (CheckoutBody (with_messages [not_ready_message]
                                (render (buyers st) checkout))))
      else
        let checkout1 := placed now checkout in
        let st2 := set_checkouts (insert id checkout1) st in
        let st3 := remember idempotencyKey checkout1 st2 in
        (st3, mkResponse 200 (CheckoutBody (render (buyers st3) checkout1)))
  end.

(** ** Middleware, routes and timers *)

(** [function handleIdempotency(req, res, next)]: a recorded key is answered
    with [res.json(processedRequests.get(idempotencyKey))]. *)
Definition handleIdempotency (st : State) (idempotencyKey : option string)
    (next : option string -> State * Response) : State * Response :=
  match idempotencyKey with
  | Some k =>
      if str_nonempty k then
        match processedRequests st !! k with
        | Some cached => (st, mkResponse 200 (CheckoutBody (render (buyers st) cached)))
        | None => next idempotencyKey
        end
      else next idempotencyKey
  | None => next idempotencyKey
  end.

Inductive Request : Type :=
| POST_checkout (key : option string) (req : CreateBody)
| GET_checkout (id : string)
| PUT_checkout (key : option string) (id : string) (req : UpdateBody)
| POST_complete (key : option string) (id : string).

Definition route (st : State) (now : Z) (r : Request) : State * Response :=
  match r with
  | POST_checkout key req =>
      handleIdempotency st key (fun k => createCheckout st now k req)
  | GET_checkout id => getCheckout st now id
  | PUT_checkout key id req =>
      handleIdempotency st key (fun k => updateCheckout st now k id req)
  | POST_complete key id =>
      handleIdempotency st key (fun k => completeCheckout st now k id)
  end.

(** The session clean-up timer: every expired checkout is deleted. *)
Definition sweep (st : State) (now : Z) : State :=
  set_checkouts (filter (fun kv => ¬ (expires_at kv.2 < now))) st.

(** The idempotency timer: [processedRequests.clear()]. *)
Definition clear (st : State) : State :=
  set_processedRequests (fun _ => ∅) st.

(** What the server processes: a request, or the firing of a timer. *)
Inductive Event : Type :=
| Call (r : Request)
| SweepTimer
| ClearTimer.

Definition step (st : State) (now : Z) (e : Event) : State :=
  match e with
  | Call r => (route st now r).1
  | SweepTimer => sweep st now
  | ClearTimer => clear st
  end.

(** A run: events with the clock reading at which each is processed. *)
Fixpoint run (st : State) (evs : list (Z * Event)) : State :=
  match evs with
  | [] => st
  | (now, e) :: rest => run (step st now e) rest
  end.

(** The states the server can be in. *)
Definition reachable (st : State) : Prop :=
  exists evs, run initial evs = st.

(** ** Notions used to state the properties *)

(** [n] is [x] rounded half up: the integer with [n - 1/2 <= x < n + 1/2]. *)
Definition round_half_up (x : Q) (n : Z) : Prop :=
  (inject_Z n - (1 # 2) <= x)%Q /\ (x < inject_Z n + (1 # 2))%Q.

(** Twelve red roses, as [createLineItem] snapshots them. *)
Definition twelve_roses : LineItem :=
  mkLineItem "li_1_1000" (mkItem "1" "Red Roses" 299) 12
    [mkTotal "subtotal" 3588 None].

(** The catalogue has a product with this identifier. *)
Definition in_catalog (pid : string) : bool :=
  existsb (fun p => String.eqb (p_id p) pid) PRODUCTS.

(** The product reference and quantity of a submitted entry that has both. *)
Definition entry_key (e : LineItemInput) : option (string * Q) :=
  match in_item e ≫= ref_id, in_quantity e with
  | Some pid, Some q => Some (pid, q)
  | _, _ => None
  end.

(** The submitted entries whose product is in the catalogue, in order. *)
Definition known_entries (l : list LineItemInput) : list (string * Q) :=
  filter (fun k => in_catalog k.1 = true) (omap entry_key l).

(** The product identifier and quantity of every item of a cart, in order. *)
Definition cart_keys (items : list LineItem) : list (string * Q) :=
  map (fun i => (item_id (li_item i), li_quantity i)) items.

(** A quantity the range check of [validateLineItems] lets through. *)
Definition quantity_in_range (q : Q) : Prop := (1 <= q)%Q /\ (q <= 100)%Q.

(** The shape the regular expression of [sanitizeEmail] describes: three
    non-empty groups of characters that are neither white space nor [@],
    separated by an [@] and a dot. *)
Definition email_shape (s : string) : Prop :=
  exists u v w,
    s = u +:+ String "@" (v +:+ String "." w)
    /\ str_nonempty u = true /\ str_nonempty v = true /\ str_nonempty w = true
    /\ all_chars not_space_at u = true
    /\ all_chars not_space_at v = true
    /\ all_chars not_space_at w = true.

(** A string that is its own sanitised email. *)
Definition sanitized_email (e : string) : Prop := sanitizeEmail (Some e) = Some e.

(** *** Invariants of the store *)

Definition item_ok (i : LineItem) : Prop :=
  quantity_in_range (li_quantity i) /\ in_catalog (item_id (li_item i)) = true.

Definition buyer_ok (b : Buyer) : Prop :=
  (forall e, email b = Some e -> sanitized_email e)
  /\ (forall n, full_name b = Some n -> str_nonempty n = true).

(** A checkout stored under [id] when the buyer heap has [n] objects: the
    identifier is the one of its creation time, six hours before it expires;
    its buyer is allocated; its items are well formed. *)
Definition checkout_ok (n : nat) (id : string) (c : Checkout) : Prop :=
  id = "chk_" +:+ pretty (expires_at c - six_hours)
  /\ (buyer c < n)%nat
  /\ Forall item_ok (line_items c).

Definition store_wf (st : State) : Prop :=
  map_Forall (checkout_ok (length (buyers st))) (checkouts st)
  /\ Forall buyer_ok (buyers st).

(** An entry [validateLineItems] accepts: a non-empty product reference and
    a quantity in range. *)
Definition entry_valid (e : LineItemInput) : Prop :=
  exists r pid q,
    in_item e = Some r /\ ref_id r = Some pid /\ str_nonempty pid = true
    /\ in_quantity e = Some q /\ quantity_in_range q.

(** *** Status *)




(** [c] is stored under [id] and refers to the buyer [b]. *)
Definition stored (st : State) (id : string) (c : Checkout) (b : Buyer) : Prop :=
  checkouts st !! id = Some c /\ buyers st !! buyer c = Some b.

(** *** Sample requests *)

Definition entry (pid : string) (q : Q) : LineItemInput :=
  mkInput (Some (mkItemRef (Some pid))) (Some q).

(** Twelve red roses, and nobody to send them to. *)
Definition roses_no_buyer : CreateBody :=
  mkCreateBody (Some (LiArray [entry "1" 12])) None None.

(** Twelve red roses for a known buyer. *)
Definition roses_with_buyer : CreateBody :=
  mkCreateBody (Some (LiArray [entry "1" 12]))
    (Some (mkBuyerInput (Some "a@b.com") (Some "A B"))) None.


(** The store after a [POST] of [roses_no_buyer] at clock reading 1000. *)
Definition st_roses : State :=
  (createCheckout initial 1000 None roses_no_buyer).1.

(** The store after a [POST] of [roses_with_buyer] at clock reading 1000. *)
Definition st_ready : State :=
  (createCheckout initial 1000 None roses_with_buyer).1.

(** The same, completed at clock reading 2000. *)
Definition st_completed : State :=
  (completeCheckout st_ready 2000 None "chk_1000").1.

(** The submitted line items are structurally valid: a non-empty array whose
    entries all have a product reference and a quantity in [1,100]. *)
Definition structurally_valid (x : LineItemsField) : Prop :=
  exists l, x = LiArray l /\ l <> [] /\ Forall entry_valid l.

(** An invalid-request diagnostic. *)
Definition invalid_request (r : Response) : Prop :=
  exists m, r = mkResponse 400 (ucpError "invalid_request" m).

(** *** Expiry *)

(** The diagnostic codes a response carries, for an error body. *)
Definition codes (r : Response) : list string :=
  match body r with
  | ErrorBody _ msgs => map m_code msgs
  | CheckoutBody _ => []
  end.

(** Every event of the run is processed at clock reading [now] or later. *)
Definition not_before (now : Z) (evs : list (Z * Event)) : Prop :=
  Forall (fun te => now <= te.1) evs.

(** *** Idempotent replay *)

(** The timer that clears the idempotency records does not fire in the run. *)
Definition no_clear (evs : list (Z * Event)) : Prop :=
  Forall (fun te => te.2 <> ClearTimer) evs.

(** [res.json(cached)]: the recorded response object, serialised now. *)
Definition replayed (st : State) (cached : Checkout) : Response :=
  mkResponse 200 (CheckoutBody (render (buyers st) cached)).

(** A buyer patch with an email and a name. *)
Definition add_buyer : UpdateBody :=
  mkUpdateBody None (Some (mkBuyerInput (Some "a@b.com") (Some "A B"))).

(** A create under the key [k1] at clock reading 1000 ... *)
Definition first_call : State * Response :=
  route initial 1000 (POST_checkout (Some "k1") roses_no_buyer).

(** ... then an update of the checkout it created, without a key ... *)
Definition st_patched : State :=
  (route first_call.1 2000 (PUT_checkout None "chk_1000" add_buyer)).1.

(** ... and the same create under [k1] once more. *)
Definition second_call : State * Response :=
  route st_patched 3000 (POST_checkout (Some "k1") roses_no_buyer).

(** The buyer a response body shows. *)
Definition body_buyer (r : Response) : option Buyer :=
  match body r with
  | CheckoutBody s => s_buyer s
  | ErrorBody _ _ => None
  end.

(** The status a response body shows. *)
Definition body_status (r : Response) : Status :=
  match body r with
  | CheckoutBody s => s_status s
  | ErrorBody s _ => s
  end.

(** *** Completed checkouts *)

(** An update without line items and without a buyer. *)
Definition empty_update : UpdateBody := mkUpdateBody None None.

(** The event is not a [PUT] on the checkout [id]. *)
Definition not_update_of (id : string) (e : Event) : Prop :=
  match e with
  | Call (PUT_checkout _ id' _) => id' <> id
  | _ => True
  end.

(** The status of the checkout stored under [id], if there is one. *)
Definition stored_status (st : State) (id : string) : option Status :=
  status <$> checkouts st !! id.

(** The order of the checkout stored under [id], if it has one. *)
Definition stored_order (st : State) (id : string) : option Order :=
  checkouts st !! id ≫= order.

(** ** Further notions: what the store keeps besides *)

(** [i] is what [createLineItem] makes of the product [p] and [quantity]. *)
Definition snapshot_of (p : Product) (quantity : Q) (i : LineItem) : Prop :=
  li_item i = mkItem (p_id p) (p_name p) (p_price p)
  /\ li_quantity i = quantity
  /\ li_totals i = [mkTotal "subtotal" (inject_Z (p_price p) * quantity)%Q None].

(** The item is a snapshot of a product of the catalogue. *)
Definition from_catalog (i : LineItem) : Prop :=
  exists p, In p PRODUCTS /\ snapshot_of p (li_quantity i) i.

(** The identifier [createLineItem] gives the [k]-th line item at [now]. *)
Definition line_item_id (now k : Z) : string :=
  "li_" +:+ pretty k +:+ "_" +:+ pretty now.

(** The identifiers of a cart are those of consecutive counter values, all
    drawn at one clock reading and none above [counter]. *)
Definition consecutive_ids (counter : Z) (items : list LineItem) : Prop :=
  exists now k,
    0 <= k /\ k + Z.of_nat (length items) <= counter
    /\ map li_id items = map (line_item_id now) (seqZ (k + 1) (Z.of_nat (length items))).

(** The status and messages of [c] are either those of a placed order, or
    what [determineStatus] and [validateCheckout] make of its buyer in [h]. *)
Definition status_in_step (h : list Buyer) (c : Checkout) : Prop :=
  (status c = completed
   /\ is_Some (order c)
   /\ messages c = [order_confirmed_message])
  \/ (status c = determineStatus (h !! buyer c) (line_items c)
      /\ messages c = validateCheckout (h !! buyer c)).

Definition checkout_sound (h : list Buyer) (counter : Z) (id : string)
    (c : Checkout) : Prop :=
  checkout_id c = id
  /\ totals c = calculateTotals (line_items c)
  /\ Forall from_catalog (line_items c)
  /\ consecutive_ids counter (line_items c)
  /\ status_in_step h c.

(** No two stored checkouts refer to the same buyer object. *)
Definition refs_distinct (st : State) : Prop :=
  forall id1 id2 c1 c2,
    checkouts st !! id1 = Some c1 -> checkouts st !! id2 = Some c2 ->
    buyer c1 = buyer c2 -> id1 = id2.

Definition store_sound (st : State) : Prop :=
  store_wf st
  /\ refs_distinct st
  /\ 0 <= lineItemCounter st
  /\ map_Forall (checkout_sound (buyers st) (lineItemCounter st)) (checkouts st).

(** The part of [store_sound] that [store_wf] does not cover. *)
Definition store_consistent (st : State) : Prop :=
  refs_distinct st
  /\ 0 <= lineItemCounter st
  /\ map_Forall (checkout_sound (buyers st) (lineItemCounter st)) (checkouts st).

(** The idempotency key a request presents; a read presents none that the
    server looks at. *)
Definition request_key (r : Request) : option string :=
  match r with
  | POST_checkout key _ => key
  | GET_checkout _ => None
  | PUT_checkout key _ _ => key
  | POST_complete key _ => key
  end.

(** The buyer object [ref] is allocated, and only a checkout stored under
    [id] may refer to it. *)
Definition owned (st : State) (ref : nat) (id : string) : Prop :=
  (ref < length (buyers st))%nat
  /\ forall id' c, checkouts st !! id' = Some c -> buyer c = ref -> id' = id.

(** No event of the run is a [PUT] on the checkout [id]. *)
Definition no_update_of (id : string) (evs : list (Z * Event)) : Prop :=
  Forall (fun te => not_update_of id te.2) evs.

(** The [line_items] member of a body that [POST] accepts: absent or falsy,
    an empty array, or structurally valid. *)
Definition create_accepts (f : option LineItemsField) : Prop :=
  truthy_field f = false
  \/ f = Some (LiArray [])
  \/ exists x, f = Some x /\ structurally_valid x.

(** The identifier a request is about: the one in its path, or the one
    [POST] is about to allocate at clock reading [now]. *)
Definition target (now : Z) (r : Request) : string :=
  match r with
  | POST_checkout _ _ => "chk_" +:+ pretty now
  | GET_checkout id => id
  | PUT_checkout _ id _ => id
  | POST_complete _ id => id
  end.

(** No checkout is created at a clock reading that would give it the
    identifier [id]. *)
Definition never_created (id : string) (evs : list (Z * Event)) : Prop :=
  Forall (fun te => forall key req,
                      te.2 = Call (POST_checkout key req) ->
                      "chk_" +:+ pretty te.1 <> id) evs.

(** ** The tool front end ([mcp-server.js]) *)

(** [s.includes(needle)]. *)
Fixpoint includes (needle s : string) : bool :=
  String.prefix needle s
  || match s with
     | EmptyString => false
     | String _ r => includes needle r
     end.

(** [function getProductId(nameOrId)], on a string argument. *)
Definition getProductId (nameOrId : string) : string :=
  let input := trim (toLowerCase nameOrId) in
  if String.eqb input "1" || String.eqb input "2" || String.eqb input "3" then input
  else if includes "rose" input then "1"
  else if includes "tulip" input then "2"
  else if includes "lily" input || includes "lilies" input then "3"
  else "1".

(** An entry of the [line_items] argument of a tool. *)
Record ToolItem : Type := mkToolItem {
  product_id : string;
  quantity : option Q
}.

(** [args.line_items.map(item => ({ item: { id: getProductId(item.product_id) },
    quantity: item.quantity }))]. *)
Definition tool_line_items (items : list ToolItem) : list LineItemInput :=
  map (fun item =>
         mkInput (Some (mkItemRef (Some (getProductId (product_id item)))))
           (quantity item))
    items.

(** [if (args.buyer_email) body.buyer = { email: args.buyer_email }]. *)
Definition tool_buyer (buyer_email : option string) : option BuyerInput :=
  if truthy_str buyer_email then Some (mkBuyerInput buyer_email None) else None.

(** The calls of the tools that reach the checkout routes.  [apiCall] sends
    no header besides [Content-Type], hence no idempotency key. *)
Inductive ToolCall : Type :=
| create_checkout (line_items : list ToolItem) (buyer_email : option string)
| update_checkout (checkout_id : string) (buyer_email : option string)
    (line_items : option (list ToolItem))
| get_checkout (checkout_id : string)
| complete_checkout (checkout_id : string).

(** The request [apiCall] sends for a tool call. *)
Definition tool_request (t : ToolCall) : Request :=
  match t with
  | create_checkout items buyer_email =>
      POST_checkout None
        (mkCreateBody (Some (LiArray (tool_line_items items)))
           (tool_buyer buyer_email) (Some "USD"))
  | update_checkout checkout_id buyer_email items =>
      PUT_checkout None checkout_id
        (mkUpdateBody
           (match items with
            | Some l => Some (LiArray (tool_line_items l))
            | None => None
            end)
           (tool_buyer buyer_email))
  | get_checkout checkout_id => GET_checkout checkout_id
  | complete_checkout checkout_id => POST_complete None checkout_id
  end.

(** Every request of the run comes from a tool call. *)
Definition from_tools (evs : list (Z * Event)) : Prop :=
  Forall (fun te => match te.2 with
                    | Call r => exists t, r = tool_request t
                    | _ => True
                    end) evs.

(** What tool calls leave in the store: buyers without a name, and
    checkouts that are incomplete and without an order. *)
Definition nameless (st : State) : Prop :=
  Forall (fun b => full_name b = None) (buyers st)
  /\ map_Forall (fun _ c => status c = incomplete /\ order c = None) (checkouts st).


(** * The server on the wire: arbitrary JSON bodies, double arithmetic

    The module [Wire] embeds the functions of [server.js] once more, on
    everything [express.json()] can hand them.

    - A body is any JSON value; [undefined] is [None].  A member is read with
      [get], which throws the [TypeError] of the engine on [null] and
      [undefined]; conversions follow ECMAScript: ToBoolean ([truthy]),
      ToNumber ([ToNumber], with the string grammar of [StringToNumber]), and
      the [TypeError] of ToPrimitive on an object whose own [toString] member
      hides the inherited method.
    - Numbers are IEEE 754 doubles: a rational that is a double, an infinity,
      or NaN.  [fl] rounds a rational to the nearest double, ties to even,
      with gradual underflow and overflow to infinity; a decimal literal is
      rounded in the same way.  The sign of zero is not kept: the server
      never divides, and [JSON.stringify] prints both zeros alike.
    - An assignment to a stored checkout ([checkout.line_items = ...]) or to
      its buyer object happens when the statement runs: a [throw] further
      down the [try] block leaves it in place.  The handlers are written in
      a monad of state and exceptions for that.
    - [lineItemCounter++] is an addition on doubles: it stalls at 2^53.
    - [toISOString] throws a [RangeError] beyond 8.64e15 milliseconds on
      either side of the epoch.
    - The wording of the engine's own error messages is that of V8. *)

Module Wire.

(** ** Numbers *)

Inductive number : Type :=
| NaN
| Infinity (negative : bool)
| Finite (q : Q).

(** [2^k] for an integer [k] of either sign. *)
Definition two_to (k : Z) : Q := (2 ^ k)%Q.

(** The binade of a positive rational [x]: the [e] with [2^e <= x < 2^(e+1)]. *)
Definition binade (x : Q) : Z :=
  let k := Z.log2 (Qnum x) - Z.log2 (Z.pos (Qden x)) in
  if Qle_bool (two_to k) x then k else k - 1.

(** The nearest integer, a tie going to the even one. *)
Definition round_half_even (x : Q) : Z :=
  let f := Qfloor x in
  match (x - inject_Z f ?= 1 # 2)%Q with
  | Lt => f
  | Gt => f + 1
  | Eq => if Z.even f then f else f + 1
  end.

(** The double nearest to [x]: 53 significant bits above [2^-1022], multiples
    of [2^-1074] below, and an infinity from [2^1024 - 2^970] on. *)
Definition fl (x : Q) : number :=
  if Qeq_bool x 0 then Finite 0
  else
    let e := Z.max (binade (Qabs x)) (-1022) in
    let ulp := two_to (e - 52) in
    let y := (inject_Z (round_half_even (x / ulp)) * ulp)%Q in
    if Qle_bool (two_to 1024) (Qabs y) then Infinity (negb (Qle_bool 0 x))
    else Finite (Qred y).

(** [x * y]. *)
Definition mul (x y : number) : number :=
  match x, y with
  | NaN, _ | _, NaN => NaN
  | Finite a, Finite b => fl (a * b)
  | Infinity s, Infinity t => Infinity (xorb s t)
  | Infinity s, Finite b | Finite b, Infinity s =>
      if Qeq_bool b 0 then NaN else Infinity (xorb s (negb (Qle_bool 0 b)))
  end.

(** [x + y]. *)
Definition add (x y : number) : number :=
  match x, y with
  | NaN, _ | _, NaN => NaN
  | Finite a, Finite b => fl (a + b)
  | Infinity s, Infinity t => if Bool.eqb s t then Infinity s else NaN
  | Infinity s, Finite _ | Finite _, Infinity s => Infinity s
  end.

(** [x < y]: false as soon as one side is NaN. *)
Definition lt (x y : number) : bool :=
  match x, y with
  | NaN, _ | _, NaN => false
  | Finite a, Finite b => Qltb a b
  | Infinity s, Infinity t => s && negb t
  | Infinity s, Finite _ => s
  | Finite _, Infinity t => negb t
  end.

(** [Math.round(x)]: the nearest integer, halves towards +infinity. *)
Definition Math_round (x : number) : number :=
  match x with
  | Finite q => Finite (inject_Z (Qfloor (q + (1 # 2))))
  | _ => x
  end.

Definition of_Z (n : Z) : number := Finite (inject_Z n).

(** The literal [0.08]. *)
Definition tax_rate : number := fl (8 # 100).

(** ** JSON values *)

#[warnings="-register-all"]
Inductive Json : Type :=
| JNull
| JBool (b : bool)
| JNum (x : number)
| JStr (s : string)
| JArr (elements : list Json)
| JObj (members : list (string * Json)).

(** What an expression evaluates to: a JSON value, or [undefined]. *)
Definition Value : Type := option Json.

(** The own member [k] of a parsed object; of two members with one name
    [JSON.parse] keeps the later. *)
Fixpoint member (k : string) (members : list (string * Json)) : Value :=
  match members with
  | [] => None
  | (k', v) :: rest =>
      match member k rest with
      | Some w => Some w
      | None => if String.eqb k' k then Some v else None
      end
  end.

(** [o?.k] for a data member [k]: [undefined] on [null] and [undefined], and
    on every value that has no such member.  The names read by the server
    ([line_items], [buyer], [currency], [item], [id], [quantity], [email],
    [full_name]) are not inherited from any prototype. *)
Definition get_opt (k : string) (o : Value) : Value :=
  match o with
  | Some (JObj members) => member k members
  | _ => None
  end.

(** [o.k], and the destructuring [const { k } = o]. *)
Definition get (k : string) (o : Value) : Result Value :=
  match o with
  | None => Throw ("Cannot read properties of undefined (reading '" +:+ k +:+ "')")
  | Some JNull => Throw ("Cannot read properties of null (reading '" +:+ k +:+ "')")
  | _ => Ok (get_opt k o)
  end.

(** ToBoolean. *)
Definition truthy (v : Value) : bool :=
  match v with
  | None | Some JNull => false
  | Some (JBool b) => b
  | Some (JNum (Finite q)) => negb (Qeq_bool q 0)
  | Some (JNum NaN) => false
  | Some (JNum (Infinity _)) => true
  | Some (JStr s) => str_nonempty s
  | Some (JArr _) | Some (JObj _) => true
  end.

(** *** Strings as numbers *)

Definition digit (base : Z) (a : ascii) : option Z :=
  let n := Z.of_nat (nat_of_ascii a) in
  let d := (if (48 <=? n) && (n <=? 57) then n - 48
            else if (97 <=? n) && (n <=? 102) then n - 87
            else if (65 <=? n) && (n <=? 70) then n - 55
            else base)%Z in
  if (d <? base)%Z then Some d else None.

(** The digits [s] begins with: their value after [acc], how many there are,
    and what follows them. *)
Fixpoint digits (base : Z) (s : string) (acc : Z) (n : Z) : Z * Z * string :=
  match s with
  | EmptyString => (acc, n, s)
  | String a r =>
      match digit base a with
      | Some d => digits base r (base * acc + d) (n + 1)
      | None => (acc, n, s)
      end
  end.

(** ExponentPart, when [s] is one or is empty. *)
Definition exponent_part (s : string) : option Z :=
  match s with
  | EmptyString => Some 0
  | String c r =>
      if Ascii.eqb c "e" || Ascii.eqb c "E" then
        let '(negative, r1) :=
          match r with
          | String "-" r' => (true, r')
          | String "+" r' => (false, r')
          | _ => (false, r)
          end in
        match digits 10 r1 0 0 with
        | (x, n, EmptyString) =>
            if (0 <? n)%Z then Some (if negative then - x else x) else None
        | _ => None
        end
      else None
  end.

(** StrUnsignedDecimalLiteral other than [Infinity]: digits with an optional
    fraction and exponent, at least one digit before the exponent. *)
Definition unsigned_decimal (s : string) : option Q :=
  let '(i, ni, r1) := digits 10 s 0 0 in
  let '(f, nf, r2) :=
    match r1 with
    | String "." r => digits 10 r 0 0
    | _ => (0, 0, r1)
    end in
  if (0 <? ni + nf)%Z then
    match exponent_part r2 with
    | Some x => Some (inject_Z (i * 10 ^ nf + f) * (10 ^ (x - nf)))%Q
    | None => None
    end
  else None.

(** NonDecimalIntegerLiteral: [0x], [0o] or [0b] and digits of that base. *)
Definition non_decimal (s : string) : option Q :=
  match s with
  | String "0" (String c r) =>
      let base := if Ascii.eqb c "x" || Ascii.eqb c "X" then 16
                  else if Ascii.eqb c "o" || Ascii.eqb c "O" then 8
                  else if Ascii.eqb c "b" || Ascii.eqb c "B" then 2
                  else 0 in
      if (base =? 0)%Z then None
      else
        match digits base r 0 0 with
        | (v, n, EmptyString) => if (0 <? n)%Z then Some (inject_Z v) else None
        | _ => None
        end
  | _ => None
  end.

(** StringToNumber: white space is trimmed, the empty string is 0, a
    numeric literal is rounded to the nearest double, anything else is NaN. *)
Definition StringToNumber (s : string) : number :=
  let t := trim s in
  match t with
  | EmptyString => Finite 0
  | String c r =>
      match non_decimal t with
      | Some q => fl q
      | None =>
          let '(negative, u) :=
            if Ascii.eqb c "-" then (true, r)
            else if Ascii.eqb c "+" then (false, r)
            else (false, t) in
          if String.eqb u "Infinity" then Infinity negative
          else
            match unsigned_decimal u with
            | Some q => fl (if negative then - q else q)
            | None => NaN
            end
      end
  end.

(** *** Values as numbers *)

(** ToString throws on the value: [toString] of a parsed object is the
    inherited method unless the object has a member of that name, which is
    no function; an array joins the strings of its elements. *)
Fixpoint unprintable (v : Json) : bool :=
  match v with
  | JObj members =>
      match member "toString" members with
      | Some _ => true
      | None => false
      end
  | JArr elements => existsb unprintable elements
  | _ => false
  end.

(** ToNumber of a value that can be printed.  An array is the number of the
    string it joins to: 0 when empty, the number of its element when there
    is one ([ToNumber(ToString(x))] is [x] for a number [x]), and NaN
    otherwise, for the comma.  An object prints as [[object Object]]. *)
Fixpoint number_of (v : Json) : number :=
  match v with
  | JNull => Finite 0
  | JBool b => Finite (if b then 1 else 0)
  | JNum x => x
  | JStr s => StringToNumber s
  | JArr [] => Finite 0
  | JArr [x] =>
      match x with
      | JNull => Finite 0
      | JBool _ => NaN
      | JObj _ => NaN
      | _ => number_of x
      end
  | JArr _ => NaN
  | JObj _ => NaN
  end.

(** ToNumber. *)
Definition ToNumber (v : Value) : Result number :=
  match v with
  | None => Ok NaN
  | Some j =>
      if unprintable j then Throw "Cannot convert object to primitive value"
      else Ok (number_of j)
  end.

(** Sequencing of blocks that may throw. *)
Definition and_then {A B : Type} (r : Result A) (k : A -> Result B) : Result B :=
  match r with
  | Ok a => k a
  | Throw message => Throw message
  end.

Notation "'let?' x ':=' r 'in' k" := (and_then r (fun x => k))
  (at level 10, x name, r at level 100, k at level 200, only parsing).

(** [v < n] and [v > n] for a number [n]. *)
Definition less_than (v : Value) (n : number) : Result bool :=
  let? x := ToNumber v in Ok (lt x n).

Definition greater_than (v : Value) (n : number) : Result bool :=
  let? x := ToNumber v in Ok (lt n x).

(** ** Data model *)

Record TotalEntry : Type := mkTotal {
  t_type : string;
  t_amount : number;
  t_display_text : option string
}.

(** A line item keeps the submitted [quantity] as it came. *)
Record LineItem : Type := mkLineItem {
  li_id : string;
  li_item : ItemSnapshot;
  li_quantity : Value;
  li_totals : list TotalEntry
}.

Record Checkout : Type := mkCheckout {
  checkout_id : string;
  line_items : list LineItem;
  buyer : nat;
  currency : Json;
  totals : list TotalEntry;
  messages : list Message;
  expires_at : Z;
  status : Status;
  order : option Order
}.

Record State : Type := mkState {
  checkouts : gmap string Checkout;
  processedRequests : gmap string Checkout;
  lineItemCounter : Z;
  buyers : list Buyer
}.

Definition initial : State := mkState ∅ ∅ 0 [].

Record Snapshot : Type := mkSnapshot {
  s_id : string;
  s_line_items : list LineItem;
  s_buyer : option Buyer;
  s_currency : Json;
  s_totals : list TotalEntry;
  s_messages : list Message;
  s_expires_at : Z;
  s_status : Status;
  s_order : option Order
}.

Inductive Body : Type :=
| ErrorBody (st : Status) (msgs : list Message)
| CheckoutBody (s : Snapshot).

Record Response : Type := mkResponse {
  http_status : Z;
  body : Body
}.

Definition render (h : list Buyer) (c : Checkout) : Snapshot :=
  mkSnapshot (checkout_id c) (line_items c) (h !! buyer c) (currency c)
    (totals c) (messages c) (expires_at c) (status c) (order c).

(** ** Statements that read and write the module variables *)

(** A block of statements: from the state before it to the state after it,
    with the value it yields or the error it throws. *)
Definition M (A : Type) : Type := State -> State * Result A.

Definition ret {A : Type} (a : A) : M A := fun st => (st, Ok a).

Definition lift {A : Type} (r : Result A) : M A := fun st => (st, r).

Definition bind {A B : Type} (c : M A) (k : A -> M B) : M B :=
  fun st =>
    match c st with
    | (st', Ok a) => k a st'
    | (st', Throw message) => (st', Throw message)
    end.

Notation "'let*' x ':=' c 'in' k" := (bind c (fun x => k))
  (at level 10, x name, c at level 100, k at level 200, only parsing).

Definition set_checkouts (f : gmap string Checkout -> gmap string Checkout)
    (st : State) : State :=
  mkState (f (checkouts st)) (processedRequests st) (lineItemCounter st) (buyers st).

Definition set_processedRequests (f : gmap string Checkout -> gmap string Checkout)
    (st : State) : State :=
  mkState (checkouts st) (f (processedRequests st)) (lineItemCounter st) (buyers st).

Definition set_lineItemCounter (n : Z) (st : State) : State :=
  mkState (checkouts st) (processedRequests st) n (buyers st).

Definition set_buyers (h : list Buyer) (st : State) : State :=
  mkState (checkouts st) (processedRequests st) (lineItemCounter st) h.

(** [lineItemCounter++] followed by a read: a double stays at 2^53. *)
Definition increment : M Z :=
  fun st =>
    let counter := lineItemCounter st in
    let counter' := if (counter <? 2 ^ 53)%Z then counter + 1 else counter in
    (set_lineItemCounter counter' st, Ok counter').

(** An assignment to a member of the checkout object stored under [id]:
    the object in the store is [checkout] from then on. *)
Definition assign (id : string) (checkout : Checkout) : M unit :=
  fun st => (set_checkouts (insert id checkout) st, Ok tt).

(** An assignment to a member of the buyer object at [ref]. *)
Definition assign_buyer (ref : nat) (f : Buyer -> Buyer) : M unit :=
  fun st => (set_buyers (alter f ref (buyers st)) st, Ok tt).

(** A new buyer object. *)
Definition allocate (b : Buyer) : M nat :=
  fun st => (set_buyers (buyers st ++ [b]) st, Ok (length (buyers st))).

(** [checkouts.set(id, checkout)]. *)
Definition store (id : string) (checkout : Checkout) : M unit :=
  fun st => (set_checkouts (insert id checkout) st, Ok tt).

(** [if (req.idempotencyKey) processedRequests.set(req.idempotencyKey, responseData)]. *)
Definition remember (idempotencyKey : option string) (responseData : Checkout) : M unit :=
  fun st =>
    match idempotencyKey with
    | Some k =>
        if str_nonempty k
        then (set_processedRequests (insert k responseData) st, Ok tt)
        else (st, Ok tt)
    | None => (st, Ok tt)
    end.

(** [res.status(code).json({ ucp, ...checkout })]. *)
Definition respond (code : Z) (checkout : Checkout) : M Response :=
  fun st => (st, Ok (mkResponse code (CheckoutBody (render (buyers st) checkout)))).

(** ** Helper functions of the server *)

(** The callback of [reduce] in [calculateTotals], over the whole list. *)
Fixpoint reduce_subtotal (lineItems : list LineItem) (sum : number) : Result number :=
  match lineItems with
  | [] => Ok sum
  | item :: rest =>
      let? quantity := ToNumber (li_quantity item) in
      reduce_subtotal rest (add sum (mul (of_Z (item_price (li_item item))) quantity))
  end.

(** [function calculateTotals(lineItems)]. *)
Definition calculateTotals (lineItems : list LineItem) : Result (list TotalEntry) :=
  let? subtotal := reduce_subtotal lineItems (Finite 0) in
  let tax := Math_round (mul subtotal tax_rate) in
  let total := add subtotal tax in
  Ok [ mkTotal "subtotal" subtotal (Some "Subtotal");
       mkTotal "tax" tax (Some "Tax (8%)");
       mkTotal "total" total (Some "Total") ].

(** [PRODUCTS.find(p => p.id === productId)]: only a string is strictly
    equal to an identifier of the catalogue. *)
Definition find_product (productId : Value) : option Product :=
  match productId with
  | Some (JStr pid) => find (fun p => String.eqb (p_id p) pid) PRODUCTS
  | _ => None
  end.

(** [function createLineItem(productId, quantity)]. *)
Definition createLineItem (now : Z) (productId quantity : Value) : M (option LineItem) :=
  match find_product productId with
  | None => ret None
  | Some product =>
      let* counter := increment in
      let* q := lift (ToNumber quantity) in
      ret (Some (mkLineItem
                   ("li_" +:+ pretty counter +:+ "_" +:+ pretty now)
                   (mkItem (p_id product) (p_name product) (p_price product))
                   quantity
                   [mkTotal "subtotal" (mul (of_Z (p_price product)) q) None]))
  end.

(** [function determineStatus(checkout)]. *)
Definition determineStatus (b : option Buyer) (items : list LineItem) : Status :=
  if negb (truthy_str (b ≫= email)) || negb (truthy_str (b ≫= full_name))
  then incomplete
  else if (length items =? 0)%nat then incomplete
  else ready_for_complete.

(** The callback of [forEach] in [validateLineItems]. *)
Definition validate_entry (item : Json) : Result unit :=
  let? item_item := get "item" (Some item) in
  if negb (truthy (get_opt "id" item_item))
  then Throw "Each line item must have item.id and quantity"
  else
    let? quantity := get "quantity" (Some item) in
    if negb (truthy quantity)
    then Throw "Each line item must have item.id and quantity"
    else
      let? below := less_than quantity (of_Z 1) in
      if below then Throw "Quantity must be between 1 and 100"
      else
        let? above := greater_than quantity (of_Z 100) in
        if above then Throw "Quantity must be between 1 and 100"
        else Ok tt.

Fixpoint validate_entries (l : list Json) : Result unit :=
  match l with
  | [] => Ok tt
  | item :: rest => let? _ := validate_entry item in validate_entries rest
  end.

(** [function validateLineItems(lineItems)]. *)
Definition validateLineItems (lineItems : Value) : Result unit :=
  match lineItems with
  | Some (JArr (item :: rest)) => validate_entries (item :: rest)
  | _ => Throw "line_items must be a non-empty array"
  end.

(** [function sanitizeEmail(email)]: a truthy value that is no string has no
    [trim]. *)
Definition sanitizeEmail (email : Value) : Result (option string) :=
  if negb (truthy email) then Ok None
  else
    match email with
    | Some (JStr e) =>
        let trimmed := toLowerCase (trim e) in
        Ok (if emailRegex_test trimmed then Some trimmed else None)
    | _ => Throw "email.trim is not a function"
    end.

(** [function sanitizeName(name)]. *)
Definition sanitizeName (name : Value) : Result (option string) :=
  if negb (truthy name) then Ok None
  else
    match name with
    | Some (JStr n) => Ok (Some (slice0 100 (trim n)))
    | _ => Throw "name.trim is not a function"
    end.

(** [function ucpError(code, message, severity = 'requires_buyer_input')]. *)
Definition ucpError (code message : string) : Body :=
  ErrorBody canceled
    [mkMessage "error" code (Some "requires_buyer_input") message None].

(** ** Building line items *)

(** The callback [li => createLineItem(li.item.id, li.quantity)]. *)
Definition create_from_entry (now : Z) (li : Json) : M (option LineItem) :=
  let* li_item := lift (get "item" (Some li)) in
  let* id := lift (get "id" li_item) in
  let* quantity := lift (get "quantity" (Some li)) in
  createLineItem now id quantity.

(** [.map(li => createLineItem(li.item.id, li.quantity))], left to right. *)
Fixpoint map_createLineItem (now : Z) (l : list Json) : M (list (option LineItem)) :=
  match l with
  | [] => ret []
  | li :: rest =>
      let* x := create_from_entry now li in
      let* xs := map_createLineItem now rest in
      ret (x :: xs)
  end.

(** [.filter(li => li !== null)]. *)
Definition filter_not_null (l : list (option LineItem)) : list LineItem :=
  omap (fun x => x) l.

(** [line_items.length], for a truthy value. *)
Definition length_of (v : Value) : Value :=
  match v with
  | Some (JArr elements) => Some (JNum (of_Z (Z.of_nat (length elements))))
  | Some (JStr s) => Some (JNum (of_Z (Z.of_nat (String.length s))))
  | Some (JObj members) => member "length" members
  | _ => None
  end.

(** The receiver of [.map]: only an array has the method. *)
Definition array_entries (what : string) (v : Value) : Result (list Json) :=
  match v with
  | Some (JArr elements) => Ok elements
  | _ => Throw (what +:+ ".map is not a function")
  end.

(** [if (x) target.member = x]: only a truthy string is assigned. *)
Definition if_truthy (o : option string) : option string :=
  match o with
  | Some s => if str_nonempty s then Some s else None
  | None => None
  end.

(** [new Date(t).toISOString()], kept as the time value it prints: the
    [RangeError] of a date outside the range of time values. *)
Definition toISOString (t : Z) : Result Z :=
  if (Z.abs t <=? 8640000000000000)%Z then Ok t else Throw "Invalid time value".

(** ** The handlers *)

(** [try { ... } catch (error) { res.status(400).json(ucpError('invalid_request',
    error.message)) }]. *)
Definition try_catch (block : M Response) (st : State) : State * Response :=
  match block st with
  | (st', Ok response) => (st', response)
  | (st', Throw message) => (st', mkResponse 400 (ucpError "invalid_request" message))
  end.

(** The guarded sanitisation of a buyer member:
    [if (buyer.email) { const cleanEmail = sanitizeEmail(buyer.email); ... }]. *)
Definition clean (sanitize : Value -> Result (option string)) (v : Value)
    : Result (option string) :=
  if truthy v then let? x := sanitize v in Ok (if_truthy x) else Ok None.

(** The block of [POST] between [try {] and [} catch]. *)
Definition create_block (now : Z) (idempotencyKey : option string) (body : Value)
    : M Response :=
  let* line_items := lift (get "line_items" body) in
  let* buyer := lift (get "buyer" body) in
  let* currency := lift (get "currency" body) in
  let* nonempty := lift (if truthy line_items
                    then greater_than (length_of line_items) (of_Z 0)
                    else Ok false) in
  let* _ := lift (if nonempty then validateLineItems line_items else Ok tt) in
  let checkoutId := "chk_" +:+ pretty now in
  let* entries := lift (if truthy line_items
                   then array_entries "(line_items || [])" line_items
                   else Ok []) in
  let* mapped := map_createLineItem now entries in
  let lineItemsResponse := filter_not_null mapped in
  let* cleanEmail := lift (clean sanitizeEmail (get_opt "email" buyer)) in
  let* cleanName := lift (clean sanitizeName (get_opt "full_name" buyer)) in
  let sanitizedBuyer := mkBuyer cleanEmail cleanName in
  let* totals := lift (calculateTotals lineItemsResponse) in
  let* expires_at := lift (toISOString (now + six_hours)) in
  let* ref := allocate sanitizedBuyer in
  let checkout :=
    mkCheckout checkoutId lineItemsResponse ref
      (match currency with
       | Some c => if truthy currency then c else JStr "USD"
       | None => JStr "USD"
       end)
      totals
      (validateCheckout (Some sanitizedBuyer))
      expires_at
      (determineStatus (Some sanitizedBuyer) lineItemsResponse)
      None in
  let* _ := store checkoutId checkout in
  let* _ := remember idempotencyKey checkout in
  respond 201 checkout.

(** [app.post('/api/checkout-sessions', ...)], after the middleware. *)
Definition createCheckout (st : State) (now : Z) (idempotencyKey : option string)
    (body : Value) : State * Response :=
  try_catch (create_block now idempotencyKey body) st.

Definition not_found : Response :=
  mkResponse 404 (ucpError "not_found" "Checkout not found").

Definition expired : Response :=
  mkResponse 404 (ucpError "expired" "Checkout session has expired").

(** [checkouts.delete(req.params.id)]. *)
Definition evict (id : string) (st : State) : State :=
  set_checkouts (delete id) st.

(** [app.get('/api/checkout-sessions/:id', ...)]. *)
Definition getCheckout (st : State) (now : Z) (id : string) : State * Response :=
  match checkouts st !! id with
  | None => (st, not_found)
  | Some checkout =>
      if (expires_at checkout <? now)%Z then (evict id st, expired)
      else (st, mkResponse 200 (CheckoutBody (render (buyers st) checkout)))
  end.

Definition with_line_items (items : list LineItem) (c : Checkout) : Checkout :=
  mkCheckout (checkout_id c) items (buyer c) (currency c) (totals c)
    (messages c) (expires_at c) (status c) (order c).

Definition with_totals (t : list TotalEntry) (c : Checkout) : Checkout :=
  mkCheckout (checkout_id c) (line_items c) (buyer c) (currency c) t
    (messages c) (expires_at c) (status c) (order c).

Definition with_messages_status (m : list Message) (s : Status) (c : Checkout) : Checkout :=
  mkCheckout (checkout_id c) (line_items c) (buyer c) (currency c) (totals c)
    m (expires_at c) s (order c).

Definition with_email (e : string) (b : Buyer) : Buyer := mkBuyer (Some e) (full_name b).

Definition with_full_name (n : string) (b : Buyer) : Buyer := mkBuyer (email b) (Some n).

(** The block [if (line_items) { ... }] of [PUT]: [checkout.line_items] is
    assigned before [calculateTotals] runs. *)
Definition replace_line_items (now : Z) (id : string) (checkout : Checkout)
    (line_items : Value) : M Checkout :=
  let* _ := lift (validateLineItems line_items) in
  let* entries := lift (array_entries "line_items" line_items) in
  let* mapped := map_createLineItem now entries in
  let lineItemsResponse := filter_not_null mapped in
  let checkout1 := with_line_items lineItemsResponse checkout in
  let* _ := assign id checkout1 in
  let* totals := lift (calculateTotals lineItemsResponse) in
  let checkout2 := with_totals totals checkout1 in
  let* _ := assign id checkout2 in
  ret checkout2.

(** The block [if (buyer) { ... }] of [PUT]: the email is assigned before
    the name is looked at. *)
Definition patch_buyer (ref : nat) (buyer : Value) : M unit :=
  let* cleanEmail := lift (clean sanitizeEmail (get_opt "email" buyer)) in
  let* _ := match cleanEmail with
       | Some e => assign_buyer ref (with_email e)
       | None => ret tt
       end in
  let* cleanName := lift (clean sanitizeName (get_opt "full_name" buyer)) in
  match cleanName with
  | Some n => assign_buyer ref (with_full_name n)
  | None => ret tt
  end.

(** [checkout.messages = validateCheckout(checkout)] and
    [checkout.status = determineStatus(checkout)], reading the buyer the
    checkout refers to in [heap]. *)
Definition revalidated (heap : list Buyer) (c : Checkout) : Checkout :=
  with_messages_status (validateCheckout (heap !! buyer c))
    (determineStatus (heap !! buyer c) (line_items c)) c.

Definition revalidate (id : string) (checkout : Checkout) : M Checkout :=
  fun st =>
    let checkout' := revalidated (buyers st) checkout in
    (set_checkouts (insert id checkout') st, Ok checkout').

(** The block of [PUT] after the checkout has been found alive. *)
Definition update_block (now : Z) (idempotencyKey : option string) (id : string)
    (checkout : Checkout) (body : Value) : M Response :=
  let ref := buyer checkout in
  let* line_items := lift (get "line_items" body) in
  let* buyer := lift (get "buyer" body) in
  let* checkout1 := (if truthy line_items
                then replace_line_items now id checkout line_items
                else ret checkout) in
  let* _ := (if truthy buyer then patch_buyer ref buyer else ret tt) in
  let* checkout2 := revalidate id checkout1 in
  let* _ := store id checkout2 in
  let* _ := remember idempotencyKey checkout2 in
  respond 200 checkout2.

(** [app.put('/api/checkout-sessions/:id', ...)], after the middleware. *)
Definition updateCheckout (st : State) (now : Z) (idempotencyKey : option string)
    (id : string) (body : Value) : State * Response :=
  match checkouts st !! id with
  | None => (st, not_found)
  | Some checkout =>
      if (expires_at checkout <? now)%Z then (evict id st, expired)
      else try_catch (update_block now idempotencyKey id checkout body) st
  end.

Definition not_ready_message : Message :=
  mkMessage "error" "not_ready" (Some "requires_buyer_input")
    "Please add email and full name first" None.

Definition order_confirmed_message : Message :=
  mkMessage "info" "order_confirmed" None "Order placed successfully!" None.

Definition with_messages (m : list Message) (s : Snapshot) : Snapshot :=
  mkSnapshot (s_id s) (s_line_items s) (s_buyer s) (s_currency s) (s_totals s)
    m (s_expires_at s) (s_status s) (s_order s).

(** The assignments of [checkout.order], [checkout.status] and
    [checkout.messages] on completion. *)
Definition placed (now : Z) (c : Checkout) : Checkout :=
  let orderId := "ORD_" +:+ pretty now in
  mkCheckout (checkout_id c) (line_items c) (buyer c) (currency c) (totals c)
    [order_confirmed_message] (expires_at c) completed
    (Some (mkOrder orderId ("http://localhost:3000/orders/" +:+ orderId))).

(** [app.post('/api/checkout-sessions/:id/complete', ...)], after the
    middleware; nothing in its [try] block can throw. *)
Definition completeCheckout (st : State) (now : Z) (idempotencyKey : option string)
    (id : string) : State * Response :=
  match checkouts st !! id with
  | None => (st, not_found)
  | Some checkout =>
      if (expires_at checkout <? now)%Z then (evict id st, expired)
      else if negb (is_ready (status checkout)) then
        (st, mkResponse 400
               (CheckoutBody (with_messages [not_ready_message]
                                (render (buyers st) checkout))))
      else
        try_catch
          (let* _ := assign id (placed now checkout) in
           let* _ := store id (placed now checkout) in
           let* _ := remember idempotencyKey (placed now checkout) in
           respond 200 (placed now checkout))
          st
  end.

(** ** Middleware, routes and timers *)

(** [function handleIdempotency(req, res, next)]. *)
Definition handleIdempotency (st : State) (idempotencyKey : option string)
    (next : option string -> State * Response) : State * Response :=
  match idempotencyKey with
  | Some k =>
      if str_nonempty k then
        match processedRequests st !! k with
        | Some cached => (st, mkResponse 200 (CheckoutBody (render (buyers st) cached)))
        | None => next idempotencyKey
        end
      else next idempotencyKey
  | None => next idempotencyKey
  end.

(** A request: its idempotency key, the identifier in its path and
    [req.body]. *)
Inductive Request : Type :=
| POST_checkout (key : option string) (body : Value)
| GET_checkout (id : string)
| PUT_checkout (key : option string) (id : string) (body : Value)
| POST_complete (key : option string) (id : string).

Definition route (st : State) (now : Z) (r : Request) : State * Response :=
  match r with
  | POST_checkout key body =>
      handleIdempotency st key (fun k => createCheckout st now k body)
  | GET_checkout id => getCheckout st now id
  | PUT_checkout key id body =>
      handleIdempotency st key (fun k => updateCheckout st now k id body)
  | POST_complete key id =>
      handleIdempotency st key (fun k => completeCheckout st now k id)
  end.

(** The session clean-up timer. *)
Definition sweep (st : State) (now : Z) : State :=
  set_checkouts (filter (fun kv => ¬ (expires_at kv.2 < now))) st.

(** The idempotency timer: [processedRequests.clear()]. *)
Definition clear (st : State) : State :=
  set_processedRequests (fun _ => ∅) st.

Inductive Event : Type :=
| Call (r : Request)
| SweepTimer
| ClearTimer.

Definition step (st : State) (now : Z) (e : Event) : State :=
  match e with
  | Call r => (route st now r).1
  | SweepTimer => sweep st now
  | ClearTimer => clear st
  end.

(** A run: events with the clock reading at which each is processed. *)
Fixpoint run (st : State) (evs : list (Z * Event)) : State :=
  match evs with
  | [] => st
  | (now, e) :: rest => run (step st now e) rest
  end.

(** The states the server can be in. *)
Definition reachable (st : State) : Prop :=
  exists evs, run initial evs = st.

(** ** Notions used to state the properties *)

(** The body can be destructured: it is neither [undefined] nor [null]. *)
Definition readable (body : Value) : bool :=
  match body with
  | None | Some JNull => false
  | _ => true
  end.

(** A quantity that passes [validateLineItems]: truthy, and neither below 1
    nor above 100 once converted to a number.  NaN, the number of most
    strings, is neither. *)
Definition acceptable (quantity : Value) : bool :=
  truthy quantity
  && match ToNumber quantity with
     | Ok n => negb (lt n (of_Z 1)) && negb (lt (of_Z 100) n)
     | Throw _ => false
     end.

(** An entry that passes [validateLineItems]: [item.id] is truthy and the
    quantity is acceptable. *)
Definition entry_valid (item : Json) : bool :=
  truthy (get_opt "id" (get_opt "item" (Some item)))
  && acceptable (get_opt "quantity" (Some item)).

(** A non-empty array of valid entries. *)
Definition valid_array (line_items : Value) : bool :=
  match line_items with
  | Some (JArr (item :: rest)) => forallb entry_valid (item :: rest)
  | _ => false
  end.

(** The empty array. *)
Definition empty_array (line_items : Value) : bool :=
  match line_items with
  | Some (JArr []) => true
  | _ => false
  end.

(** A buyer member that sanitisation can handle: falsy, or a string. *)
Definition quiet (v : Value) : bool :=
  negb (truthy v)
  || match v with
     | Some (JStr _) => true
     | _ => false
     end.

(** The buyer of a body has an email and a name that sanitisation can
    handle. *)
Definition quiet_buyer (body : Value) : bool :=
  quiet (get_opt "email" (get_opt "buyer" body))
  && quiet (get_opt "full_name" (get_opt "buyer" body)).

(** The expiry of a checkout created at [now] is a date. *)
Definition in_time (now : Z) : bool :=
  (Z.abs (now + six_hours) <=? 8640000000000000)%Z.

(** The bodies [POST] accepts at clock reading [now]. *)
Definition create_accepts (now : Z) (body : Value) : bool :=
  readable body
  && (negb (truthy (get_opt "line_items" body))
      || empty_array (get_opt "line_items" body)
      || valid_array (get_opt "line_items" body))
  && quiet_buyer body
  && in_time now.

(** The bodies [PUT] accepts for a live checkout. *)
Definition update_accepts (body : Value) : bool :=
  readable body
  && (negb (truthy (get_opt "line_items" body))
      || valid_array (get_opt "line_items" body))
  && quiet_buyer body.

(** An invalid-request diagnostic. *)
Definition invalid_request (r : Response) : Prop :=
  exists m, r = mkResponse 400 (ucpError "invalid_request" m).

(** The two stores hold the same checkouts, records and buyer objects; the
    line-item counter may differ. *)
Definition same_store (st st' : State) : Prop :=
  checkouts st' = checkouts st
  /\ processedRequests st' = processedRequests st
  /\ buyers st' = buyers st.

(** *** What the store keeps *)

(** Every line item of the checkout has an acceptable quantity. *)
Definition items_ok (c : Checkout) : Prop :=
  Forall (fun i => acceptable (li_quantity i) = true) (line_items c).


(** [items] are the line items built at [now] from the array [line_items]
    in the state [st], which leaves the counter at [counter]. *)
Definition built (now : Z) (st : State) (line_items : Value) (counter : Z)
    (items : list LineItem) : Prop :=
  exists l mapped,
    line_items = Some (JArr l)
    /\ map_createLineItem now l st = (set_lineItemCounter counter st, Ok mapped)
    /\ items = filter_not_null mapped.


(** The status and messages of [c] are either those of a placed order, or
    what [determineStatus] and [validateCheckout] make of its buyer in [h]. *)
Definition status_in_step (h : list Buyer) (c : Checkout) : Prop :=
  (status c = completed
   /\ is_Some (order c)
   /\ messages c = [order_confirmed_message])
  \/ (status c = determineStatus (h !! buyer c) (line_items c)
      /\ messages c = validateCheckout (h !! buyer c)).

(** No two stored checkouts refer to the same buyer object, every buyer
    object referred to exists, and every checkout is in step. *)
Definition store_in_step (st : State) : Prop :=
  (forall id1 id2 c1 c2,
     checkouts st !! id1 = Some c1 -> checkouts st !! id2 = Some c2 ->
     buyer c1 = buyer c2 -> id1 = id2)
  /\ map_Forall (fun _ c => (buyer c < length (buyers st))%nat
                            /\ status_in_step (buyers st) c)
       (checkouts st).

(** The event is no [PUT] whose buyer sanitisation would throw. *)
Definition quiet_update (e : Event) : Prop :=
  match e with
  | Call (PUT_checkout _ _ body) => quiet_buyer body = true
  | _ => True
  end.

(** *** Sample requests *)

Definition entry (id : Json) (quantity : Json) : Json :=
  JObj [("item", JObj [("id", id)]); ("quantity", quantity)].

(** Twelve red roses, and nobody to send them to. *)
Definition roses_no_buyer : Value :=
  Some (JObj [("line_items", JArr [entry (JStr "1") (JNum (of_Z 12))])]).

(** Twelve red roses for a known buyer. *)
Definition roses_with_buyer : Value :=
  Some (JObj [("line_items", JArr [entry (JStr "1") (JNum (of_Z 12))]);
              ("buyer", JObj [("email", JStr "a@b.com"); ("full_name", JStr "A B")])]).


(** Roses for a buyer whose email is the number 5. *)
Definition roses_email_5 : Value :=
  Some (JObj [("line_items", JArr [entry (JStr "1") (JNum (of_Z 12))]);
              ("buyer", JObj [("email", JNum (of_Z 5))])]).

(** An update that empties the cart, the only entry being for a product
    that does not exist, and whose buyer has the number 5 for an email. *)
Definition unknown_product_email_5 : Value :=
  Some (JObj [("line_items", JArr [entry (JStr "999") (JNum (of_Z 1))]);
              ("buyer", JObj [("email", JNum (of_Z 5))])]).

(** An update with the empty array for line items. *)
Definition empty_cart : Value := Some (JObj [("line_items", JArr [])]).

(** The store after a [POST] of [roses_no_buyer] at clock reading 1000. *)
Definition st_roses : State := (createCheckout initial 1000 None roses_no_buyer).1.

(** The store after a [POST] of [roses_with_buyer] at clock reading 1000. *)
Definition st_ready : State := (createCheckout initial 1000 None roses_with_buyer).1.

(** *** Totals *)

(** The quantity of a line item when its conversion to a number is a whole
    number. *)
Definition whole_quantity (i : LineItem) : option Z :=
  match ToNumber (li_quantity i) with
  | Ok (Finite q) =>
      if Qeq_bool q (inject_Z (Qfloor q)) then Some (Qfloor q) else None
  | _ => None
  end.

(** A line item with a price in whole cents and a whole quantity, neither
    negative. *)
Definition whole_item (i : LineItem) : Prop :=
  0 <= item_price (li_item i)
  /\ exists n, whole_quantity i = Some n /\ 0 <= n.

(** Unit price times quantity, in whole cents (0 when the quantity is not
    whole). *)
Definition exact_amount (i : LineItem) : Z :=
  match whole_quantity i with
  | Some n => item_price (li_item i) * n
  | None => 0
  end.

(** The sum of unit price times quantity over the items. *)
Definition exact_subtotal (items : list LineItem) : Z :=
  foldr (fun i sum => exact_amount i + sum) 0 items.

(** Twelve red roses, as [createLineItem] snapshots them. *)
Definition twelve_roses : LineItem :=
  mkLineItem "li_1_1000" (mkItem "1" "Red Roses" 299)
    (Some (JNum (of_Z 12)))
    [mkTotal "subtotal" (of_Z 3588) None].

(** The double written [37.688127090301], and a line of red roses in that
    quantity. *)
Definition fractional_quantity : number :=
  StringToNumber "37.688127090301".

Definition fractional_roses : LineItem :=
  mkLineItem "li_1_1000" (mkItem "1" "Red Roses" 299)
    (Some (JNum fractional_quantity))
    [mkTotal "subtotal" (mul (of_Z 299) fractional_quantity) None].

End Wire.


(** * Properties *)

Local Open Scope Z_scope.

(** ** Totals *)

Lemma Math_round_half_up (x : Q) : round_half_up x (Math_round x).
Proof.
  unfold round_half_up, Math_round.
  pose proof (Qfloor_le (x + (1 # 2))) as Hle.
  pose proof (Qlt_floor (x + (1 # 2))) as Hlt.
  rewrite inject_Z_plus in Hlt.
  change (inject_Z 1) with 1%Q in Hlt.
  split; lra.
Qed.

(** On an integer number of cents the tax is an integer division. *)
Lemma Math_round_cents (s : Z) :
  Math_round (inject_Z s * tax_rate) = (8 * s + 50) / 100.
Proof.
  unfold Math_round, tax_rate, Qfloor, inject_Z, Qmult, Qplus.
  cbn [Qnum Qden].
  change (Z.pos (1 * 100 * 2)) with (100 * 2).
  replace (s * 8 * 2 + 1 * Z.pos (1 * 100)) with ((8 * s + 50) * 2) by lia.
  apply Z.div_mul_cancel_r; lia.
Qed.

Lemma Qfloor_between (y : Q) (n : Z) :
  (inject_Z n <= y)%Q -> (y < inject_Z (n + 1))%Q -> Qfloor y = n.
Proof.
  intros Hle Hlt.
  pose proof (Qfloor_le y) as Hf.
  pose proof (Qlt_floor y) as Hc.
  assert (H1 : (inject_Z (Qfloor y) < inject_Z (n + 1))%Q) by lra.
  assert (H2 : (inject_Z n < inject_Z (Qfloor y + 1))%Q) by lra.
  rewrite <- Zlt_Qlt in H1, H2. lia.
Qed.

(** The exact product of a whole number of cents and 0.08 is at least 1/50
    away from the next rounding boundary: evaluating the product with an
    error below 1/50, as double arithmetic does on the amounts of a cart,
    gives the same tax. *)
Lemma Math_round_cents_stable (s : Z) (x : Q) :
  (inject_Z s * tax_rate - (1 # 50) < x)%Q ->
  (x < inject_Z s * tax_rate + (1 # 50))%Q ->
  Math_round x = Math_round (inject_Z s * tax_rate).
Proof.
  intros Hlo Hhi. rewrite Math_round_cents.
  unfold Math_round. apply Qfloor_between.
  - set (n := (8 * s + 50) / 100).
    assert (Hn : 100 * n + 2 <= 8 * s + 50).
    { pose proof (Z.div_mod (8 * s + 50) 100 ltac:(lia)) as Hd.
      pose proof (Z.mod_pos_bound (8 * s + 50) 100 ltac:(lia)) as Hb.
      fold n in Hd.
      assert (Hr : (8 * s + 50) mod 100 <> 0 /\ (8 * s + 50) mod 100 <> 1).
      { split; intros Hr; rewrite Hr in Hd; lia. }
      lia. }
    rewrite Zle_Qle in Hn.
    rewrite !inject_Z_plus, !inject_Z_mult in Hn.
    unfold tax_rate in *.
    change (inject_Z 100) with 100%Q in Hn. change (inject_Z 2) with 2%Q in Hn.
    change (inject_Z 8) with 8%Q in Hn. change (inject_Z 50) with 50%Q in Hn.
    lra.
  - set (n := (8 * s + 50) / 100).
    assert (Hn : 8 * s + 50 <= 100 * n + 98).
    { pose proof (Z.div_mod (8 * s + 50) 100 ltac:(lia)) as Hd.
      pose proof (Z.mod_pos_bound (8 * s + 50) 100 ltac:(lia)) as Hb.
      fold n in Hd.
      assert (Hr : (8 * s + 50) mod 100 <> 99).
      { intros Hr; rewrite Hr in Hd; lia. }
      lia. }
    rewrite Zle_Qle in Hn.
    rewrite !inject_Z_plus, !inject_Z_mult in Hn.
    rewrite inject_Z_plus.
    unfold tax_rate in *.
    change (inject_Z 100) with 100%Q in Hn. change (inject_Z 98) with 98%Q in Hn.
    change (inject_Z 8) with 8%Q in Hn. change (inject_Z 50) with 50%Q in Hn.
    change (inject_Z 1) with 1%Q.
    lra.
Qed.

(** ** Strings and sanitisation *)

Lemma lower_char_idem (a : ascii) : lower_char (lower_char a) = lower_char a.
Proof. destruct a as [[] [] [] [] [] [] [] []]; vm_compute; reflexivity. Qed.

Lemma toLowerCase_idem (s : string) : toLowerCase (toLowerCase s) = toLowerCase s.
Proof.
  induction s as [|a s IH]; simpl; [reflexivity|].
  rewrite lower_char_idem, IH. reflexivity.
Qed.

Lemma split_first_app (c : ascii) (s u v : string) :
  split_first c s = Some (u, v) -> s = u +:+ String c v.
Proof.
  revert u v. induction s as [|a s IH]; intros u v H; simpl in H; [discriminate|].
  destruct (Ascii.eqb a c) eqn:Hac.
  - apply Ascii.eqb_eq in Hac. subst a.
    injection H as <- <-. reflexivity.
  - destruct (split_first c s) as [[u' v']|] eqn:Hs; [|discriminate].
    injection H as <- <-. simpl. rewrite (IH u' v' eq_refl). reflexivity.
Qed.

Lemma all_chars_app (p : ascii -> bool) (s t : string) :
  all_chars p (s +:+ t) = all_chars p s && all_chars p t.
Proof.
  induction s as [|a s IH]; simpl; [reflexivity|].
  rewrite IH. apply andb_assoc.
Qed.

Lemma all_chars_weaken (p q : ascii -> bool) (s : string) :
  (forall a, p a = true -> q a = true) ->
  all_chars p s = true -> all_chars q s = true.
Proof.
  intros Hpq. induction s as [|a s IH]; simpl; [reflexivity|].
  intros [Ha Hs]%andb_prop. rewrite (Hpq a Ha). simpl. apply IH, Hs.
Qed.

Lemma emailRegex_no_space (s : string) :
  emailRegex_test s = true -> all_chars (fun a => negb (is_space a)) s = true.
Proof.
  unfold emailRegex_test.
  destruct (split_first "@" s) as [[u v]|] eqn:Hs; [|discriminate].
  intros H. apply split_first_app in Hs. subst s.
  apply andb_prop in H as [H _]. apply andb_prop in H as [H Hv].
  apply andb_prop in H as [_ Hu].
  rewrite all_chars_app. simpl.
  assert (Hw : forall a, not_space_at a = true -> negb (is_space a) = true).
  { intros a Ha. unfold not_space_at in Ha. apply andb_prop in Ha as [Ha _]. exact Ha. }
  rewrite (all_chars_weaken _ _ u Hw Hu), (all_chars_weaken _ _ v Hw Hv).
  reflexivity.
Qed.

Lemma dot_before_end_split (r : string) :
  dot_before_end r = true ->
  exists v w, r = v +:+ String "." w /\ str_nonempty w = true.
Proof.
  induction r as [|a r IH]; simpl; [discriminate|].
  intros [[Ha Hr]%andb_prop|H]%orb_prop.
  - apply Ascii.eqb_eq in Ha. subst a. exists EmptyString, r. split; [reflexivity|exact Hr].
  - destruct (IH H) as (v & w & -> & Hw). exists (String a v), w. split; [reflexivity|exact Hw].
Qed.

Lemma dot_before_end_app (v w : string) :
  str_nonempty w = true -> dot_before_end (v +:+ String "." w) = true.
Proof.
  intros Hw. induction v as [|a v IH]; simpl.
  - rewrite Hw. reflexivity.
  - rewrite IH. apply orb_true_r.
Qed.

Lemma split_first_fresh (c : ascii) (u t : string) :
  all_chars (fun a => negb (Ascii.eqb a c)) u = true ->
  split_first c (u +:+ String c t) = Some (u, t).
Proof.
  induction u as [|a u IH]; simpl.
  - intros _. rewrite Ascii.eqb_refl. reflexivity.
  - intros [Ha Hu]%andb_prop. apply negb_true_iff in Ha. rewrite Ha, (IH Hu). reflexivity.
Qed.

(** The test accepts exactly the strings of the shape the expression
    describes. *)
Lemma emailRegex_test_shape (s : string) :
  emailRegex_test s = true <-> email_shape s.
Proof.
  unfold emailRegex_test, email_shape. split.
  - destruct (split_first "@" s) as [[u d]|] eqn:Hs; [|discriminate].
    apply split_first_app in Hs. subst s.
    intros [[[Hu Hau]%andb_prop Had]%andb_prop Hd]%andb_prop.
    destruct d as [|a r]; [discriminate|].
    destruct (dot_before_end_split r Hd) as (v & w & -> & Hw).
    exists u, (String a v), w.
    change (all_chars not_space_at (String a v +:+ String "." w) = true) in Had.
    rewrite all_chars_app in Had. apply andb_prop in Had as [Hv Hdw].
    simpl in Hdw.
    repeat split; auto.
  - intros (u & v & w & -> & Hu & Hv & Hw & Hau & Hav & Haw).
    rewrite split_first_fresh.
    + rewrite Hu, Hau. simpl.
      rewrite all_chars_app, Hav. simpl. rewrite Haw. simpl.
      destruct v as [|a v]; [discriminate|]. simpl.
      apply dot_before_end_app, Hw.
    + eapply all_chars_weaken; [|exact Hau].
      intros a Ha. unfold not_space_at in Ha. apply andb_prop in Ha as [_ Ha]. exact Ha.
Qed.

Lemma emailRegex_nonempty (s : string) :
  emailRegex_test s = true -> str_nonempty s = true.
Proof. destruct s; [discriminate|reflexivity]. Qed.

Lemma trimEnd_no_space (s : string) :
  all_chars (fun a => negb (is_space a)) s = true -> trimEnd s = s.
Proof.
  induction s as [|a s IH]; simpl; [reflexivity|].
  intros [Ha Hs]%andb_prop. rewrite (IH Hs).
  destruct s; [|reflexivity].
  apply negb_true_iff in Ha. rewrite Ha. reflexivity.
Qed.

Lemma trim_no_space (s : string) :
  all_chars (fun a => negb (is_space a)) s = true -> trim s = s.
Proof.
  intros H. unfold trim.
  assert (Hstart : trimStart s = s).
  { destruct s as [|a s]; [reflexivity|]. simpl in *.
    apply andb_prop in H as [Ha _]. apply negb_true_iff in Ha.
    rewrite Ha. reflexivity. }
  rewrite Hstart. apply trimEnd_no_space, H.
Qed.

(** What [sanitizeEmail] returns is a fixed point of it. *)
Lemma sanitizeEmail_sanitized (x : option string) (e : string) :
  sanitizeEmail x = Some e -> sanitized_email e.
Proof.
  unfold sanitized_email, sanitizeEmail.
  destruct x as [x|]; [|discriminate].
  destruct (negb (str_nonempty x)); [discriminate|].
  destruct (emailRegex_test (toLowerCase (trim x))) eqn:Hre; [|discriminate].
  intros [= <-].
  rewrite (emailRegex_nonempty _ Hre). simpl.
  rewrite (trim_no_space _ (emailRegex_no_space _ Hre)).
  rewrite toLowerCase_idem, Hre. reflexivity.
Qed.

Lemma sanitized_email_nonempty (e : string) :
  sanitized_email e -> str_nonempty e = true.
Proof.
  unfold sanitized_email, sanitizeEmail.
  destruct (str_nonempty e); [reflexivity|discriminate].
Qed.

Lemma if_truthy_Some (o : option string) (s : string) :
  if_truthy o = Some s -> o = Some s /\ str_nonempty s = true.
Proof.
  destruct o as [t|]; simpl; [|discriminate].
  destruct (str_nonempty t) eqn:Ht; [|discriminate].
  intros [= <-]. split; [reflexivity|exact Ht].
Qed.

Lemma clean_email_sanitized (b : option BuyerInput) (e : string) :
  clean_email b = Some e -> sanitized_email e.
Proof.
  unfold clean_email. destruct (truthy_str _); [|discriminate].
  intros [H _]%if_truthy_Some. eapply sanitizeEmail_sanitized, H.
Qed.

Lemma clean_name_nonempty (b : option BuyerInput) (n : string) :
  clean_name b = Some n -> str_nonempty n = true.
Proof.
  unfold clean_name. destruct (truthy_str _); [|discriminate].
  intros [_ H]%if_truthy_Some. exact H.
Qed.

(** ** Validation and construction of line items *)

Lemma Qltb_false (x y : Q) : Qltb x y = false -> (y <= x)%Q.
Proof.
  unfold Qltb. intros H. apply negb_false_iff in H. apply Qle_bool_iff, H.
Qed.

Lemma Qltb_true (x y : Q) : Qltb x y = true -> (x < y)%Q.
Proof.
  unfold Qltb. intros H. apply negb_true_iff in H.
  apply Qnot_le_lt. intros Hle. apply Qle_bool_iff in Hle. congruence.
Qed.

Lemma validate_entry_Ok (e : LineItemInput) :
  validate_entry e = Ok tt <-> entry_valid e.
Proof.
  unfold validate_entry, entry_valid. split.
  - destruct (in_item e) as [[[pid|]]|] eqn:Hi; simpl; try discriminate.
    destruct (in_quantity e) as [q|] eqn:Hq; simpl;
      [|rewrite orb_true_r; discriminate].
    destruct (str_nonempty pid) eqn:Hp; simpl; [|discriminate].
    destruct (Qeq_bool q 0); simpl; [discriminate|].
    destruct (Qltb q 1) eqn:H1; simpl; [discriminate|].
    destruct (Qltb 100 q) eqn:H100; [discriminate|].
    intros _. exists (mkItemRef (Some pid)), pid, q.
    repeat split; auto using Qltb_false.
  - intros (r & pid & q & -> & Hr & Hp & -> & H1 & H100). simpl.
    rewrite Hr. simpl. rewrite Hp. simpl.
    assert (Hq0 : Qeq_bool q 0 = false).
    { destruct (Qeq_bool q 0) eqn:E; [|reflexivity].
      apply Qeq_bool_iff in E. lra. }
    rewrite Hq0. simpl.
    assert (Ha : Qltb q 1 = false).
    { destruct (Qltb q 1) eqn:E; [|reflexivity]. apply Qltb_true in E. lra. }
    assert (Hb : Qltb 100 q = false).
    { destruct (Qltb 100 q) eqn:E; [|reflexivity]. apply Qltb_true in E. lra. }
    rewrite Ha, Hb. reflexivity.
Qed.

Lemma validate_entries_Ok (l : list LineItemInput) :
  validate_entries l = Ok tt <-> Forall entry_valid l.
Proof.
  induction l as [|e l IH]; simpl.
  - split; [constructor|reflexivity].
  - destruct (validate_entry e) as [[]|m] eqn:He.
    + rewrite IH. split.
      * intros H. constructor; [apply validate_entry_Ok, He|exact H].
      * intros H. inversion H; assumption.
    + split; [discriminate|].
      intros H. inversion H as [|? ? Hv _]; subst.
      apply validate_entry_Ok in Hv. congruence.
Qed.

(** [validateLineItems] lets exactly the non-empty arrays of valid entries
    through. *)
Lemma validateLineItems_Ok (x : LineItemsField) :
  validateLineItems x = Ok tt <->
  exists l, x = LiArray l /\ l <> [] /\ Forall entry_valid l.
Proof.
  destruct x as [[|e l]|v]; simpl.
  - split; [discriminate|]. intros (l & [= <-] & Hne & _). congruence.
  - change (validate_entries (e :: l) = Ok tt <->
            exists l0, LiArray (e :: l) = LiArray l0 /\ l0 <> [] /\ Forall entry_valid l0).
    rewrite validate_entries_Ok. split.
    + intros H. exists (e :: l). repeat split; [discriminate|exact H].
    + intros (l0 & [= <-] & _ & H). exact H.
  - split; [discriminate|]. intros (l & [=] & _).
Qed.

Lemma find_product_in_catalog (pid : option string) (p : Product) :
  find_product pid = Some p -> pid = Some (p_id p) /\ in_catalog (p_id p) = true.
Proof.
  destruct pid as [pid|]; unfold find_product; [|discriminate].
  intros H. apply find_some in H as [Hin Heq].
  apply String.eqb_eq in Heq. subst pid. split; [reflexivity|].
  unfold in_catalog. apply existsb_exists. exists p.
  split; [exact Hin|apply String.eqb_refl].
Qed.

Lemma find_product_None (pid : string) :
  find_product (Some pid) = None -> in_catalog pid = false.
Proof.
  unfold find_product. intros H. unfold in_catalog.
  destruct (existsb _ PRODUCTS) eqn:E; [|reflexivity].
  apply existsb_exists in E as (p & Hin & Hp).
  eapply find_none in H; [|exact Hin]. simpl in H. congruence.
Qed.

(** One call of [createLineItem]: nothing for an unknown product, and
    otherwise an item that snapshots the product and keeps the quantity. *)
Lemma createLineItem_spec (now counter : Z) (pid : string) (q : Q) :
  (in_catalog pid = false /\ createLineItem now counter (Some pid) q = (counter, None))
  \/ (in_catalog pid = true /\
      exists i, createLineItem now counter (Some pid) q = (counter + 1, Some i)
                /\ item_id (li_item i) = pid /\ li_quantity i = q).
Proof.
  unfold createLineItem.
  destruct (find_product (Some pid)) as [p|] eqn:Hf.
  - right. apply find_product_in_catalog in Hf as [[= ->] Hc].
    split; [exact Hc|]. eexists. split; [reflexivity|]. split; reflexivity.
  - left. split; [apply find_product_None, Hf|reflexivity].
Qed.

(** Entries that passed validation are all mapped, and the cart that remains
    after filtering consists of the entries with a catalogue product. *)
Lemma validated_entries_build (now counter : Z) (l : list LineItemInput) :
  Forall entry_valid l ->
  exists counter' mapped,
    map_createLineItem now counter l = (counter', Ok mapped)
    /\ cart_keys (filter_not_null mapped) = known_entries l
    /\ Forall item_ok (filter_not_null mapped).
Proof.
  intros Hl. revert counter.
  induction Hl as [|e l He Hl IH]; intros counter.
  - exists counter, []. repeat split; constructor.
  - destruct He as (r & pid & q & Hi & Hr & Hp & Hq & Hrange).
    simpl. unfold create_from_entry. rewrite Hi, Hq, Hr.
    unfold known_entries. simpl. unfold entry_key at 1. rewrite Hi, Hq. simpl. rewrite Hr.
    destruct (createLineItem_spec now counter pid q)
      as [[Hc Hcr]|[Hc (i & Hcr & Hid & Hqi)]]; rewrite Hcr.
    + destruct (IH counter) as (c' & mapped & Hm & Hk & Hok).
      rewrite Hm. exists c', (None :: mapped). split; [reflexivity|].
      rewrite filter_cons_False by (simpl; congruence).
      split; [exact Hk|exact Hok].
    + destruct (IH (counter + 1)) as (c' & mapped & Hm & Hk & Hok).
      rewrite Hm. exists c', (Some i :: mapped). split; [reflexivity|].
      rewrite filter_cons_True by (simpl; exact Hc).
      split.
      * simpl. rewrite Hid, Hqi. f_equal. exact Hk.
      * simpl. constructor; [|exact Hok].
        split; [rewrite Hqi; exact Hrange|rewrite Hid; exact Hc].
Qed.

(** ** The handlers, case by case *)

Lemma validate_if_nonempty_entries (f : option LineItemsField) (u : unit)
    (entries : list LineItemInput) :
  validate_if_nonempty f = Ok u ->
  or_empty_array f = Ok entries ->
  Forall entry_valid entries.
Proof.
  destruct u. unfold validate_if_nonempty, or_empty_array.
  destruct f as [[[|e l]|v]|]; simpl.
  - intros _ [= <-]. constructor.
  - intros Hv [= <-].
    apply (validateLineItems_Ok (LiArray (e :: l))) in Hv as (l0 & [= <-] & _ & H).
    exact H.
  - destruct (truthy v); [|intros _ [= <-]; constructor]. discriminate.
  - intros _ [= <-]. constructor.
Qed.

(** [POST] either rejects the request and changes nothing, or stores a new
    checkout built from the valid entries. *)
Lemma createCheckout_cases (st : State) (now : Z) (key : option string)
    (req : CreateBody) :
  (exists m,
      (validate_if_nonempty (cr_line_items req) = Throw m
       \/ or_empty_array (cr_line_items req) = Throw m)
      /\ createCheckout st now key req
         = (st, mkResponse 400 (ucpError "invalid_request" m)))
  \/ (exists entries counter mapped,
        or_empty_array (cr_line_items req) = Ok entries
        /\ Forall entry_valid entries
        /\ map_createLineItem now (lineItemCounter st) entries = (counter, Ok mapped)
        /\ cart_keys (filter_not_null mapped) = known_entries entries
        /\ Forall item_ok (filter_not_null mapped)
        /\ let b := sanitized_buyer (cr_buyer req) in
           let c := new_checkout now (length (buyers st)) b (cr_currency req)
                      (filter_not_null mapped) in
           let st3 :=
             remember key c
               (set_checkouts (insert ("chk_" +:+ pretty now) c)
                  (set_buyers (buyers st ++ [b]) (set_lineItemCounter counter st))) in
           createCheckout st now key req
           = (st3, mkResponse 201 (CheckoutBody (render (buyers st3) c)))).
Proof.
  unfold createCheckout.
  destruct (validate_if_nonempty (cr_line_items req)) as [u|m] eqn:Hv;
    [|left; eauto].
  destruct (or_empty_array (cr_line_items req)) as [entries|m] eqn:He;
    [|left; eauto].
  pose proof (validate_if_nonempty_entries _ _ _ Hv He) as Hvalid.
  destruct (validated_entries_build now (lineItemCounter st) entries Hvalid)
    as (counter & mapped & Hm & Hk & Hok).
  rewrite Hm. right. exists entries, counter, mapped.
  repeat split; auto.
Qed.

(** The three ways the line-item block of [PUT] can go. *)
Lemma replace_line_items_cases (now counter : Z) (f : option LineItemsField)
    (c : Checkout) :
  (truthy_field f = false /\ replace_line_items now counter f c = (counter, Ok c))
  \/ (exists x m, f = Some x /\ truthy_field f = true
        /\ validateLineItems x = Throw m
        /\ replace_line_items now counter f c = (counter, Throw m))
  \/ (exists l counter' mapped,
        f = Some (LiArray l) /\ l <> [] /\ Forall entry_valid l
        /\ map_createLineItem now counter l = (counter', Ok mapped)
        /\ cart_keys (filter_not_null mapped) = known_entries l
        /\ Forall item_ok (filter_not_null mapped)
        /\ replace_line_items now counter f c
           = (counter', Ok (with_line_items (filter_not_null mapped) c))).
Proof.
  unfold replace_line_items.
  destruct f as [x|]; [|left; split; reflexivity].
  destruct (truthy_field (Some x)) eqn:Ht; [|left; split; reflexivity].
  right.
  destruct (validateLineItems x) as [[]|m] eqn:Hv.
  - right. apply validateLineItems_Ok in Hv as (l & -> & Hne & Hl).
    destruct (validated_entries_build now counter l Hl) as (c' & mapped & Hm & Hk & Hok).
    simpl. rewrite Hm. exists l, c', mapped. repeat split; auto.
  - left. exists x, m. repeat split; auto.
Qed.

Lemma set_lineItemCounter_same (st : State) :
  set_lineItemCounter (lineItemCounter st) st = st.
Proof. destruct st; reflexivity. Qed.

(** [PUT] on a live checkout either rejects the line items and changes
    nothing, or stores the checkout with its line items possibly replaced,
    its buyer patched in place and its messages and status recomputed. *)
Lemma updateCheckout_live (st : State) (now : Z) (key : option string)
    (id : string) (req : UpdateBody) (c : Checkout) :
  checkouts st !! id = Some c ->
  (expires_at c <? now) = false ->
  (exists x m, up_line_items req = Some x /\ truthy_field (up_line_items req) = true
       /\ validateLineItems x = Throw m
       /\ updateCheckout st now key id req
          = (st, mkResponse 400 (ucpError "invalid_request" m)))
  \/ (exists counter c1,
        replace_line_items now (lineItemCounter st) (up_line_items req) c
          = (counter, Ok c1)
        /\ let heap := alter (patch_buyer (up_buyer req)) (buyer c1) (buyers st) in
           let c2 := revalidated heap c1 in
           let st3 :=
             remember key c2
               (set_checkouts (insert id c2)
                  (set_buyers heap (set_lineItemCounter counter st))) in
           updateCheckout st now key id req
           = (st3, mkResponse 200 (CheckoutBody (render (buyers st3) c2)))).
Proof.
  intros Hc Hlive. unfold updateCheckout. rewrite Hc, Hlive.
  destruct (replace_line_items_cases now (lineItemCounter st) (up_line_items req) c)
    as [[_ Hr]|[(x & m & Hx & Ht & Hv & Hr)|(l & c' & mapped & _ & _ & _ & _ & _ & _ & Hr)]];
    rewrite Hr.
  - right. eexists _, _. split; reflexivity.
  - left. exists x, m. rewrite set_lineItemCounter_same. repeat split; auto.
  - right. eexists _, _. split; reflexivity.
Qed.

(** ** The store invariant *)

Lemma remember_checkouts (key : option string) (c : Checkout) (st : State) :
  checkouts (remember key c st) = checkouts st.
Proof. unfold remember. destruct key as [k|]; [destruct (str_nonempty k)|]; reflexivity. Qed.

Lemma remember_buyers (key : option string) (c : Checkout) (st : State) :
  buyers (remember key c st) = buyers st.
Proof. unfold remember. destruct key as [k|]; [destruct (str_nonempty k)|]; reflexivity. Qed.

Lemma store_wf_same (st st' : State) :
  checkouts st' = checkouts st -> buyers st' = buyers st ->
  store_wf st -> store_wf st'.
Proof. unfold store_wf. intros -> ->. tauto. Qed.

Lemma checkout_ok_mono (n n' : nat) (id : string) (c : Checkout) :
  (n <= n')%nat -> checkout_ok n id c -> checkout_ok n' id c.
Proof. unfold checkout_ok. intros Hn (Hid & Hb & Hi). repeat split; auto. lia. Qed.

Lemma sanitized_buyer_ok (b : option BuyerInput) : buyer_ok (sanitized_buyer b).
Proof.
  split; simpl.
  - intros e. apply clean_email_sanitized.
  - intros n. apply clean_name_nonempty.
Qed.

Lemma patch_buyer_ok (patch : option BuyerInput) (b : Buyer) :
  buyer_ok b -> buyer_ok (patch_buyer patch b).
Proof.
  intros [He Hn]. split; simpl.
  - intros e. destruct (clean_email patch) as [e'|] eqn:Hc.
    + intros [= <-]. eapply clean_email_sanitized, Hc.
    + apply He.
  - intros n. destruct (clean_name patch) as [n'|] eqn:Hc.
    + intros [= <-]. eapply clean_name_nonempty, Hc.
    + apply Hn.
Qed.

Lemma createCheckout_wf (st : State) (now : Z) (key : option string) (req : CreateBody) :
  store_wf st -> store_wf (createCheckout st now key req).1.
Proof.
  intros [Hc Hb].
  destruct (createCheckout_cases st now key req)
    as [(m & _ & ->)|(entries & counter & mapped & _ & _ & _ & _ & Hok & ->)];
    [split; assumption|].
  simpl. split.
  - rewrite remember_checkouts, remember_buyers. simpl.
    apply map_Forall_insert_2.
    + repeat split; simpl.
      * unfold six_hours. f_equal. f_equal. lia.
      * rewrite length_app. simpl. lia.
      * exact Hok.
    + eapply map_Forall_impl; [exact Hc|].
      intros i x. apply checkout_ok_mono. rewrite length_app. lia.
  - rewrite remember_buyers. simpl.
    apply Forall_app. split; [exact Hb|].
    constructor; [apply sanitized_buyer_ok|constructor].
Qed.

Lemma replace_line_items_frame (now counter counter' : Z) (f : option LineItemsField)
    (c c1 : Checkout) :
  replace_line_items now counter f c = (counter', Ok c1) ->
  checkout_id c1 = checkout_id c /\ buyer c1 = buyer c
  /\ expires_at c1 = expires_at c /\ status c1 = status c /\ order c1 = order c
  /\ (Forall item_ok (line_items c) -> Forall item_ok (line_items c1)).
Proof.
  destruct (replace_line_items_cases now counter f c)
    as [[_ ->]|[(x & m & _ & _ & _ & ->)|(l & c' & mapped & _ & _ & _ & _ & _ & Hok & ->)]].
  - intros [= <- <-]. repeat split; auto.
  - discriminate.
  - intros [= <- <-]. repeat split; auto.
Qed.

Lemma updateCheckout_wf (st : State) (now : Z) (key : option string) (id : string)
    (req : UpdateBody) :
  store_wf st -> store_wf (updateCheckout st now key id req).1.
Proof.
  intros [Hc Hb].
  destruct (checkouts st !! id) as [c|] eqn:Hid;
    [|unfold updateCheckout; rewrite Hid; split; assumption].
  destruct (expires_at c <? now) eqn:Hlive.
  { unfold updateCheckout. rewrite Hid, Hlive. split; simpl; [|exact Hb].
    apply map_Forall_delete, Hc. }
  destruct (updateCheckout_live st now key id req c Hid Hlive)
    as [(x & m & _ & _ & _ & ->)|(counter & c1 & Hr & ->)];
    [split; assumption|].
  apply replace_line_items_frame in Hr as (_ & Hbuy & Hexp & _ & _ & Hitems).
  destruct (Hc id c Hid) as (Hcid & Hlt & Hok).
  unfold store_wf. cbn [fst]. rewrite remember_checkouts, remember_buyers. simpl. split.
  - rewrite length_alter. apply map_Forall_insert_2; [|exact Hc].
    repeat split; simpl.
    + rewrite Hexp. exact Hcid.
    + rewrite Hbuy. exact Hlt.
    + apply Hitems, Hok.
  - apply Forall_alter; [exact Hb|].
    intros b _. apply patch_buyer_ok.
Qed.

Lemma completeCheckout_wf (st : State) (now : Z) (key : option string) (id : string) :
  store_wf st -> store_wf (completeCheckout st now key id).1.
Proof.
  intros [Hc Hb]. unfold completeCheckout.
  destruct (checkouts st !! id) as [c|] eqn:Hid; [|split; assumption].
  destruct (expires_at c <? now).
  { split; simpl; [|exact Hb]. apply map_Forall_delete, Hc. }
  destruct (negb (is_ready (status c))); [split; assumption|].
  unfold store_wf. cbn [fst]. rewrite remember_checkouts, remember_buyers. simpl.
  split; [|exact Hb].
  apply map_Forall_insert_2; [|exact Hc].
  exact (Hc id c Hid).
Qed.

Lemma getCheckout_wf (st : State) (now : Z) (id : string) :
  store_wf st -> store_wf (getCheckout st now id).1.
Proof.
  intros [Hc Hb]. unfold getCheckout.
  destruct (checkouts st !! id) as [c|] eqn:Hid; [|split; assumption].
  destruct (expires_at c <? now); [|split; assumption].
  split; simpl; [|exact Hb]. apply map_Forall_delete, Hc.
Qed.

Lemma handleIdempotency_wf (st : State) (key : option string)
    (next : option string -> State * Response) :
  store_wf st -> (forall k, store_wf (next k).1) ->
  store_wf (handleIdempotency st key next).1.
Proof.
  intros Hst Hnext. unfold handleIdempotency.
  destruct key as [k|]; [|apply Hnext].
  destruct (str_nonempty k); [|apply Hnext].
  destruct (processedRequests st !! k); [exact Hst|apply Hnext].
Qed.

Lemma step_wf (st : State) (now : Z) (e : Event) :
  store_wf st -> store_wf (step st now e).
Proof.
  intros Hst. destruct e as [[key req|id|key id req|key id]| |]; simpl.
  - apply handleIdempotency_wf; [exact Hst|]. intros k. apply createCheckout_wf, Hst.
  - apply getCheckout_wf, Hst.
  - apply handleIdempotency_wf; [exact Hst|]. intros k. apply updateCheckout_wf, Hst.
  - apply handleIdempotency_wf; [exact Hst|]. intros k. apply completeCheckout_wf, Hst.
  - destruct Hst as [Hc Hb]. split; simpl; [|exact Hb].
    intros i x [Hx _]%map_lookup_filter_Some. exact (Hc i x Hx).
  - exact Hst.
Qed.

Lemma run_wf (evs : list (Z * Event)) (st : State) :
  store_wf st -> store_wf (run st evs).
Proof.
  revert st. induction evs as [|[now e] evs IH]; intros st Hst; simpl; [exact Hst|].
  apply IH, step_wf, Hst.
Qed.

Lemma initial_wf : store_wf initial.
Proof. split; [apply map_Forall_empty|constructor]. Qed.

Lemma reachable_wf (st : State) : reachable st -> store_wf st.
Proof. intros [evs <-]. apply run_wf, initial_wf. Qed.

(** ** Unknown products *)




(** ** Rejected updates *)

(** C5.  A [PUT] on a live checkout whose [line_items] member is present
    (truthy, the test the handler applies) but not structurally valid is
    answered with an invalid-request diagnostic and leaves the whole state,
    and so the stored checkout and its buyer, as it was. *)
Theorem invalid_update_changes_nothing (st : State) (now : Z) (key : option string)
    (id : string) (c : Checkout) (x : LineItemsField) (patch : option BuyerInput) :
  checkouts st !! id = Some c ->
  (expires_at c <? now) = false ->
  truthy_field (Some x) = true ->
  ~ structurally_valid x ->
  invalid_request (updateCheckout st now key id (mkUpdateBody (Some x) patch)).2
  /\ (updateCheckout st now key id (mkUpdateBody (Some x) patch)).1 = st.
Proof.
  intros Hc Hlive Ht Hbad.
  destruct (updateCheckout_live st now key id (mkUpdateBody (Some x) patch) c Hc Hlive)
    as [(x' & m & _ & _ & _ & ->)|(counter & c1 & Hr & _)].
  - split; [exists m|]; reflexivity.
  - exfalso. apply Hbad.
    destruct (replace_line_items_cases now (lineItemCounter st) (Some x) c)
      as [[Hf _]|[(x' & m & _ & _ & _ & Hthrow)
                 |(l & c' & mapped & Hx & Hne & Hl & _)]].
    + congruence.
    + cbn [up_line_items] in Hr. congruence.
    + injection Hx as ->. exists l. auto.
Qed.

Lemma quantity_101_invalid : ~ structurally_valid (LiArray [entry "1" 101]).
Proof.
  intros (l & [= <-] & _ & H).
  inversion H as [|? ? (r & pid & q & _ & _ & _ & Hq & _ & H100) _]; subst.
  simpl in Hq. injection Hq as <-.
  unfold Qle in H100. simpl in H100. lia.
Qed.

Lemma quantity_0_invalid : ~ structurally_valid (LiArray [entry "1" 0]).
Proof.
  intros (l & [= <-] & _ & H).
  inversion H as [|? ? (r & pid & q & _ & _ & _ & Hq & H1 & _) _]; subst.
  simpl in Hq. injection Hq as <-.
  unfold Qle in H1. simpl in H1. lia.
Qed.

Lemma invalid_update_changes_nothing_witness :
  invalid_request
    (updateCheckout st_roses 2000 None "chk_1000"
       (mkUpdateBody (Some (LiArray [entry "1" 101]))
          (Some (mkBuyerInput (Some "a@b.com") (Some "A B"))))).2
  /\ (updateCheckout st_roses 2000 None "chk_1000"
        (mkUpdateBody (Some (LiArray [entry "1" 101]))
           (Some (mkBuyerInput (Some "a@b.com") (Some "A B"))))).1 = st_roses.
Proof.
  eapply (invalid_update_changes_nothing st_roses 2000 None "chk_1000").
  - vm_compute. reflexivity.
  - reflexivity.
  - reflexivity.
  - apply quantity_101_invalid.
Defined.

(** ** Completing a checkout that is not ready *)

(** C6.  [POST .../complete] on a live checkout whose status is not
    [ready_for_complete] answers 400 with the current snapshot, its messages
    replaced by the single [not_ready] error, and leaves the whole state as
    it was: no order, no change of status, nothing removed. *)
Theorem complete_not_ready_changes_nothing (st : State) (now : Z)
    (key : option string) (id : string) (c : Checkout) :
  checkouts st !! id = Some c ->
  (expires_at c <? now) = false ->
  status c <> ready_for_complete ->
  completeCheckout st now key id
  = (st, mkResponse 400
           (CheckoutBody (with_messages [not_ready_message] (render (buyers st) c))))
  /\ m_code not_ready_message = "not_ready"
  /\ s_status (with_messages [not_ready_message] (render (buyers st) c)) = status c.
Proof.
  intros Hc Hlive Hs. unfold completeCheckout. rewrite Hc, Hlive.
  assert (Hn : negb (is_ready (status c)) = true)
    by (destruct (status c); try reflexivity; congruence).
  rewrite Hn. repeat split.
Qed.

Lemma complete_not_ready_changes_nothing_witness :
  exists c,
    checkouts st_completed !! "chk_1000" = Some c
    /\ status c = completed
    /\ (completeCheckout st_completed 3000 None "chk_1000").1 = st_completed.
Proof.
  eexists. split; [vm_compute; reflexivity|]. split; [reflexivity|].
  match goal with
  | |- (completeCheckout ?st ?now ?key ?id).1 = _ =>
      destruct (complete_not_ready_changes_nothing st now key id _
                  ltac:(vm_compute; reflexivity) eq_refl ltac:(discriminate))
        as [-> _]
  end.
  reflexivity.
Defined.

(** ** Status after create and update *)




Lemma determineStatus_values (b : option Buyer) (items : list LineItem) :
  determineStatus b items = ready_for_complete \/ determineStatus b items = incomplete.
Proof.
  unfold determineStatus.
  destruct (_ || _); [right; reflexivity|].
  destruct (_ =? _)%nat; [right|left]; reflexivity.
Qed.





(** ** Expired checkouts *)

Lemma chk_inj (a b : Z) : "chk_" +:+ pretty a = "chk_" +:+ pretty b -> a = b.
Proof. simpl. intros [= H]. apply (inj pretty). exact H. Qed.

Lemma createCheckout_absent (st : State) (now : Z) (key : option string)
    (req : CreateBody) (id : string) :
  checkouts st !! id = None -> "chk_" +:+ pretty now <> id ->
  checkouts (createCheckout st now key req).1 !! id = None.
Proof.
  intros Hid Hne.
  destruct (createCheckout_cases st now key req)
    as [(m & _ & ->)|(entries & counter & mapped & _ & _ & _ & _ & _ & ->)];
    [exact Hid|].
  cbn [fst]. rewrite remember_checkouts. simpl.
  rewrite lookup_insert_ne by exact Hne. exact Hid.
Qed.

Lemma getCheckout_absent (st : State) (now : Z) (id' id : string) :
  checkouts st !! id = None -> checkouts (getCheckout st now id').1 !! id = None.
Proof.
  intros Hid. unfold getCheckout.
  destruct (checkouts st !! id') as [c|] eqn:Hc; [|exact Hid].
  destruct (expires_at c <? now); [|exact Hid].
  simpl. rewrite lookup_delete_ne by congruence. exact Hid.
Qed.

Lemma updateCheckout_absent (st : State) (now : Z) (key : option string)
    (id' : string) (req : UpdateBody) (id : string) :
  checkouts st !! id = None ->
  checkouts (updateCheckout st now key id' req).1 !! id = None.
Proof.
  intros Hid.
  destruct (checkouts st !! id') as [c|] eqn:Hc;
    [|unfold updateCheckout; rewrite Hc; exact Hid].
  assert (Hne : id' <> id) by congruence.
  destruct (expires_at c <? now) eqn:Hlive.
  { unfold updateCheckout. rewrite Hc, Hlive. simpl.
    rewrite lookup_delete_ne by exact Hne. exact Hid. }
  destruct (updateCheckout_live st now key id' req c Hc Hlive)
    as [(x & m & _ & _ & _ & ->)|(counter & c1 & _ & ->)]; [exact Hid|].
  cbn [fst]. rewrite remember_checkouts. simpl.
  rewrite lookup_insert_ne by exact Hne. exact Hid.
Qed.

Lemma completeCheckout_absent (st : State) (now : Z) (key : option string)
    (id' id : string) :
  checkouts st !! id = None ->
  checkouts (completeCheckout st now key id').1 !! id = None.
Proof.
  intros Hid. unfold completeCheckout.
  destruct (checkouts st !! id') as [c|] eqn:Hc; [|exact Hid].
  assert (Hne : id' <> id) by congruence.
  destruct (expires_at c <? now).
  { simpl. rewrite lookup_delete_ne by exact Hne. exact Hid. }
  destruct (negb (is_ready (status c))); [exact Hid|].
  cbn [fst]. rewrite remember_checkouts. simpl.
  rewrite lookup_insert_ne by exact Hne. exact Hid.
Qed.

Lemma handleIdempotency_cases (st : State) (key : option string)
    (next : option string -> State * Response) :
  (exists k cached, key = Some k /\ str_nonempty k = true
      /\ processedRequests st !! k = Some cached
      /\ handleIdempotency st key next
         = (st, mkResponse 200 (CheckoutBody (render (buyers st) cached))))
  \/ ((forall k, key = Some k -> str_nonempty k = true -> processedRequests st !! k = None)
      /\ handleIdempotency st key next = next key).
Proof.
  unfold handleIdempotency.
  destruct key as [k|]; [|right; split; [discriminate|reflexivity]].
  destruct (str_nonempty k) eqn:Hk;
    [|right; split; [intros ? [= <-]; congruence|reflexivity]].
  destruct (processedRequests st !! k) as [cached|] eqn:Hp.
  - left. exists k, cached. auto.
  - right. split; [intros ? [= <-] _; exact Hp|reflexivity].
Qed.

(** An identifier that is free stays free as long as no checkout is created
    at the clock reading it names. *)
Lemma step_absent (st : State) (now : Z) (e : Event) (id : string) :
  checkouts st !! id = None -> "chk_" +:+ pretty now <> id ->
  checkouts (step st now e) !! id = None.
Proof.
  intros Hid Hne.
  destruct e as [[key req|id'|key id' req|key id']| |]; simpl.
  - destruct (handleIdempotency_cases st key (fun k => createCheckout st now k req))
      as [(k & cached & _ & _ & _ & ->)|[_ ->]]; [exact Hid|].
    apply createCheckout_absent; assumption.
  - apply getCheckout_absent, Hid.
  - destruct (handleIdempotency_cases st key (fun k => updateCheckout st now k id' req))
      as [(k & cached & _ & _ & _ & ->)|[_ ->]]; [exact Hid|].
    apply updateCheckout_absent, Hid.
  - destruct (handleIdempotency_cases st key (fun k => completeCheckout st now k id'))
      as [(k & cached & _ & _ & _ & ->)|[_ ->]]; [exact Hid|].
    apply completeCheckout_absent, Hid.
  - apply map_lookup_filter_None_2. left. exact Hid.
  - exact Hid.
Qed.

Lemma run_absent (evs : list (Z * Event)) (st : State) (id : string) :
  checkouts st !! id = None ->
  Forall (fun te => "chk_" +:+ pretty te.1 <> id) evs ->
  checkouts (run st evs) !! id = None.
Proof.
  revert st. induction evs as [|[now e] evs IH]; intros st Hid Hevs; simpl; [exact Hid|].
  inversion Hevs as [|? ? Hne Hrest]; subst.
  apply IH; [|exact Hrest]. apply step_absent; assumption.
Qed.

(** C3.  When the checkout stored under [id] expired strictly before [now],
    each of GET, PUT and complete at [now] deletes it and answers 404 with
    the code [expired], which is not the code [not_found] of a missing
    checkout.  From then on, whatever the server processes at clock readings
    not before [now], a GET of [id] answers [not_found]. *)
Theorem expired_checkout_evicted (st : State) (now : Z) (id : string) (c : Checkout) :
  reachable st ->
  checkouts st !! id = Some c ->
  expires_at c < now ->
  getCheckout st now id = (evict id st, expired)
  /\ (forall key req, updateCheckout st now key id req = (evict id st, expired))
  /\ (forall key, completeCheckout st now key id = (evict id st, expired))
  /\ checkouts (evict id st) !! id = None
  /\ http_status expired = 404 /\ codes expired = ["expired"]
  /\ codes not_found = ["not_found"] /\ codes expired <> codes not_found
  /\ (forall evs now',
        not_before now evs ->
        getCheckout (run (evict id st) evs) now' id
        = (run (evict id st) evs, not_found)).
Proof.
  intros Hwf%reachable_wf Hc Hexp.
  assert (Hlt : (expires_at c <? now) = true) by (apply Z.ltb_lt, Hexp).
  split; [unfold getCheckout; rewrite Hc, Hlt; reflexivity|].
  split; [intros key req; unfold updateCheckout; rewrite Hc, Hlt; reflexivity|].
  split; [intros key; unfold completeCheckout; rewrite Hc, Hlt; reflexivity|].
  assert (Hgone : checkouts (evict id st) !! id = None) by apply lookup_delete_eq.
  split; [exact Hgone|].
  do 4 (split; [reflexivity || discriminate|]).
  intros evs now' Hevs.
  destruct Hwf as [Hmap _].
  destruct (Hmap id c Hc) as (Hid & _).
  unfold getCheckout. rewrite run_absent; [reflexivity|exact Hgone|].
  eapply Forall_impl; [exact Hevs|].
  intros [t e] Ht Heq. simpl in Ht. cbn [fst] in Heq.
  rewrite Hid in Heq. apply chk_inj in Heq.
  unfold six_hours in Heq. lia.
Qed.

Lemma expired_checkout_evicted_witness :
  reachable st_roses
  /\ getCheckout st_roses 21601001 "chk_1000" = (evict "chk_1000" st_roses, expired).
Proof.
  assert (H : reachable st_roses).
  { exists [(1000, Call (POST_checkout None roses_no_buyer))]. reflexivity. }
  split; [exact H|].
  destruct (checkouts st_roses !! "chk_1000") as [c|] eqn:Hc; [|vm_compute in Hc; discriminate].
  assert (Hexp : expires_at c < 21601001).
  { vm_compute in Hc. injection Hc as <-. reflexivity. }
  exact (proj1 (expired_checkout_evicted st_roses 21601001 "chk_1000" c H Hc Hexp)).
Defined.

(** ** The idempotency records *)

Lemma remember_lookup (key : option string) (c : Checkout) (st : State) (k : string) :
  (forall k', key = Some k' -> str_nonempty k' = true -> k' <> k) ->
  processedRequests (remember key c st) !! k = processedRequests st !! k.
Proof.
  intros Hne. unfold remember.
  destruct key as [k'|]; [|reflexivity].
  destruct (str_nonempty k') eqn:Hk; [|reflexivity].
  simpl. apply lookup_insert_ne. apply Hne; auto.
Qed.

Lemma remember_recorded (k : string) (c : Checkout) (st : State) :
  str_nonempty k = true -> processedRequests (remember (Some k) c st) !! k = Some c.
Proof.
  intros Hk. unfold remember. rewrite Hk. simpl. apply lookup_insert_eq.
Qed.

Lemma createCheckout_records (st : State) (now : Z) (key : option string)
    (req : CreateBody) (k : string) :
  (forall k', key = Some k' -> str_nonempty k' = true -> k' <> k) ->
  processedRequests (createCheckout st now key req).1 !! k = processedRequests st !! k.
Proof.
  intros Hne.
  destruct (createCheckout_cases st now key req)
    as [(m & _ & ->)|(entries & counter & mapped & _ & _ & _ & _ & _ & ->)];
    [reflexivity|].
  cbn [fst]. rewrite remember_lookup by exact Hne. reflexivity.
Qed.

Lemma updateCheckout_records (st : State) (now : Z) (key : option string)
    (id : string) (req : UpdateBody) (k : string) :
  (forall k', key = Some k' -> str_nonempty k' = true -> k' <> k) ->
  processedRequests (updateCheckout st now key id req).1 !! k = processedRequests st !! k.
Proof.
  intros Hne.
  destruct (checkouts st !! id) as [c|] eqn:Hc;
    [|unfold updateCheckout; rewrite Hc; reflexivity].
  destruct (expires_at c <? now) eqn:Hlive;
    [unfold updateCheckout; rewrite Hc, Hlive; reflexivity|].
  destruct (updateCheckout_live st now key id req c Hc Hlive)
    as [(x & m & _ & _ & _ & ->)|(counter & c1 & _ & ->)]; [reflexivity|].
  cbn [fst]. rewrite remember_lookup by exact Hne. reflexivity.
Qed.

Lemma completeCheckout_records (st : State) (now : Z) (key : option string)
    (id : string) (k : string) :
  (forall k', key = Some k' -> str_nonempty k' = true -> k' <> k) ->
  processedRequests (completeCheckout st now key id).1 !! k = processedRequests st !! k.
Proof.
  intros Hne. unfold completeCheckout.
  destruct (checkouts st !! id) as [c|]; [|reflexivity].
  destruct (expires_at c <? now); [reflexivity|].
  destruct (negb (is_ready (status c))); [reflexivity|].
  cbn [fst]. rewrite remember_lookup by exact Hne. reflexivity.
Qed.

Lemma getCheckout_records (st : State) (now : Z) (id : string) :
  processedRequests (getCheckout st now id).1 = processedRequests st.
Proof.
  unfold getCheckout.
  destruct (checkouts st !! id) as [c|]; [|reflexivity].
  destruct (expires_at c <? now); reflexivity.
Qed.

(** A record stays as it is until the clearing timer fires. *)
Lemma step_keeps_record (st : State) (now : Z) (e : Event) (k : string) (r : Checkout) :
  processedRequests st !! k = Some r -> e <> ClearTimer ->
  processedRequests (step st now e) !! k = Some r.
Proof.
  intros Hk He.
  assert (Hfresh : forall key : option string,
             (forall k', key = Some k' -> str_nonempty k' = true ->
                         processedRequests st !! k' = None) ->
             forall k', key = Some k' -> str_nonempty k' = true -> k' <> k).
  { intros key Hnone k' Hkey Hne ->. rewrite (Hnone k Hkey Hne) in Hk. discriminate. }
  destruct e as [[key req|id|key id req|key id]| |]; simpl; [| | | |exact Hk|congruence].
  - destruct (handleIdempotency_cases st key (fun k => createCheckout st now k req))
      as [(k' & cached & _ & _ & _ & ->)|[Hnone ->]]; [exact Hk|].
    rewrite createCheckout_records; [exact Hk|apply Hfresh, Hnone].
  - rewrite getCheckout_records. exact Hk.
  - destruct (handleIdempotency_cases st key (fun k => updateCheckout st now k id req))
      as [(k' & cached & _ & _ & _ & ->)|[Hnone ->]]; [exact Hk|].
    rewrite updateCheckout_records; [exact Hk|apply Hfresh, Hnone].
  - destruct (handleIdempotency_cases st key (fun k => completeCheckout st now k id))
      as [(k' & cached & _ & _ & _ & ->)|[Hnone ->]]; [exact Hk|].
    rewrite completeCheckout_records; [exact Hk|apply Hfresh, Hnone].
Qed.

Lemma run_keeps_record (evs : list (Z * Event)) (st : State) (k : string) (r : Checkout) :
  processedRequests st !! k = Some r -> no_clear evs ->
  processedRequests (run st evs) !! k = Some r.
Proof.
  revert st. induction evs as [|[now e] evs IH]; intros st Hk Hevs; simpl; [exact Hk|].
  inversion Hevs as [|? ? He Hrest]; subst.
  apply IH; [|exact Hrest]. apply step_keeps_record; assumption.
Qed.

(** The middleware answers a recorded key itself. *)
Lemma handleIdempotency_replays (st : State) (k : string) (r : Checkout)
    (next : option string -> State * Response) :
  str_nonempty k = true -> processedRequests st !! k = Some r ->
  handleIdempotency st (Some k) next = (st, replayed st r).
Proof. intros Hk Hr. unfold handleIdempotency. rewrite Hk, Hr. reflexivity. Qed.

(** C10.  [processedRequests] is one map for the three mutating routes,
    keyed by the idempotency key alone.  Each of create, update and complete
    records the response object it sends under the key of the request; and
    once a key is recorded, then after any further events short of the
    clearing timer, a create, an update of any checkout or a complete of any
    checkout that presents the key is answered with the recorded response
    object and executes nothing: the state stays as it is. *)
Theorem recorded_key_answers_every_mutation (st : State) (k : string) (r : Checkout)
    (evs : list (Z * Event)) :
  str_nonempty k = true ->
  processedRequests st !! k = Some r ->
  no_clear evs ->
  processedRequests (run st evs) !! k = Some r
  /\ (forall now req,
        route (run st evs) now (POST_checkout (Some k) req)
        = (run st evs, replayed (run st evs) r))
  /\ (forall now id req,
        route (run st evs) now (PUT_checkout (Some k) id req)
        = (run st evs, replayed (run st evs) r))
  /\ (forall now id,
        route (run st evs) now (POST_complete (Some k) id)
        = (run st evs, replayed (run st evs) r))
  /\ (forall st0 now req,
        http_status (createCheckout st0 now (Some k) req).2 = 201 ->
        exists c, processedRequests (createCheckout st0 now (Some k) req).1 !! k = Some c
                  /\ (createCheckout st0 now (Some k) req).2
                     = mkResponse 201
                         (CheckoutBody (render (buyers (createCheckout st0 now (Some k) req).1) c)))
  /\ (forall st0 now id req,
        http_status (updateCheckout st0 now (Some k) id req).2 = 200 ->
        exists c, processedRequests (updateCheckout st0 now (Some k) id req).1 !! k = Some c
                  /\ (updateCheckout st0 now (Some k) id req).2
                     = replayed (updateCheckout st0 now (Some k) id req).1 c)
  /\ (forall st0 now id,
        http_status (completeCheckout st0 now (Some k) id).2 = 200 ->
        exists c, processedRequests (completeCheckout st0 now (Some k) id).1 !! k = Some c
                  /\ (completeCheckout st0 now (Some k) id).2
                     = replayed (completeCheckout st0 now (Some k) id).1 c).
Proof.
  intros Hk Hr Hevs.
  pose proof (run_keeps_record evs st k r Hr Hevs) as Hr'.
  split; [exact Hr'|].
  split; [intros; apply handleIdempotency_replays; assumption|].
  split; [intros; apply handleIdempotency_replays; assumption|].
  split; [intros; apply handleIdempotency_replays; assumption|].
  split; [|split].
  - intros st0 now req Hcode.
    destruct (createCheckout_cases st0 now (Some k) req)
      as [(m & _ & Hcr)|(entries & counter & mapped & _ & _ & _ & _ & _ & Hcr)];
      rewrite Hcr in *; [discriminate|].
    eexists. cbn [fst snd]. split; [apply remember_recorded, Hk|reflexivity].
  - intros st0 now id req Hcode.
    destruct (checkouts st0 !! id) as [c0|] eqn:Hid;
      [|unfold updateCheckout in Hcode; rewrite Hid in Hcode; discriminate].
    destruct (expires_at c0 <? now) eqn:Hlive;
      [unfold updateCheckout in Hcode; rewrite Hid, Hlive in Hcode; discriminate|].
    destruct (updateCheckout_live st0 now (Some k) id req c0 Hid Hlive)
      as [(x & m & _ & _ & _ & Hup)|(counter & c1 & _ & Hup)];
      rewrite Hup in *; [discriminate|].
    eexists. cbn [fst snd]. split; [apply remember_recorded, Hk|reflexivity].
  - intros st0 now id Hcode. unfold completeCheckout in *.
    destruct (checkouts st0 !! id) as [c0|]; [|discriminate].
    destruct (expires_at c0 <? now); [discriminate|].
    destruct (negb (is_ready (status c0))); [discriminate|].
    eexists. cbn [fst snd]. split; [apply remember_recorded, Hk|reflexivity].
Qed.

Lemma recorded_key_answers_every_mutation_witness :
  exists r,
    processedRequests first_call.1 !! "k1" = Some r
    /\ route st_patched 3000 (POST_complete (Some "k1") "chk_77")
       = (st_patched, replayed st_patched r).
Proof.
  eexists. split; [vm_compute; reflexivity|].
  refine (proj1 (proj2 (proj2 (proj2
            (recorded_key_answers_every_mutation first_call.1 "k1" _
               [(2000, Call (PUT_checkout None "chk_1000" add_buyer))]
               eq_refl _ _)))) 3000 "chk_77").
  - vm_compute. reflexivity.
  - repeat constructor; discriminate.
Defined.

(** C2: the replay of a recorded create after an update of the checkout.
    The middleware executes nothing, but the body it sends is not the body
    of the first call: the recorded response object shares its buyer object
    with the stored checkout, the update has assigned the email and the name
    into that object, and the replay serialises them next to the status and
    messages of the first call. *)
Theorem replay_after_update_differs :
  second_call.1 = st_patched
  /\ body second_call.2 <> body first_call.2
  /\ body_buyer first_call.2 = Some (mkBuyer None None)
  /\ body_buyer second_call.2 = Some (mkBuyer (Some "a@b.com") (Some "A B"))
  /\ body_status first_call.2 = incomplete
  /\ body_status second_call.2 = incomplete.
Proof.
  split; [vm_compute; reflexivity|].
  split; [vm_compute; intros H; discriminate H|].
  repeat split; vm_compute; reflexivity.
Qed.

(** ** Completed checkouts *)

Lemma createCheckout_other (st : State) (now : Z) (key : option string)
    (req : CreateBody) (id : string) :
  "chk_" +:+ pretty now <> id ->
  checkouts (createCheckout st now key req).1 !! id = checkouts st !! id.
Proof.
  intros Hne.
  destruct (createCheckout_cases st now key req)
    as [(m & _ & ->)|(entries & counter & mapped & _ & _ & _ & _ & _ & ->)];
    [reflexivity|].
  cbn [fst]. rewrite remember_checkouts. simpl.
  apply lookup_insert_ne, Hne.
Qed.

Lemma updateCheckout_other (st : State) (now : Z) (key : option string)
    (id' : string) (req : UpdateBody) (id : string) :
  id' <> id ->
  checkouts (updateCheckout st now key id' req).1 !! id = checkouts st !! id.
Proof.
  intros Hne.
  destruct (checkouts st !! id') as [c|] eqn:Hc;
    [|unfold updateCheckout; rewrite Hc; reflexivity].
  destruct (expires_at c <? now) eqn:Hlive.
  { unfold updateCheckout. rewrite Hc, Hlive. simpl. apply lookup_delete_ne, Hne. }
  destruct (updateCheckout_live st now key id' req c Hc Hlive)
    as [(x & m & _ & _ & _ & ->)|(counter & c1 & _ & ->)]; [reflexivity|].
  cbn [fst]. rewrite remember_checkouts. simpl.
  apply lookup_insert_ne, Hne.
Qed.

(** Events other than an update of [id] leave a completed checkout stored
    under [id] as it is, or remove it. *)
Lemma step_keeps_completed (st : State) (now : Z) (e : Event) (id : string)
    (c c' : Checkout) :
  checkouts st !! id = Some c ->
  status c = completed ->
  "chk_" +:+ pretty now <> id ->
  not_update_of id e ->
  checkouts (step st now e) !! id = Some c' -> c' = c.
Proof.
  intros Hc Hs Hne He.
  destruct e as [[key req|id'|key id' req|key id']| |]; simpl.
  - destruct (handleIdempotency_cases st key (fun k => createCheckout st now k req))
      as [(k & cached & _ & _ & _ & ->)|[_ ->]]; [simpl; congruence|].
    rewrite createCheckout_other by exact Hne. congruence.
  - unfold getCheckout.
    destruct (checkouts st !! id') as [c0|] eqn:Hc0; [|simpl; congruence].
    destruct (expires_at c0 <? now); [|simpl; congruence].
    simpl. destruct (decide (id' = id)) as [->|Hd].
    + rewrite lookup_delete_eq. discriminate.
    + rewrite lookup_delete_ne by exact Hd. congruence.
  - simpl in He.
    destruct (handleIdempotency_cases st key (fun k => updateCheckout st now k id' req))
      as [(k & cached & _ & _ & _ & ->)|[_ ->]]; [simpl; congruence|].
    rewrite updateCheckout_other by exact He. congruence.
  - destruct (handleIdempotency_cases st key (fun k => completeCheckout st now k id'))
      as [(k & cached & _ & _ & _ & ->)|[_ ->]]; [simpl; congruence|].
    unfold completeCheckout.
    destruct (checkouts st !! id') as [c0|] eqn:Hc0; [|simpl; congruence].
    destruct (decide (id' = id)) as [->|Hd].
    + assert (c0 = c) by congruence. subst c0.
      destruct (expires_at c <? now).
      * simpl. rewrite lookup_delete_eq. discriminate.
      * rewrite Hs. simpl. congruence.
    + destruct (expires_at c0 <? now).
      * simpl. rewrite lookup_delete_ne by exact Hd. congruence.
      * destruct (negb (is_ready (status c0))); [simpl; congruence|].
        cbn [fst]. rewrite remember_checkouts. simpl.
        rewrite lookup_insert_ne by exact Hd. congruence.
  - intros [Hl _]%map_lookup_filter_Some. congruence.
  - congruence.
Qed.

(** What holds of a completed checkout.  It stays completed (or is removed
    on expiry) under every event that is not an update of it and is
    processed after the clock reading of its creation: creates, reads,
    completes, updates of other checkouts and both timers.  A rejected
    update of it changes nothing either.  An accepted update of it stores
    the status [determineStatus] computes from its buyer and line items,
    which is [ready_for_complete] or [incomplete] and never [completed]. *)
Lemma completed_until_updated (st : State) (now : Z) (id : string) (c : Checkout) :
  reachable st ->
  checkouts st !! id = Some c ->
  status c = completed ->
  (forall e c',
      not_update_of id e ->
      expires_at c - six_hours < now ->
      checkouts (step st now e) !! id = Some c' -> status c' = completed)
  /\ (forall key req,
        http_status (updateCheckout st now key id req).2 <> 200 ->
        forall c', checkouts (updateCheckout st now key id req).1 !! id = Some c' ->
                   status c' = completed)
  /\ (forall key req,
        http_status (updateCheckout st now key id req).2 = 200 ->
        exists c',
          checkouts (updateCheckout st now key id req).1 !! id = Some c'
          /\ status c'
             = determineStatus
                 (buyers (updateCheckout st now key id req).1 !! buyer c')
                 (line_items c')
          /\ (status c' = ready_for_complete \/ status c' = incomplete)).
Proof.
  intros Hwf%reachable_wf Hc Hs.
  destruct Hwf as [Hmap _]. destruct (Hmap id c Hc) as (Hid & _).
  split; [|split].
  - intros e c' He Hnow Hc'.
    assert (Hne : "chk_" +:+ pretty now <> id).
    { rewrite Hid. intros Heq%chk_inj. lia. }
    rewrite (step_keeps_completed st now e id c c' Hc Hs Hne He Hc'). exact Hs.
  - intros key req Hcode c'.
    destruct (expires_at c <? now) eqn:Hlive.
    { unfold updateCheckout. rewrite Hc, Hlive. simpl.
      rewrite lookup_delete_eq. discriminate. }
    destruct (updateCheckout_live st now key id req c Hc Hlive)
      as [(x & m & _ & _ & _ & Hup)|(counter & c1 & _ & Hup)];
      rewrite Hup in *; [|exfalso; apply Hcode; reflexivity].
    cbn [fst]. congruence.
  - intros key req Hcode.
    destruct (expires_at c <? now) eqn:Hlive;
      [unfold updateCheckout in Hcode; rewrite Hc, Hlive in Hcode; discriminate|].
    destruct (updateCheckout_live st now key id req c Hc Hlive)
      as [(x & m & _ & _ & _ & Hup)|(counter & c1 & _ & Hup)];
      rewrite Hup in *; [discriminate|].
    eexists. cbn [fst]. rewrite remember_checkouts, remember_buyers. simpl.
    rewrite lookup_insert_eq. split; [reflexivity|]. split; [reflexivity|].
    simpl. apply determineStatus_values.
Qed.

Lemma st_completed_reachable : reachable st_completed.
Proof.
  exists [(1000, Call (POST_checkout None roses_with_buyer));
          (2000, Call (POST_complete None "chk_1000"))].
  reflexivity.
Qed.

(** C1: a checkout that [complete] has set to [completed] should keep that
    status under a later update.  It does not: [PUT] assigns
    [determineStatus(checkout)] whatever the status was, so that an update
    of a completed checkout, here one that submits nothing at all, stores
    [ready_for_complete] while the order assigned on completion stays in
    place. *)
Theorem completed_is_reopened_by_update :
  reachable st_completed
  /\ stored_status st_completed "chk_1000" = Some completed
  /\ stored_status
       (step st_completed 3000 (Call (PUT_checkout None "chk_1000" empty_update)))
       "chk_1000" = Some ready_for_complete
  /\ is_Some
       (stored_order
          (step st_completed 3000 (Call (PUT_checkout None "chk_1000" empty_update)))
          "chk_1000").
Proof.
  split; [apply st_completed_reachable|].
  split; [vm_compute; reflexivity|].
  split; [vm_compute; reflexivity|].
  vm_compute. eexists. reflexivity.
Qed.

(** * Further properties *)

(** ** What [createLineItem] builds *)

Lemma createLineItem_snapshot (now counter : Z) (pid : option string) (q : Q)
    (counter' : Z) (i : LineItem) :
  createLineItem now counter pid q = (counter', Some i) ->
  counter' = counter + 1
  /\ li_id i = line_item_id now (counter + 1)
  /\ exists p, find_product pid = Some p /\ snapshot_of p q i.
Proof.
  unfold createLineItem.
  destruct (find_product pid) as [p|] eqn:Hp; [|discriminate].
  intros [= <- <-]. split; [reflexivity|]. split; [reflexivity|].
  exists p. split; [reflexivity|]. repeat split.
Qed.

Lemma createLineItem_null (now counter : Z) (pid : option string) (q : Q)
    (counter' : Z) :
  createLineItem now counter pid q = (counter', None) -> counter' = counter.
Proof.
  unfold createLineItem.
  destruct (find_product pid); [discriminate|]. intros [= <-]. reflexivity.
Qed.

Lemma find_product_In (pid : option string) (p : Product) :
  find_product pid = Some p -> In p PRODUCTS.
Proof.
  destruct pid as [pid|]; unfold find_product; [|discriminate].
  intros H. apply find_some in H as [Hin _]. exact Hin.
Qed.

(** The cart a successful [.map(...).filter(...)] leaves: as many counter
    values are drawn as items are kept, the items are snapshots of catalogue
    products, and their identifiers are those of the values drawn. *)
Lemma map_createLineItem_items (now : Z) (l : list LineItemInput) :
  forall counter counter' mapped,
    map_createLineItem now counter l = (counter', Ok mapped) ->
    counter' = counter + Z.of_nat (length (filter_not_null mapped))
    /\ Forall from_catalog (filter_not_null mapped)
    /\ map li_id (filter_not_null mapped)
       = map (line_item_id now)
           (seqZ (counter + 1) (Z.of_nat (length (filter_not_null mapped)))).
Proof.
  induction l as [|li l IH]; intros counter counter' mapped; simpl.
  - intros [= <- <-]. change (filter_not_null []) with (@nil LineItem).
    cbn [length map Z.of_nat].
    split; [lia|]. split; [constructor|reflexivity].
  - unfold create_from_entry.
    destruct (in_item li) as [r|]; [|discriminate].
    destruct (in_quantity li) as [q|].
    + destruct (createLineItem now counter (ref_id r) q) as [c1 [i|]] eqn:Hcr.
      * apply createLineItem_snapshot in Hcr as (-> & Hid & p & Hp & Hsnap).
        destruct (map_createLineItem now (counter + 1) l) as [c2 [xs|m]] eqn:Hm;
          [|discriminate].
        intros [= <- <-].
        destruct (IH _ _ _ Hm) as (Hc & Hcat & Hids).
        change (filter_not_null (Some i :: xs)) with (i :: filter_not_null xs).
        cbn [length map]. split; [lia|]. split.
        -- constructor; [|exact Hcat].
           exists p. split; [eapply find_product_In, Hp|].
           destruct Hsnap as (? & Hq & ?). rewrite Hq. repeat split; assumption.
        -- rewrite seqZ_cons by lia. cbn [map]. f_equal; [exact Hid|].
           rewrite Hids. do 2 f_equal; lia.
      * apply createLineItem_null in Hcr as ->.
        destruct (map_createLineItem now counter l) as [c2 [xs|m]] eqn:Hm;
          [|discriminate].
        intros [= <- <-]. exact (IH _ _ _ Hm).
    + destruct (find_product (ref_id r)); [discriminate|].
      destruct (map_createLineItem now counter l) as [c2 [xs|m]] eqn:Hm;
        [|discriminate].
      intros [= <- <-]. exact (IH _ _ _ Hm).
Qed.

(** ** Soundness of the store *)

Lemma consecutive_ids_mono (counter counter' : Z) (items : list LineItem) :
  counter <= counter' -> consecutive_ids counter items -> consecutive_ids counter' items.
Proof.
  intros Hle (now & k & Hk & Hb & Hids). exists now, k. repeat split; auto. lia.
Qed.

Lemma status_in_step_frame (h h' : list Buyer) (c : Checkout) :
  h' !! buyer c = h !! buyer c -> status_in_step h c -> status_in_step h' c.
Proof. unfold status_in_step. intros ->. tauto. Qed.

Lemma checkout_sound_frame (h h' : list Buyer) (counter counter' : Z) (id : string)
    (c : Checkout) :
  h' !! buyer c = h !! buyer c -> counter <= counter' ->
  checkout_sound h counter id c -> checkout_sound h' counter' id c.
Proof.
  intros Hh Hc (Hid & Ht & Hcat & Hids & Hs).
  repeat split; auto.
  - eapply consecutive_ids_mono; eassumption.
  - eapply status_in_step_frame; eassumption.
Qed.

(** Removing checkouts keeps the store consistent. *)
Lemma store_consistent_shrink (st st' : State) :
  (forall id c, checkouts st' !! id = Some c -> checkouts st !! id = Some c) ->
  buyers st' = buyers st -> lineItemCounter st' = lineItemCounter st ->
  store_consistent st -> store_consistent st'.
Proof.
  intros Hsub Hb Hc (Hd & H0 & Hs). unfold store_consistent. rewrite Hb, Hc.
  split; [|split; [exact H0|]].
  - intros id1 id2 c1 c2 H1 H2. apply (Hd id1 id2 c1 c2); auto.
  - intros id c Hid. apply Hs, Hsub, Hid.
Qed.

(** Storing [c'] under [id] keeps the store consistent when [c'] is sound
    and the other checkouts keep their buyers. *)
Lemma store_consistent_insert (st st' : State) (id : string) (c' : Checkout) :
  checkouts st' = <[id := c']> (checkouts st) ->
  lineItemCounter st <= lineItemCounter st' ->
  (forall id2 c2, id2 <> id -> checkouts st !! id2 = Some c2 ->
                  buyer c2 <> buyer c'
                  /\ buyers st' !! buyer c2 = buyers st !! buyer c2) ->
  checkout_sound (buyers st') (lineItemCounter st') id c' ->
  store_consistent st -> store_consistent st'.
Proof.
  intros Hm Hc Hothers Hnew (Hd & H0 & Hs).
  unfold store_consistent, refs_distinct. rewrite Hm.
  split; [|split; [lia|]].
  - intros id1 id2 c1 c2 H1 H2 Hb.
    apply lookup_insert_Some in H1 as [[<- <-]|[Hn1 H1]];
      apply lookup_insert_Some in H2 as [[<- <-]|[Hn2 H2]].
    + reflexivity.
    + destruct (Hothers id2 c2 ltac:(congruence) H2) as [Hne _]. congruence.
    + destruct (Hothers id1 c1 ltac:(congruence) H1) as [Hne _]. congruence.
    + apply (Hd id1 id2 c1 c2); assumption.
  - intros id2 c2 [[<- <-]|[Hne H2]]%lookup_insert_Some; [exact Hnew|].
    destruct (Hothers id2 c2 ltac:(congruence) H2) as [_ Hh].
    eapply checkout_sound_frame; [exact Hh|exact Hc|]. apply Hs, H2.
Qed.

Lemma remember_counter (key : option string) (c : Checkout) (st : State) :
  lineItemCounter (remember key c st) = lineItemCounter st.
Proof. unfold remember. destruct key as [k|]; [destruct (str_nonempty k)|]; reflexivity. Qed.

Lemma createCheckout_consistent (st : State) (now : Z) (key : option string)
    (req : CreateBody) :
  store_wf st -> store_consistent st ->
  store_consistent (createCheckout st now key req).1.
Proof.
  intros [Hwf _] Hs.
  destruct (createCheckout_cases st now key req)
    as [(m & _ & ->)|(entries & counter & mapped & _ & _ & Hm & _ & _ & ->)];
    [exact Hs|].
  apply map_createLineItem_items in Hm as (Hcounter & Hcat & Hids).
  subst counter.
  destruct Hs as (Hd & H0 & Hall). cbn [fst].
  eapply (store_consistent_insert st _ ("chk_" +:+ pretty now)).
  - rewrite remember_checkouts. reflexivity.
  - rewrite remember_counter. simpl. lia.
  - intros id2 c2 _ H2. rewrite remember_buyers. simpl.
    destruct (Hwf id2 c2 H2) as (_ & Hlt & _).
    split; [lia|]. apply lookup_app_l, Hlt.
  - rewrite remember_buyers, remember_counter. simpl.
    split; [reflexivity|]. split; [reflexivity|]. split; [exact Hcat|]. split.
    + exists now, (lineItemCounter st). split; [exact H0|]. split; [|exact Hids].
      cbn [line_items new_checkout]. lia.
    + right. simpl. rewrite list_lookup_middle by reflexivity. split; reflexivity.
  - exact (conj Hd (conj H0 Hall)).
Qed.

Lemma replace_line_items_sound (now counter counter' : Z) (f : option LineItemsField)
    (c c1 : Checkout) :
  replace_line_items now counter f c = (counter', Ok c1) ->
  0 <= counter ->
  totals c = calculateTotals (line_items c) ->
  Forall from_catalog (line_items c) ->
  consecutive_ids counter (line_items c) ->
  counter <= counter'
  /\ totals c1 = calculateTotals (line_items c1)
  /\ Forall from_catalog (line_items c1)
  /\ consecutive_ids counter' (line_items c1).
Proof.
  intros Hr H0 Ht Hcat Hids.
  destruct (replace_line_items_cases now counter f c)
    as [[_ Hr']|[(x & m & _ & _ & _ & Hr')
               |(l & c' & mapped & _ & _ & _ & Hm & _ & _ & Hr')]];
    rewrite Hr' in Hr.
  - injection Hr as <- <-. repeat split; auto. lia.
  - discriminate.
  - injection Hr as <- <-.
    apply map_createLineItem_items in Hm as (Hcounter & Hcat' & Hids').
    subst c'.
    split; [lia|]. split; [reflexivity|]. split; [exact Hcat'|].
    exists now, counter. split; [exact H0|]. split; [simpl; lia|exact Hids'].
Qed.

Lemma updateCheckout_consistent (st : State) (now : Z) (key : option string)
    (id : string) (req : UpdateBody) :
  store_consistent st -> store_consistent (updateCheckout st now key id req).1.
Proof.
  intros Hs.
  destruct (checkouts st !! id) as [c|] eqn:Hid;
    [|unfold updateCheckout; rewrite Hid; exact Hs].
  destruct (expires_at c <? now) eqn:Hlive.
  { unfold updateCheckout. rewrite Hid, Hlive. cbn [fst].
    apply (store_consistent_shrink st); [|reflexivity|reflexivity|exact Hs].
    intros id' c' H. simpl in H. apply lookup_delete_Some in H as [_ H]. exact H. }
  destruct (updateCheckout_live st now key id req c Hid Hlive)
    as [(x & m & _ & _ & _ & ->)|(counter & c1 & Hr & ->)]; [exact Hs|].
  pose proof Hs as (Hd & H0 & Hall).
  destruct (Hall id c Hid) as (Hcid & Ht & Hcat & Hids & _).
  pose proof (replace_line_items_frame _ _ _ _ _ _ Hr) as (Hid1 & Hb1 & _).
  destruct (replace_line_items_sound _ _ _ _ _ _ Hr H0 Ht Hcat Hids)
    as (Hle & Ht1 & Hcat1 & Hids1).
  cbn [fst].
  eapply (store_consistent_insert st _ id).
  - rewrite remember_checkouts. reflexivity.
  - rewrite remember_counter. simpl. exact Hle.
  - intros id2 c2 Hne H2. rewrite remember_buyers. simpl.
    assert (Hb : buyer c2 <> buyer c).
    { intros Heq. apply Hne. apply (Hd id2 id c2 c H2 Hid Heq). }
    rewrite Hb1. split; [exact Hb|]. apply list_lookup_alter_ne. congruence.
  - rewrite remember_buyers, remember_counter. simpl.
    split; [simpl; rewrite Hid1; exact Hcid|]. split; [exact Ht1|]. split; [exact Hcat1|].
    split; [exact Hids1|]. right. split; reflexivity.
  - exact Hs.
Qed.

Lemma completeCheckout_consistent (st : State) (now : Z) (key : option string)
    (id : string) :
  store_consistent st -> store_consistent (completeCheckout st now key id).1.
Proof.
  intros Hs. unfold completeCheckout.
  destruct (checkouts st !! id) as [c|] eqn:Hid; [|exact Hs].
  destruct (expires_at c <? now).
  { cbn [fst].
    apply (store_consistent_shrink st); [|reflexivity|reflexivity|exact Hs].
    intros id' c' H. simpl in H. apply lookup_delete_Some in H as [_ H]. exact H. }
  destruct (negb (is_ready (status c))); [exact Hs|].
  pose proof Hs as (Hd & H0 & Hall).
  destruct (Hall id c Hid) as (Hcid & Ht & Hcat & Hids & _).
  cbn [fst].
  eapply (store_consistent_insert st _ id).
  - rewrite remember_checkouts. reflexivity.
  - rewrite remember_counter. simpl. lia.
  - intros id2 c2 Hne H2. rewrite remember_buyers. simpl.
    split; [|reflexivity].
    intros Heq. apply Hne. apply (Hd id2 id c2 c H2 Hid Heq).
  - rewrite remember_buyers, remember_counter. simpl.
    split; [exact Hcid|]. split; [exact Ht|]. split; [exact Hcat|].
    split; [exact Hids|]. left. simpl. split; [reflexivity|]. split; [eexists|]; reflexivity.
  - exact Hs.
Qed.

Lemma getCheckout_consistent (st : State) (now : Z) (id : string) :
  store_consistent st -> store_consistent (getCheckout st now id).1.
Proof.
  intros Hs. unfold getCheckout.
  destruct (checkouts st !! id) as [c|]; [|exact Hs].
  destruct (expires_at c <? now); [|exact Hs].
  cbn [fst].
  apply (store_consistent_shrink st); [|reflexivity|reflexivity|exact Hs].
  intros id' c' H. simpl in H. apply lookup_delete_Some in H as [_ H]. exact H.
Qed.

Lemma step_consistent (st : State) (now : Z) (e : Event) :
  store_wf st -> store_consistent st -> store_consistent (step st now e).
Proof.
  intros Hwf Hs.
  destruct e as [[key req|id|key id req|key id]| |]; simpl.
  - destruct (handleIdempotency_cases st key (fun k => createCheckout st now k req))
      as [(k & cached & _ & _ & _ & ->)|[_ ->]]; [exact Hs|].
    apply createCheckout_consistent; assumption.
  - apply getCheckout_consistent, Hs.
  - destruct (handleIdempotency_cases st key (fun k => updateCheckout st now k id req))
      as [(k & cached & _ & _ & _ & ->)|[_ ->]]; [exact Hs|].
    apply updateCheckout_consistent, Hs.
  - destruct (handleIdempotency_cases st key (fun k => completeCheckout st now k id))
      as [(k & cached & _ & _ & _ & ->)|[_ ->]]; [exact Hs|].
    apply completeCheckout_consistent, Hs.
  - apply (store_consistent_shrink st); [|reflexivity|reflexivity|exact Hs].
    intros id' c' H. simpl in H. apply map_lookup_filter_Some in H as [H _]. exact H.
  - apply (store_consistent_shrink st); [|reflexivity|reflexivity|exact Hs].
    intros id' c' H. exact H.
Qed.

Lemma step_sound (st : State) (now : Z) (e : Event) :
  store_sound st -> store_sound (step st now e).
Proof.
  intros (Hwf & Hs).
  split; [apply step_wf, Hwf|apply step_consistent; assumption].
Qed.

Lemma run_sound (evs : list (Z * Event)) (st : State) :
  store_sound st -> store_sound (run st evs).
Proof.
  revert st. induction evs as [|[now e] evs IH]; intros st Hst; simpl; [exact Hst|].
  apply IH, step_sound, Hst.
Qed.

Lemma initial_sound : store_sound initial.
Proof.
  split; [apply initial_wf|].
  split; [intros id1 id2 c1 c2 H; simpl in H; rewrite lookup_empty in H; discriminate|].
  split; [reflexivity|apply map_Forall_empty].
Qed.

Lemma reachable_sound (st : State) : reachable st -> store_sound st.
Proof. intros [evs <-]. apply run_sound, initial_sound. Qed.

(** ** Invariants of reachable stores *)

(** X1.  In every reachable state the totals of a stored checkout are the
    ones [calculateTotals] gives for the line items stored with them: no
    request leaves line items and totals out of step. *)
Theorem stored_totals_match_line_items (st : State) (id : string) (c : Checkout) :
  reachable st ->
  checkouts st !! id = Some c ->
  totals c = calculateTotals (line_items c).
Proof.
  intros (_ & _ & _ & Hall)%reachable_sound Hc.
  destruct (Hall id c Hc) as (_ & Ht & _). exact Ht.
Qed.

Lemma st_roses_reachable : reachable st_roses.
Proof. exists [(1000, Call (POST_checkout None roses_no_buyer))]. reflexivity. Qed.

Lemma stored_totals_match_line_items_witness :
  exists c,
    checkouts st_roses !! "chk_1000" = Some c
    /\ totals c = calculateTotals (line_items c).
Proof.
  destruct (checkouts st_roses !! "chk_1000") as [c|] eqn:Hc;
    [|vm_compute in Hc; discriminate].
  exists c. split; [reflexivity|].
  exact (stored_totals_match_line_items st_roses "chk_1000" c st_roses_reachable Hc).
Defined.

(** X2.  Every stored line item is a snapshot of a catalogue product: its
    [item] carries the identifier, name and price of that product, and its
    own [totals] is the single subtotal price times quantity. *)
Theorem stored_items_are_catalog_snapshots (st : State) (id : string) (c : Checkout)
    (i : LineItem) :
  reachable st ->
  checkouts st !! id = Some c ->
  i ∈ line_items c ->
  exists p,
    In p PRODUCTS
    /\ li_item i = mkItem (p_id p) (p_name p) (p_price p)
    /\ li_totals i = [mkTotal "subtotal" (inject_Z (p_price p) * li_quantity i)%Q None].
Proof.
  intros (_ & _ & _ & Hall)%reachable_sound Hc Hi.
  destruct (Hall id c Hc) as (_ & _ & Hcat & _).
  rewrite Forall_forall in Hcat.
  destruct (Hcat i Hi) as (p & Hp & Hitem & _ & Htot).
  exists p. repeat split; assumption.
Qed.

Lemma stored_items_are_catalog_snapshots_witness :
  exists c i p,
    checkouts st_roses !! "chk_1000" = Some c
    /\ i ∈ line_items c
    /\ In p PRODUCTS
    /\ li_item i = mkItem (p_id p) (p_name p) (p_price p).
Proof.
  destruct (checkouts st_roses !! "chk_1000") as [c|] eqn:Hc;
    [|vm_compute in Hc; discriminate].
  assert (Hi : twelve_roses ∈ line_items c).
  { vm_compute in Hc. injection Hc as <-. apply list_elem_of_here. }
  destruct (stored_items_are_catalog_snapshots st_roses "chk_1000" c twelve_roses
              st_roses_reachable Hc Hi) as (p & Hp & Hitem & _).
  exists c, twelve_roses, p. repeat split; assumption.
Defined.

(** X3.  A stored checkout whose status is [completed] has an order and
    carries the single confirmation message; and no stored checkout ever has
    the status [canceled], which only error bodies show. *)
Theorem completed_has_order_and_confirmation (st : State) (id : string) (c : Checkout) :
  reachable st ->
  checkouts st !! id = Some c ->
  status c <> canceled
  /\ (status c = completed ->
      is_Some (order c) /\ messages c = [order_confirmed_message]).
Proof.
  intros (_ & _ & _ & Hall)%reachable_sound Hc.
  destruct (Hall id c Hc) as (_ & _ & _ & _ & [(Hs & Ho & Hm)|(Hs & Hm)]).
  - split; [congruence|]. intros _. split; assumption.
  - destruct (determineStatus_values (buyers st !! buyer c) (line_items c)) as [Hv|Hv];
      rewrite Hv in Hs; split; congruence.
Qed.

Lemma completed_has_order_and_confirmation_witness :
  exists c,
    checkouts st_completed !! "chk_1000" = Some c
    /\ status c = completed
    /\ is_Some (order c).
Proof.
  destruct (checkouts st_completed !! "chk_1000") as [c|] eqn:Hc;
    [|vm_compute in Hc; discriminate].
  assert (Hs : status c = completed).
  { vm_compute in Hc. injection Hc as <-. reflexivity. }
  exists c. split; [reflexivity|]. split; [exact Hs|].
  exact (proj1 (proj2 (completed_has_order_and_confirmation st_completed "chk_1000" c
                         st_completed_reachable Hc) Hs)).
Defined.








(** ** Reads *)

Lemma getCheckout_live (st : State) (now : Z) (id : string) (c : Checkout) :
  checkouts st !! id = Some c -> (expires_at c <? now) = false ->
  getCheckout st now id = (st, mkResponse 200 (CheckoutBody (render (buyers st) c))).
Proof. intros Hc Hl. unfold getCheckout. rewrite Hc, Hl. reflexivity. Qed.

(** X7.  A read returns what the last accepted mutation sent: after a
    create (201), an update (200) or a completion (200), a GET of the same
    identifier before the expiry answers 200 with exactly the body of that
    response, and changes nothing. *)
Theorem get_returns_last_response (st : State) (now now' : Z) (key : option string) :
  (forall req,
      http_status (createCheckout st now key req).2 = 201 ->
      now' <= now + six_hours ->
      getCheckout (createCheckout st now key req).1 now' ("chk_" +:+ pretty now)
      = ((createCheckout st now key req).1,
         mkResponse 200 (body (createCheckout st now key req).2)))
  /\ (forall id req c,
        checkouts st !! id = Some c ->
        http_status (updateCheckout st now key id req).2 = 200 ->
        now' <= expires_at c ->
        getCheckout (updateCheckout st now key id req).1 now' id
        = ((updateCheckout st now key id req).1,
           mkResponse 200 (body (updateCheckout st now key id req).2)))
  /\ (forall id c,
        checkouts st !! id = Some c ->
        http_status (completeCheckout st now key id).2 = 200 ->
        now' <= expires_at c ->
        getCheckout (completeCheckout st now key id).1 now' id
        = ((completeCheckout st now key id).1,
           mkResponse 200 (body (completeCheckout st now key id).2))).
Proof.
  split; [|split].
  - intros req Hcode Hnow.
    destruct (createCheckout_cases st now key req)
      as [(m & _ & Hcr)|(entries & counter & mapped & _ & _ & _ & _ & _ & Hcr)];
      rewrite Hcr in *; [discriminate|].
    cbn [fst snd body]. erewrite getCheckout_live; [reflexivity| |].
    + rewrite remember_checkouts. simpl. apply lookup_insert_eq.
    + simpl. apply Z.ltb_ge. exact Hnow.
  - intros id req c Hc Hcode Hnow.
    destruct (expires_at c <? now) eqn:Hlive;
      [unfold updateCheckout in Hcode; rewrite Hc, Hlive in Hcode; discriminate|].
    destruct (updateCheckout_live st now key id req c Hc Hlive)
      as [(x & m & _ & _ & _ & Hup)|(counter & c1 & Hr & Hup)];
      rewrite Hup in *; [discriminate|].
    apply replace_line_items_frame in Hr as (_ & _ & Hexp & _).
    cbn [fst snd body]. erewrite getCheckout_live; [reflexivity| |].
    + rewrite remember_checkouts. simpl. apply lookup_insert_eq.
    + simpl. rewrite Hexp. apply Z.ltb_ge. exact Hnow.
  - intros id c Hc Hcode Hnow. unfold completeCheckout in *. rewrite Hc in *.
    destruct (expires_at c <? now); [discriminate|].
    destruct (negb (is_ready (status c))); [discriminate|].
    cbn [fst snd body]. erewrite getCheckout_live; [reflexivity| |].
    + rewrite remember_checkouts. simpl. apply lookup_insert_eq.
    + simpl. apply Z.ltb_ge. exact Hnow.
Qed.

Lemma get_returns_last_response_witness :
  getCheckout (createCheckout initial 1000 None roses_no_buyer).1 5000 "chk_1000"
  = ((createCheckout initial 1000 None roses_no_buyer).1,
     mkResponse 200 (body (createCheckout initial 1000 None roses_no_buyer).2)).
Proof.
  apply (proj1 (get_returns_last_response initial 1000 5000 None) roses_no_buyer).
  - reflexivity.
  - vm_compute. discriminate.
Defined.

(** ** Completion *)

(** X8.  Completing a live checkout that is [ready_for_complete] answers
    200 and stores it as [completed] with the order [ORD_<now>], its
    permalink and the single confirmation message; line items, totals,
    buyer, currency and expiry stay as they were.  A second completion
    (before the expiry, whatever its key) is rejected with [not_ready] and
    changes nothing: the order placed first stays. *)
Theorem complete_places_one_order (st : State) (now : Z) (key : option string)
    (id : string) (c : Checkout) :
  checkouts st !! id = Some c ->
  (expires_at c <? now) = false ->
  status c = ready_for_complete ->
  exists c',
    http_status (completeCheckout st now key id).2 = 200
    /\ checkouts (completeCheckout st now key id).1 !! id = Some c'
    /\ status c' = completed
    /\ order c' = Some (mkOrder ("ORD_" +:+ pretty now)
                          ("http://localhost:3000/orders/ORD_" +:+ pretty now))
    /\ messages c' = [order_confirmed_message]
    /\ line_items c' = line_items c /\ totals c' = totals c
    /\ buyer c' = buyer c /\ currency c' = currency c
    /\ expires_at c' = expires_at c
    /\ buyers (completeCheckout st now key id).1 = buyers st
    /\ (forall now2 key2,
          (expires_at c <? now2) = false ->
          completeCheckout (completeCheckout st now key id).1 now2 key2 id
          = ((completeCheckout st now key id).1,
             mkResponse 400
               (CheckoutBody (with_messages [not_ready_message]
                                (render (buyers st) c'))))).
Proof.
  intros Hc Hlive Hs. exists (placed now c).
  assert (Hdone : completeCheckout st now key id
                  = (remember key (placed now c)
                       (set_checkouts (insert id (placed now c)) st),
                     mkResponse 200
                       (CheckoutBody
                          (render
                             (buyers (remember key (placed now c)
                                        (set_checkouts (insert id (placed now c)) st)))
                             (placed now c))))).
  { unfold completeCheckout. rewrite Hc, Hlive, Hs. reflexivity. }
  rewrite Hdone. cbn [fst snd http_status].
  assert (Hstored : checkouts (remember key (placed now c)
                                 (set_checkouts (insert id (placed now c)) st))
                    !! id = Some (placed now c)).
  { rewrite remember_checkouts. simpl. apply lookup_insert_eq. }
  rewrite remember_buyers.
  split; [reflexivity|]. split; [exact Hstored|].
  do 9 (split; [reflexivity|]).
  intros now2 key2 Hlive2.
  unfold completeCheckout. rewrite Hstored.
  cbn [expires_at placed]. rewrite Hlive2. cbn [status is_ready negb].
  rewrite remember_buyers. reflexivity.
Qed.

Lemma complete_places_one_order_witness :
  exists c',
    checkouts (completeCheckout st_ready 2000 None "chk_1000").1 !! "chk_1000" = Some c'
    /\ status c' = completed.
Proof.
  destruct (checkouts st_ready !! "chk_1000") as [c|] eqn:Hc;
    [|vm_compute in Hc; discriminate].
  assert (Hs : status c = ready_for_complete /\ (expires_at c <? 2000) = false).
  { vm_compute in Hc. injection Hc as <-. split; reflexivity. }
  destruct (complete_places_one_order st_ready 2000 None "chk_1000" c Hc
              (proj2 Hs) (proj1 Hs)) as (c' & _ & Hc' & Hst & _).
  exists c'. split; assumption.
Defined.

(** ** What is recorded for idempotency *)

Lemma remember_falsy (key : option string) (c : Checkout) (st : State) :
  truthy_str key = false -> remember key c st = st.
Proof.
  unfold remember. destruct key as [k|]; simpl; [|reflexivity].
  intros ->. reflexivity.
Qed.

Lemma createCheckout_unrecorded (st : State) (now : Z) (key : option string)
    (req : CreateBody) :
  400 <= http_status (createCheckout st now key req).2 \/ truthy_str key = false ->
  processedRequests (createCheckout st now key req).1 = processedRequests st.
Proof.
  destruct (createCheckout_cases st now key req)
    as [(m & _ & ->)|(entries & counter & mapped & _ & _ & _ & _ & _ & ->)];
    [reflexivity|].
  cbn [fst snd http_status]. intros [H|H]; [lia|].
  rewrite remember_falsy by exact H. reflexivity.
Qed.

Lemma updateCheckout_unrecorded (st : State) (now : Z) (key : option string)
    (id : string) (req : UpdateBody) :
  400 <= http_status (updateCheckout st now key id req).2 \/ truthy_str key = false ->
  processedRequests (updateCheckout st now key id req).1 = processedRequests st.
Proof.
  destruct (checkouts st !! id) as [c|] eqn:Hc;
    [|unfold updateCheckout; rewrite Hc; reflexivity].
  destruct (expires_at c <? now) eqn:Hlive;
    [unfold updateCheckout; rewrite Hc, Hlive; reflexivity|].
  destruct (updateCheckout_live st now key id req c Hc Hlive)
    as [(x & m & _ & _ & _ & ->)|(counter & c1 & _ & ->)]; [reflexivity|].
  cbn [fst snd http_status]. intros [H|H]; [lia|].
  rewrite remember_falsy by exact H. reflexivity.
Qed.

Lemma completeCheckout_unrecorded (st : State) (now : Z) (key : option string)
    (id : string) :
  400 <= http_status (completeCheckout st now key id).2 \/ truthy_str key = false ->
  processedRequests (completeCheckout st now key id).1 = processedRequests st.
Proof.
  unfold completeCheckout.
  destruct (checkouts st !! id) as [c|]; [|reflexivity].
  destruct (expires_at c <? now); [reflexivity|].
  destruct (negb (is_ready (status c))); [reflexivity|].
  cbn [fst snd http_status]. intros [H|H]; [lia|].
  rewrite remember_falsy by exact H. reflexivity.
Qed.

(** X9.  Only successes of keyed calls are recorded.  A request that is
    answered with an error (400 or 404), and any request without a key or
    with an empty key, leaves [processedRequests] as it was; so the retry of
    a failed call under the same key is executed again, not replayed. *)
Theorem failed_calls_are_not_recorded (st : State) (now : Z) (r : Request) :
  400 <= http_status (route st now r).2 \/ truthy_str (request_key r) = false ->
  processedRequests (route st now r).1 = processedRequests st.
Proof.
  destruct r as [key req|id|key id req|key id]; simpl.
  - destruct (handleIdempotency_cases st key (fun k => createCheckout st now k req))
      as [(k & cached & _ & _ & _ & ->)|[_ ->]]; [reflexivity|].
    apply createCheckout_unrecorded.
  - intros _. apply getCheckout_records.
  - destruct (handleIdempotency_cases st key (fun k => updateCheckout st now k id req))
      as [(k & cached & _ & _ & _ & ->)|[_ ->]]; [reflexivity|].
    apply updateCheckout_unrecorded.
  - destruct (handleIdempotency_cases st key (fun k => completeCheckout st now k id))
      as [(k & cached & _ & _ & _ & ->)|[_ ->]]; [reflexivity|].
    apply completeCheckout_unrecorded.
Qed.

Lemma failed_calls_are_not_recorded_witness :
  400 <= http_status
           (route st_roses 2000 (POST_complete (Some "k9") "chk_1000")).2
  /\ processedRequests (route st_roses 2000 (POST_complete (Some "k9") "chk_1000")).1
       !! "k9" = None.
Proof.
  assert (H : 400 <= http_status
                       (route st_roses 2000 (POST_complete (Some "k9") "chk_1000")).2).
  { vm_compute. discriminate. }
  split; [exact H|].
  rewrite (failed_calls_are_not_recorded st_roses 2000
             (POST_complete (Some "k9") "chk_1000") (or_introl H)).
  reflexivity.
Defined.

(** ** Replays when the buyer object is left alone *)

(** Where the checkouts of the next state come from: a checkout found under
    [id] after a step either has the buyer reference of the one stored under
    [id] before, or the reference of a freshly allocated buyer. *)
Lemma step_refs (st : State) (now : Z) (e : Event) (id : string) (c' : Checkout) :
  checkouts (step st now e) !! id = Some c' ->
  (exists c, checkouts st !! id = Some c /\ buyer c' = buyer c)
  \/ buyer c' = length (buyers st).
Proof.
  assert (Hsame : forall c0, checkouts st !! id = Some c0 ->
            (exists c, checkouts st !! id = Some c /\ buyer c0 = buyer c)
            \/ buyer c0 = length (buyers st)) by (intros c0 H; left; eauto).
  destruct e as [[key req|id'|key id' req|key id']| |]; simpl.
  - destruct (handleIdempotency_cases st key (fun k => createCheckout st now k req))
      as [(k & cached & _ & _ & _ & ->)|[_ ->]]; [apply Hsame|].
    destruct (createCheckout_cases st now key req)
      as [(m & _ & ->)|(entries & counter & mapped & _ & _ & _ & _ & _ & ->)];
      [apply Hsame|].
    cbn [fst]. rewrite remember_checkouts. simpl.
    intros [[_ <-]|[_ H]]%lookup_insert_Some; [right; reflexivity|apply Hsame, H].
  - unfold getCheckout.
    destruct (checkouts st !! id') as [c0|]; [|apply Hsame].
    destruct (expires_at c0 <? now); [|apply Hsame].
    simpl. intros [_ H]%lookup_delete_Some. apply Hsame, H.
  - destruct (handleIdempotency_cases st key (fun k => updateCheckout st now k id' req))
      as [(k & cached & _ & _ & _ & ->)|[_ ->]]; [apply Hsame|].
    destruct (checkouts st !! id') as [c0|] eqn:Hc0;
      [|unfold updateCheckout; rewrite Hc0; apply Hsame].
    destruct (expires_at c0 <? now) eqn:Hlive.
    { unfold updateCheckout. rewrite Hc0, Hlive. simpl.
      intros [_ H]%lookup_delete_Some. apply Hsame, H. }
    destruct (updateCheckout_live st now key id' req c0 Hc0 Hlive)
      as [(x & m & _ & _ & _ & ->)|(counter & c1 & Hr & ->)]; [apply Hsame|].
    apply replace_line_items_frame in Hr as (_ & Hb & _).
    cbn [fst]. rewrite remember_checkouts. simpl.
    intros [[<- <-]|[_ H]]%lookup_insert_Some; [|apply Hsame, H].
    left. exists c0. split; [exact Hc0|]. simpl. exact Hb.
  - destruct (handleIdempotency_cases st key (fun k => completeCheckout st now k id'))
      as [(k & cached & _ & _ & _ & ->)|[_ ->]]; [apply Hsame|].
    unfold completeCheckout.
    destruct (checkouts st !! id') as [c0|] eqn:Hc0; [|apply Hsame].
    destruct (expires_at c0 <? now).
    { simpl. intros [_ H]%lookup_delete_Some. apply Hsame, H. }
    destruct (negb (is_ready (status c0))); [apply Hsame|].
    cbn [fst]. rewrite remember_checkouts. simpl.
    intros [[<- <-]|[_ H]]%lookup_insert_Some; [|apply Hsame, H].
    left. exists c0. split; [exact Hc0|reflexivity].
  - intros [H _]%map_lookup_filter_Some. apply Hsame, H.
  - apply Hsame.
Qed.

(** The heap only grows, and only a [PUT] that is executed on a stored
    checkout assigns into a buyer: the one that checkout refers to. *)
Lemma step_buyers (st : State) (now : Z) (e : Event) (ref : nat) :
  (ref < length (buyers st))%nat ->
  (ref < length (buyers (step st now e)))%nat
  /\ (buyers (step st now e) !! ref = buyers st !! ref
      \/ exists key id req c,
           e = Call (PUT_checkout key id req)
           /\ checkouts st !! id = Some c /\ buyer c = ref).
Proof.
  intros Hlt.
  assert (Hsame : (ref < length (buyers st))%nat
                  /\ (buyers st !! ref = buyers st !! ref
                      \/ exists key id req c,
                           e = Call (PUT_checkout key id req)
                           /\ checkouts st !! id = Some c /\ buyer c = ref))
    by (split; [exact Hlt|left; reflexivity]).
  destruct e as [[key req|id'|key id' req|key id']| |]; simpl.
  - destruct (handleIdempotency_cases st key (fun k => createCheckout st now k req))
      as [(k & cached & _ & _ & _ & ->)|[_ ->]]; [exact Hsame|].
    destruct (createCheckout_cases st now key req)
      as [(m & _ & ->)|(entries & counter & mapped & _ & _ & _ & _ & _ & ->)];
      [exact Hsame|].
    cbn [fst]. rewrite remember_buyers. simpl. rewrite length_app.
    split; [lia|]. left. apply lookup_app_l, Hlt.
  - unfold getCheckout.
    destruct (checkouts st !! id') as [c0|]; [|exact Hsame].
    destruct (expires_at c0 <? now); exact Hsame.
  - destruct (handleIdempotency_cases st key (fun k => updateCheckout st now k id' req))
      as [(k & cached & _ & _ & _ & ->)|[_ ->]]; [tauto|].
    destruct (checkouts st !! id') as [c0|] eqn:Hc0;
      [|unfold updateCheckout; rewrite Hc0; tauto].
    destruct (expires_at c0 <? now) eqn:Hlive;
      [unfold updateCheckout; rewrite Hc0, Hlive; tauto|].
    destruct (updateCheckout_live st now key id' req c0 Hc0 Hlive)
      as [(x & m & _ & _ & _ & ->)|(counter & c1 & Hr & ->)]; [tauto|].
    apply replace_line_items_frame in Hr as (_ & Hb & _).
    cbn [fst]. rewrite remember_buyers. simpl. rewrite length_alter.
    split; [exact Hlt|].
    destruct (decide (buyer c1 = ref)) as [Heq|Hne].
    + right. exists key, id', req, c0. split; [reflexivity|]. split; [exact Hc0|congruence].
    + left. apply list_lookup_alter_ne, Hne.
  - destruct (handleIdempotency_cases st key (fun k => completeCheckout st now k id'))
      as [(k & cached & _ & _ & _ & ->)|[_ ->]]; [tauto|].
    unfold completeCheckout.
    destruct (checkouts st !! id') as [c0|]; [|tauto].
    destruct (expires_at c0 <? now); [tauto|].
    destruct (negb (is_ready (status c0))); [tauto|].
    cbn [fst]. rewrite remember_buyers. simpl. tauto.
  - tauto.
  - tauto.
Qed.

Lemma step_owned (st : State) (now : Z) (e : Event) (ref : nat) (id : string) :
  owned st ref id -> owned (step st now e) ref id.
Proof.
  intros [Hlt Hown]. split; [apply step_buyers, Hlt|].
  intros id' c' Hc' Hb.
  destruct (step_refs st now e id' c' Hc') as [(c & Hc & Hbc)|Hnew].
  - apply (Hown id' c Hc). congruence.
  - lia.
Qed.

Lemma step_owned_buyer (st : State) (now : Z) (e : Event) (ref : nat) (id : string) :
  owned st ref id -> not_update_of id e ->
  buyers (step st now e) !! ref = buyers st !! ref.
Proof.
  intros [Hlt Hown] He.
  destruct (step_buyers st now e ref Hlt) as [_ [H|(key & id' & req & c & -> & Hc & Hb)]];
    [exact H|].
  simpl in He. exfalso. apply He. apply (Hown id' c Hc Hb).
Qed.

Lemma run_owned_buyer (evs : list (Z * Event)) (st : State) (ref : nat) (id : string) :
  owned st ref id -> no_update_of id evs ->
  buyers (run st evs) !! ref = buyers st !! ref.
Proof.
  revert st. induction evs as [|[now e] evs IH]; intros st Hown Hevs; simpl; [reflexivity|].
  inversion Hevs as [|? ? He Hrest]; subst.
  rewrite IH; [|apply step_owned, Hown|exact Hrest].
  apply step_owned_buyer with id; assumption.
Qed.

Lemma render_same_buyer (h h' : list Buyer) (c : Checkout) :
  h' !! buyer c = h !! buyer c -> render h' c = render h c.
Proof. unfold render. intros ->. reflexivity. Qed.

(** X10.  A create that is accepted under a fresh key is replayed word for
    word as long as the checkout it created is not updated: after any run
    without the clearing timer and without a [PUT] on that checkout, every
    create, update or completion that presents the key is answered 200 with
    exactly the body of the first response, and changes nothing. *)
Theorem replay_is_identical_without_update (st : State) (now : Z) (k : string)
    (req : CreateBody) (evs : list (Z * Event)) :
  reachable st ->
  str_nonempty k = true ->
  processedRequests st !! k = None ->
  http_status (route st now (POST_checkout (Some k) req)).2 = 201 ->
  no_clear evs ->
  no_update_of ("chk_" +:+ pretty now) evs ->
  let first := route st now (POST_checkout (Some k) req) in
  let later := run first.1 evs in
  (forall now' req',
      route later now' (POST_checkout (Some k) req')
      = (later, mkResponse 200 (body first.2)))
  /\ (forall now' id req',
        route later now' (PUT_checkout (Some k) id req')
        = (later, mkResponse 200 (body first.2)))
  /\ (forall now' id,
        route later now' (POST_complete (Some k) id)
        = (later, mkResponse 200 (body first.2))).
Proof.
  intros [Hwf _]%reachable_wf Hk Hfresh Hcode Hclear Hupd first later.
  assert (Hfirst : first = createCheckout st now (Some k) req).
  { unfold first. simpl. unfold handleIdempotency. rewrite Hk, Hfresh. reflexivity. }
  assert (Hex : exists c,
             processedRequests first.1 !! k = Some c
             /\ body first.2 = CheckoutBody (render (buyers first.1) c)
             /\ owned first.1 (buyer c) ("chk_" +:+ pretty now)).
  { unfold first in Hcode. fold first in Hcode. rewrite Hfirst in *.
    destruct (createCheckout_cases st now (Some k) req)
      as [(m & _ & Hcr)|(entries & counter & mapped & _ & _ & _ & _ & _ & Hcr)];
      rewrite Hcr in *; [discriminate|].
    eexists. cbn [fst snd body].
    split; [apply remember_recorded, Hk|]. split; [reflexivity|].
    split.
    - rewrite remember_buyers. simpl. rewrite length_app. simpl. lia.
    - intros id' c'. rewrite remember_checkouts. simpl.
      intros [[<- _]|[_ Hc']]%lookup_insert_Some Hb; [reflexivity|].
      destruct (Hwf id' c' Hc') as (_ & Hlt & _). simpl in Hb. lia. }
  destruct Hex as (c & Hrec & Hbody & Hown).
  assert (Hlater : processedRequests later !! k = Some c)
    by (apply run_keeps_record; assumption).
  assert (Hanswer : mkResponse 200 (CheckoutBody (render (buyers later) c))
                    = mkResponse 200 (body first.2)).
  { rewrite Hbody. do 2 f_equal. apply render_same_buyer.
    eapply run_owned_buyer; eassumption. }
  repeat split; intros; simpl; unfold handleIdempotency;
    rewrite Hk, Hlater; rewrite Hanswer; reflexivity.
Qed.

Lemma replay_is_identical_without_update_witness :
  route (run first_call.1 [(2000, Call (GET_checkout "chk_1000"))]) 3000
    (POST_checkout (Some "k1") roses_no_buyer)
  = (run first_call.1 [(2000, Call (GET_checkout "chk_1000"))],
     mkResponse 200 (body first_call.2)).
Proof.
  refine (proj1 (replay_is_identical_without_update initial 1000 "k1" roses_no_buyer
                   [(2000, Call (GET_checkout "chk_1000"))] _ eq_refl _ _ _ _)
            3000 roses_no_buyer).
  - exists []. reflexivity.
  - reflexivity.
  - reflexivity.
  - repeat constructor. discriminate.
  - repeat constructor.
Defined.

(** ** The timers *)

(** X11.  The clean-up timer removes exactly the checkouts that expired
    strictly before its clock reading and touches nothing else, and running
    it twice changes nothing more.  It also changes what a reader sees: a
    GET of an expired checkout answers [expired] if it comes before the
    sweep, and [not_found] if it comes after. *)
Theorem sweep_removes_exactly_the_expired (st : State) (now : Z) :
  (forall id c,
      checkouts (sweep st now) !! id = Some c
      <-> checkouts st !! id = Some c /\ now <= expires_at c)
  /\ processedRequests (sweep st now) = processedRequests st
  /\ buyers (sweep st now) = buyers st
  /\ lineItemCounter (sweep st now) = lineItemCounter st
  /\ sweep (sweep st now) now = sweep st now
  /\ (forall id c,
        checkouts st !! id = Some c -> expires_at c < now ->
        getCheckout st now id = (evict id st, expired)
        /\ getCheckout (sweep st now) now id = (sweep st now, not_found)).
Proof.
  assert (Hlook : forall id c,
             checkouts (sweep st now) !! id = Some c
             <-> checkouts st !! id = Some c /\ now <= expires_at c).
  { intros id c. simpl. rewrite map_lookup_filter_Some. simpl. split.
    - intros [H Hn]. split; [exact H|lia].
    - intros [H Hn]. split; [exact H|lia]. }
  split; [exact Hlook|].
  do 3 (split; [reflexivity|]).
  split.
  - unfold sweep, set_checkouts. simpl. f_equal.
    apply map_eq. intros id.
    destruct (filter _ (checkouts st) !! id) as [c|] eqn:Hc.
    + apply map_lookup_filter_Some in Hc as [Hc Hn].
      apply map_lookup_filter_Some. split; [|exact Hn].
      apply map_lookup_filter_Some. split; assumption.
    + apply map_lookup_filter_None. left. exact Hc.
  - intros id c Hc Hexp. split.
    + unfold getCheckout. rewrite Hc.
      rewrite (proj2 (Z.ltb_lt _ _) Hexp). reflexivity.
    + unfold getCheckout.
      destruct (checkouts (sweep st now) !! id) as [c'|] eqn:Hc'; [|reflexivity].
      apply Hlook in Hc' as [Hc' Hn]. assert (c' = c) by congruence. subst c'. lia.
Qed.

(** ** Which bodies are accepted *)

Lemma createCheckout_accepts (st : State) (now : Z) (key : option string)
    (req : CreateBody) :
  (create_accepts (cr_line_items req)
   /\ http_status (createCheckout st now key req).2 = 201)
  \/ (~ create_accepts (cr_line_items req)
      /\ invalid_request (createCheckout st now key req).2
      /\ (createCheckout st now key req).1 = st).
Proof.
  destruct (createCheckout_cases st now key req)
    as [(m & Hwhy & ->)|(entries & counter & mapped & He & Hv & _ & _ & _ & ->)].
  - right. split; [|split; [exists m; reflexivity|reflexivity]].
    intros Hacc. destruct Hwhy as [Hthrow|Hthrow].
    + unfold validate_if_nonempty in Hthrow.
      destruct (cr_line_items req) as [x|] eqn:Hf; [|discriminate].
      destruct (truthy_field (Some x) && length_positive x) eqn:Hg; [|discriminate].
      apply andb_prop in Hg as [Ht Hlen].
      destruct Hacc as [Hfalsy|[Hempty|(x' & Hx' & Hvalid)]].
      * congruence.
      * injection Hempty as ->. discriminate.
      * injection Hx' as <-. apply validateLineItems_Ok in Hvalid. congruence.
    + unfold or_empty_array in Hthrow.
      destruct (cr_line_items req) as [[l|v]|] eqn:Hf; try discriminate.
      destruct (truthy v) eqn:Ht; [|discriminate].
      destruct Hacc as [Hfalsy|[Hempty|(x' & Hx' & (l & Hl & _))]].
      * simpl in Hfalsy. congruence.
      * discriminate.
      * congruence.
  - left. split; [|reflexivity].
    unfold or_empty_array in He.
    destruct (cr_line_items req) as [[l|v]|] eqn:Hf.
    + injection He as <-. destruct l as [|e l].
      * right. left. reflexivity.
      * right. right. exists (LiArray (e :: l)). split; [reflexivity|].
        exists (e :: l). repeat split; [discriminate|exact Hv].
    + destruct (truthy v) eqn:Ht; [discriminate|]. left. exact Ht.
    + left. reflexivity.
Qed.

(** X14.  Idempotency does not survive the clearing timer.  After a create
    accepted under the key [k], a retry under [k] is replayed and stores
    nothing; but once [processedRequests.clear()] has run, the same retry is
    executed again: it answers 201 and stores a second checkout, next to the
    first one, for the one key. *)
Theorem retry_after_clear_creates_again (st : State) (now1 now2 : Z) (k : string)
    (req : CreateBody) :
  str_nonempty k = true ->
  http_status (route st now1 (POST_checkout (Some k) req)).2 = 201 ->
  now1 <> now2 ->
  let st1 := (route st now1 (POST_checkout (Some k) req)).1 in
  (route st1 now2 (POST_checkout (Some k) req)).1 = st1
  /\ processedRequests (clear st1) = ∅
  /\ checkouts (clear st1) = checkouts st1
  /\ http_status (route (clear st1) now2 (POST_checkout (Some k) req)).2 = 201
  /\ is_Some (checkouts (route (clear st1) now2 (POST_checkout (Some k) req)).1
                !! ("chk_" +:+ pretty now1))
  /\ is_Some (checkouts (route (clear st1) now2 (POST_checkout (Some k) req)).1
                !! ("chk_" +:+ pretty now2)).
Proof.
  intros Hk Hcode Hne st1.
  assert (Hrun : route st now1 (POST_checkout (Some k) req)
                 = createCheckout st now1 (Some k) req).
  { cbn [route] in *.
    destruct (handleIdempotency_cases st (Some k)
                (fun k0 => createCheckout st now1 k0 req))
      as [(k' & cached & _ & _ & _ & Hrep)|[_ Hnext]]; [|exact Hnext].
    rewrite Hrep in Hcode. discriminate. }
  assert (Hacc : create_accepts (cr_line_items req)).
  { destruct (createCheckout_accepts st now1 (Some k) req) as [[H _]|(_ & (m & Hm) & _)];
      [exact H|].
    rewrite Hrun in Hcode. rewrite Hm in Hcode. discriminate. }
  assert (Hst1 : exists c1, processedRequests st1 !! k = Some c1
                            /\ checkouts st1 !! ("chk_" +:+ pretty now1) = Some c1).
  { unfold st1. rewrite Hrun in *.
    destruct (createCheckout_cases st now1 (Some k) req)
      as [(m & _ & Hcr)|(entries & counter & mapped & _ & _ & _ & _ & _ & Hcr)];
      rewrite Hcr in *; [discriminate|].
    eexists. cbn [fst]. split; [apply remember_recorded, Hk|].
    rewrite remember_checkouts. simpl. apply lookup_insert_eq. }
  destruct Hst1 as (c1 & Hrec & Hstored).
  split.
  { cbn [route]. rewrite (handleIdempotency_replays st1 k c1 _ Hk Hrec). reflexivity. }
  split; [reflexivity|]. split; [reflexivity|].
  assert (Hexec : route (clear st1) now2 (POST_checkout (Some k) req)
                  = createCheckout (clear st1) now2 (Some k) req).
  { cbn [route]. unfold handleIdempotency. rewrite Hk.
    change (processedRequests (clear st1)) with (∅ : gmap string Checkout).
    rewrite lookup_empty. reflexivity. }
  rewrite Hexec.
  destruct (createCheckout_accepts (clear st1) now2 (Some k) req) as [[_ H201]|[Hn _]];
    [|contradiction].
  split; [exact H201|].
  destruct (createCheckout_cases (clear st1) now2 (Some k) req)
    as [(m & _ & Hcr)|(entries & counter & mapped & _ & _ & _ & _ & _ & Hcr)];
    rewrite Hcr in *; [discriminate|].
  cbn [fst]. rewrite remember_checkouts. simpl. split.
  - rewrite lookup_insert_ne.
    + rewrite Hstored. eexists. reflexivity.
    + intros Heq. apply chk_inj in Heq. congruence.
  - rewrite lookup_insert_eq. eexists. reflexivity.
Qed.

Lemma retry_after_clear_creates_again_witness :
  is_Some (checkouts (route (clear first_call.1) 5000
                        (POST_checkout (Some "k1") roses_no_buyer)).1 !! "chk_1000")
  /\ is_Some (checkouts (route (clear first_call.1) 5000
                           (POST_checkout (Some "k1") roses_no_buyer)).1 !! "chk_5000").
Proof.
  destruct (retry_after_clear_creates_again initial 1000 5000 "k1" roses_no_buyer
              eq_refl eq_refl ltac:(discriminate)) as (_ & _ & _ & _ & H1 & H2).
  split; [exact H1|exact H2].
Defined.

(** ** Updates and the buyer *)

Lemma sanitizeEmail_truthy (x : option string) (e : string) :
  sanitizeEmail x = Some e -> truthy_str x = true /\ str_nonempty e = true.
Proof.
  unfold sanitizeEmail. destruct x as [s|]; [|discriminate].
  simpl. destruct (str_nonempty s); [|discriminate]. simpl.
  destruct (emailRegex_test _) eqn:Hre; [|discriminate].
  intros [= <-]. split; [reflexivity|]. apply emailRegex_nonempty, Hre.
Qed.

Lemma clean_email_sanitizeEmail (b : option BuyerInput) :
  clean_email b = sanitizeEmail (b ≫= b_email).
Proof.
  unfold clean_email.
  destruct (sanitizeEmail (b ≫= b_email)) as [e|] eqn:Hs.
  - destruct (sanitizeEmail_truthy _ _ Hs) as [Ht He]. rewrite Ht. simpl. rewrite He.
    reflexivity.
  - destruct (truthy_str _); reflexivity.
Qed.

(** X15.  An accepted update merges the buyer patch into the buyer object
    field by field.  The email becomes the sanitised email of the patch when
    there is one, and otherwise (no email in the patch, or one that does not
    sanitise) stays exactly what it was; likewise for the name.  A field that
    was set is never cleared, and the checkout keeps its buyer object. *)
Theorem update_merges_buyer (st : State) (now : Z) (key : option string)
    (id : string) (req : UpdateBody) (c : Checkout) (b : Buyer) :
  checkouts st !! id = Some c ->
  buyers st !! buyer c = Some b ->
  http_status (updateCheckout st now key id req).2 = 200 ->
  exists c' b',
    stored (updateCheckout st now key id req).1 id c' b'
    /\ buyer c' = buyer c
    /\ email b' = match sanitizeEmail (up_buyer req ≫= b_email) with
                  | Some e => Some e
                  | None => email b
                  end
    /\ (clean_name (up_buyer req) = None -> full_name b' = full_name b)
    /\ (forall n, clean_name (up_buyer req) = Some n -> full_name b' = Some n)
    /\ (is_Some (email b) -> is_Some (email b'))
    /\ (is_Some (full_name b) -> is_Some (full_name b')).
Proof.
  intros Hc Hb Hcode.
  destruct (expires_at c <? now) eqn:Hlive;
    [unfold updateCheckout in Hcode; rewrite Hc, Hlive in Hcode; discriminate|].
  destruct (updateCheckout_live st now key id req c Hc Hlive)
    as [(x & m & _ & _ & _ & Hup)|(counter & c1 & Hr & Hup)];
    rewrite Hup in *; [discriminate|].
  apply replace_line_items_frame in Hr as (_ & Hbuy & _).
  eexists _, (patch_buyer (up_buyer req) b). cbn [fst].
  split; [split|].
  - rewrite remember_checkouts. simpl. apply lookup_insert_eq.
  - rewrite remember_buyers. simpl. rewrite list_lookup_alter_eq, Hbuy, Hb. reflexivity.
  - split; [exact Hbuy|]. simpl. rewrite clean_email_sanitizeEmail.
    split; [reflexivity|].
    split; [intros ->; reflexivity|].
    split; [intros n ->; reflexivity|].
    split.
    + intros [e He]. destruct (sanitizeEmail _); [eexists; reflexivity|].
      rewrite He. eexists. reflexivity.
    + intros [n Hn]. destruct (clean_name _); [eexists; reflexivity|].
      rewrite Hn. eexists. reflexivity.
Qed.

Lemma update_merges_buyer_witness :
  exists c' b',
    stored (updateCheckout st_ready 2000 None "chk_1000"
              (mkUpdateBody None (Some (mkBuyerInput (Some "not an email") None)))).1
      "chk_1000" c' b'
    /\ email b' = Some "a@b.com".
Proof.
  destruct (checkouts st_ready !! "chk_1000") as [c|] eqn:Hc;
    [|vm_compute in Hc; discriminate].
  assert (Hb : buyers st_ready !! buyer c = Some (mkBuyer (Some "a@b.com") (Some "A B"))).
  { vm_compute in Hc. injection Hc as <-. reflexivity. }
  destruct (update_merges_buyer st_ready 2000 None "chk_1000"
              (mkUpdateBody None (Some (mkBuyerInput (Some "not an email") None)))
              c _ Hc Hb)
    as (c' & b' & Hst & _ & He & _).
  - vm_compute in Hc. injection Hc as <-. reflexivity.
  - exists c', b'. split; [exact Hst|]. rewrite He. reflexivity.
Defined.

(** ** One request, one checkout *)

Lemma completeCheckout_other (st : State) (now : Z) (key : option string)
    (id' id : string) :
  id' <> id ->
  checkouts (completeCheckout st now key id').1 !! id = checkouts st !! id.
Proof.
  intros Hne. unfold completeCheckout.
  destruct (checkouts st !! id') as [c|]; [|reflexivity].
  destruct (expires_at c <? now); [simpl; apply lookup_delete_ne, Hne|].
  destruct (negb (is_ready (status c))); [reflexivity|].
  cbn [fst]. rewrite remember_checkouts. simpl. apply lookup_insert_ne, Hne.
Qed.

Lemma getCheckout_other (st : State) (now : Z) (id' id : string) :
  id' <> id ->
  checkouts (getCheckout st now id').1 !! id = checkouts st !! id.
Proof.
  intros Hne. unfold getCheckout.
  destruct (checkouts st !! id') as [c|]; [|reflexivity].
  destruct (expires_at c <? now); [simpl; apply lookup_delete_ne, Hne|reflexivity].
Qed.

Lemma route_other (st : State) (now : Z) (r : Request) (id : string) :
  target now r <> id ->
  checkouts (route st now r).1 !! id = checkouts st !! id.
Proof.
  intros Hne. destruct r as [key req|id'|key id' req|key id']; simpl in *.
  - destruct (handleIdempotency_cases st key (fun k => createCheckout st now k req))
      as [(k & cached & _ & _ & _ & ->)|[_ ->]]; [reflexivity|].
    apply createCheckout_other, Hne.
  - apply getCheckout_other, Hne.
  - destruct (handleIdempotency_cases st key (fun k => updateCheckout st now k id' req))
      as [(k & cached & _ & _ & _ & ->)|[_ ->]]; [reflexivity|].
    apply updateCheckout_other, Hne.
  - destruct (handleIdempotency_cases st key (fun k => completeCheckout st now k id'))
      as [(k & cached & _ & _ & _ & ->)|[_ ->]]; [reflexivity|].
    apply completeCheckout_other, Hne.
Qed.

(** X16.  A request touches only the checkout it is about.  Whatever a
    create, read, update or completion of one identifier does, every other
    stored checkout and the buyer object it refers to stay exactly as they
    were, so that a GET of another identifier is answered as before. *)
Theorem request_touches_only_its_checkout (st : State) (now : Z) (r : Request)
    (id : string) :
  reachable st ->
  target now r <> id ->
  checkouts (route st now r).1 !! id = checkouts st !! id
  /\ (forall c, checkouts st !! id = Some c ->
                buyers (route st now r).1 !! buyer c = buyers st !! buyer c)
  /\ (forall now', (getCheckout (route st now r).1 now' id).2
                   = (getCheckout st now' id).2).
Proof.
  intros ((Hwf & _) & Hd & _)%reachable_sound Hne.
  pose proof (route_other st now r id Hne) as Hsame.
  assert (Hbuy : forall c, checkouts st !! id = Some c ->
                  buyers (route st now r).1 !! buyer c = buyers st !! buyer c).
  { intros c Hc. destruct (Hwf id c Hc) as (_ & Hlt & _).
    destruct (step_buyers st now (Call r) (buyer c) Hlt)
      as [_ [H|(key & id' & req & c0 & Heq & Hc0 & Hb)]]; [exact H|].
    injection Heq as ->.
    exfalso. apply Hne. simpl. apply (Hd id' id c0 c Hc0 Hc Hb). }
  split; [exact Hsame|]. split; [exact Hbuy|].
  intros now'. unfold getCheckout. rewrite Hsame.
  destruct (checkouts st !! id) as [c|] eqn:Hc; [|reflexivity].
  destruct (expires_at c <? now'); [reflexivity|].
  simpl. unfold render. rewrite (Hbuy c eq_refl). reflexivity.
Qed.

Lemma request_touches_only_its_checkout_witness :
  (getCheckout (route st_roses 2000 (POST_checkout None roses_with_buyer)).1 3000
     "chk_1000").2
  = (getCheckout st_roses 3000 "chk_1000").2.
Proof.
  apply (request_touches_only_its_checkout st_roses 2000
           (POST_checkout None roses_with_buyer) "chk_1000" st_roses_reachable).
  vm_compute. discriminate.
Defined.

(** ** Identifiers *)

Lemma step_absent_unless_created (st : State) (now : Z) (e : Event) (id : string) :
  checkouts st !! id = None ->
  (forall key req, e = Call (POST_checkout key req) -> "chk_" +:+ pretty now <> id) ->
  checkouts (step st now e) !! id = None.
Proof.
  intros Hid Hne.
  destruct e as [[key req|id'|key id' req|key id']| |]; simpl.
  - destruct (handleIdempotency_cases st key (fun k => createCheckout st now k req))
      as [(k & cached & _ & _ & _ & ->)|[_ ->]]; [exact Hid|].
    apply createCheckout_absent; [exact Hid|]. eapply Hne. reflexivity.
  - apply getCheckout_absent, Hid.
  - destruct (handleIdempotency_cases st key (fun k => updateCheckout st now k id' req))
      as [(k & cached & _ & _ & _ & ->)|[_ ->]]; [exact Hid|].
    apply updateCheckout_absent, Hid.
  - destruct (handleIdempotency_cases st key (fun k => completeCheckout st now k id'))
      as [(k & cached & _ & _ & _ & ->)|[_ ->]]; [exact Hid|].
    apply completeCheckout_absent, Hid.
  - apply map_lookup_filter_None_2. left. exact Hid.
  - exact Hid.
Qed.

(** X17.  Only [POST] brings an identifier into the store.  In a run from
    the initial state in which no checkout is created at the clock reading
    an identifier names, that identifier is never stored: GET, PUT and
    complete all answer 404 [not_found] for it and change nothing; an update
    never creates the checkout it is asked to change. *)
Theorem only_create_stores_an_identifier (evs : list (Z * Event)) (id : string) :
  never_created id evs ->
  checkouts (run initial evs) !! id = None
  /\ (forall now, getCheckout (run initial evs) now id = (run initial evs, not_found))
  /\ (forall now key req,
        updateCheckout (run initial evs) now key id req = (run initial evs, not_found))
  /\ (forall now key,
        completeCheckout (run initial evs) now key id = (run initial evs, not_found)).
Proof.
  intros Hevs.
  assert (Habs : checkouts (run initial evs) !! id = None).
  { assert (Hgen : forall st, checkouts st !! id = None ->
                              checkouts (run st evs) !! id = None).
    { induction Hevs as [|[now e] evs He _ IH]; intros st Hst; simpl; [exact Hst|].
      apply IH. apply step_absent_unless_created; [exact Hst|].
      intros key req ->. apply (He key req). reflexivity. }
    apply Hgen. reflexivity. }
  split; [exact Habs|].
  split; [intros now; unfold getCheckout; rewrite Habs; reflexivity|].
  split; [intros now key req; unfold updateCheckout; rewrite Habs; reflexivity|].
  intros now key. unfold completeCheckout. rewrite Habs. reflexivity.
Qed.

Lemma only_create_stores_an_identifier_witness :
  updateCheckout (run initial [(1000, Call (POST_checkout None roses_no_buyer))])
    2000 None "chk_7" add_buyer
  = (run initial [(1000, Call (POST_checkout None roses_no_buyer))], not_found).
Proof.
  refine (proj1 (proj2 (proj2 (only_create_stores_an_identifier
                   [(1000, Call (POST_checkout None roses_no_buyer))] "chk_7" _)))
            2000 None add_buyer).
  repeat constructor. intros key req _. vm_compute. discriminate.
Defined.

Lemma get_after_create (st : State) (now now' : Z) (key : option string)
    (req : CreateBody) :
  http_status (createCheckout st now key req).2 = 201 ->
  now' <= now + six_hours ->
  getCheckout (createCheckout st now key req).1 now' ("chk_" +:+ pretty now)
  = ((createCheckout st now key req).1,
     mkResponse 200 (body (createCheckout st now key req).2)).
Proof.
  intros Hcode Hnow.
  destruct (createCheckout_cases st now key req)
    as [(m & _ & Hcr)|(entries & counter & mapped & _ & _ & _ & _ & _ & Hcr)];
    rewrite Hcr in *; [discriminate|].
  cbn [fst snd body]. erewrite getCheckout_live; [reflexivity| |].
  - rewrite remember_checkouts. simpl. apply lookup_insert_eq.
  - simpl. apply Z.ltb_ge. exact Hnow.
Qed.

(** X18.  Checkout identifiers are clock readings, and two creates at one
    reading share one: the second accepted create replaces the first.  The
    store gains no entry, both responses show the same [id], and a GET of it
    returns the second checkout; the first can no longer be read.  Creates
    at different readings never collide. *)
Theorem creates_at_one_reading_collide (st : State) (now : Z) (key1 key2 : option string)
    (req1 req2 : CreateBody) :
  http_status (createCheckout st now key1 req1).2 = 201 ->
  http_status (createCheckout (createCheckout st now key1 req1).1 now key2 req2).2 = 201 ->
  let first := createCheckout st now key1 req1 in
  let second := createCheckout first.1 now key2 req2 in
  dom (checkouts second.1) = dom (checkouts first.1)
  /\ (forall now', now' <= now + six_hours ->
        getCheckout second.1 now' ("chk_" +:+ pretty now)
        = (second.1, mkResponse 200 (body second.2)))
  /\ (forall now2 key req c,
        now2 <> now ->
        checkouts first.1 !! ("chk_" +:+ pretty now) = Some c ->
        checkouts (createCheckout first.1 now2 key req).1 !! ("chk_" +:+ pretty now)
        = Some c).
Proof.
  intros H1 H2 first second. subst second.
  set (st1 := first.1) in *.
  assert (Hfirst : is_Some (checkouts st1 !! ("chk_" +:+ pretty now))).
  { unfold st1, first.
    destruct (createCheckout_cases st now key1 req1)
      as [(m & _ & Hcr)|(entries & counter & mapped & _ & _ & _ & _ & _ & Hcr)];
      rewrite Hcr in *; [discriminate|].
    cbn [fst]. rewrite remember_checkouts. simpl. rewrite lookup_insert_eq. eauto. }
  split; [|split].
  - change (createCheckout st now key1 req1).1 with st1 in H2.
    destruct (createCheckout_cases st1 now key2 req2)
      as [(m & _ & Hcr)|(entries & counter & mapped & _ & _ & _ & _ & _ & Hcr)];
      rewrite Hcr in *; [discriminate|].
    cbn [fst]. rewrite remember_checkouts. simpl.
    rewrite dom_insert_L.
    apply elem_of_dom in Hfirst.
    apply subseteq_union_1_L, singleton_subseteq_l, Hfirst.
  - intros now' Hnow'.
    apply get_after_create; assumption.
  - intros now2 key req c Hne Hc.
    rewrite createCheckout_other; [exact Hc|].
    intros Heq%chk_inj. congruence.
Qed.

Lemma creates_at_one_reading_collide_witness :
  dom (checkouts (createCheckout st_roses 1000 None roses_with_buyer).1)
  = dom (checkouts st_roses).
Proof.
  exact (proj1 (creates_at_one_reading_collide initial 1000 None None
                  roses_no_buyer roses_with_buyer eq_refl eq_refl)).
Defined.

(** ** Sanitisation *)

(** X19.  [sanitizeEmail] returns a string exactly for a non-empty input
    whose trimmed, lower-cased form has the shape [local@domain.tld]; what it
    returns is that form, contains no white space, is unchanged by
    lower-casing and is a fixed point of [sanitizeEmail] itself. *)
Theorem sanitizeEmail_spec (s e : string) :
  (sanitizeEmail (Some s) = Some e
   <-> str_nonempty s = true /\ e = toLowerCase (trim s) /\ email_shape e)
  /\ (sanitizeEmail (Some s) = Some e ->
      all_chars (fun a => negb (is_space a)) e = true
      /\ toLowerCase e = e
      /\ sanitizeEmail (Some e) = Some e).
Proof.
  split.
  - unfold sanitizeEmail. split.
    + destruct (str_nonempty s); [|discriminate]. simpl.
      destruct (emailRegex_test (toLowerCase (trim s))) eqn:Hre; [|discriminate].
      intros [= <-]. split; [reflexivity|]. split; [reflexivity|].
      apply emailRegex_test_shape, Hre.
    + intros (Hs & -> & Hshape). rewrite Hs. simpl.
      apply emailRegex_test_shape in Hshape. rewrite Hshape. reflexivity.
  - intros H. pose proof (sanitizeEmail_sanitized _ _ H) as Hfix.
    unfold sanitizeEmail in H.
    destruct (negb (str_nonempty s)); [discriminate|].
    destruct (emailRegex_test (toLowerCase (trim s))) eqn:Hre; [|discriminate].
    injection H as <-.
    split; [apply emailRegex_no_space, Hre|].
    split; [apply toLowerCase_idem|exact Hfix].
Qed.

Lemma sanitizeEmail_spec_witness :
  sanitizeEmail (Some "  Ada@Example.COM ") = Some "ada@example.com"
  /\ sanitizeEmail (Some "ada@example.com") = Some "ada@example.com".
Proof.
  assert (H : sanitizeEmail (Some "  Ada@Example.COM ") = Some "ada@example.com")
    by reflexivity.
  split; [exact H|].
  exact (proj2 (proj2 (proj2 (sanitizeEmail_spec "  Ada@Example.COM " "ada@example.com") H))).
Defined.

Lemma slice0_length (n : nat) (s : string) : (String.length (slice0 n s) <= n)%nat.
Proof.
  revert s. induction n as [|n IH]; intros [|a s]; simpl; try lia.
  specialize (IH s). lia.
Qed.

Lemma slice0_prefix (n : nat) (s : string) : exists rest, s = slice0 n s +:+ rest.
Proof.
  revert s. induction n as [|n IH]; intros [|a s]; simpl.
  - exists EmptyString. reflexivity.
  - exists (String a s). reflexivity.
  - exists EmptyString. reflexivity.
  - destruct (IH s) as [rest Hrest]. exists rest.
    change (String a s = String a (slice0 n s +:+ rest)). f_equal. exact Hrest.
Qed.

Lemma slice0_short (n : nat) (s : string) :
  (String.length s <= n)%nat -> slice0 n s = s.
Proof.
  revert s. induction n as [|n IH]; intros [|a s]; simpl; try reflexivity; try lia.
  intros H. f_equal. apply IH. lia.
Qed.

Lemma trimStart_head (s : string) (a : ascii) (r : string) :
  trimStart s = String a r -> is_space a = false.
Proof.
  induction s as [|b s IH]; simpl; [discriminate|].
  destruct (is_space b) eqn:Hb; [exact IH|].
  intros [= <- <-]. exact Hb.
Qed.

Lemma trimEnd_head (s : string) (a : ascii) (r : string) :
  trimEnd s = String a r -> exists r0, s = String a r0.
Proof.
  destruct s as [|b s]; simpl; [discriminate|].
  destruct (trimEnd s); [destruct (is_space b); [discriminate|]|];
    intros [= <- _]; eauto.
Qed.

Lemma trim_head (s : string) (a : ascii) (r : string) :
  trim s = String a r -> is_space a = false.
Proof.
  unfold trim. intros H. apply trimEnd_head in H as [r0 H].
  eapply trimStart_head, H.
Qed.

(** X21.  What [validateCheckout] reports and what [determineStatus]
    decides agree: there is no message exactly when the buyer has an email
    and a full name, a checkout is [ready_for_complete] exactly when there is
    no message and the cart is not empty, and there are never more than the
    two messages, each a recoverable error. *)
Theorem messages_agree_with_status (b : option Buyer) (items : list LineItem) :
  (validateCheckout b = []
   <-> truthy_str (b ≫= email) = true /\ truthy_str (b ≫= full_name) = true)
  /\ (determineStatus b items = ready_for_complete
      <-> validateCheckout b = [] /\ items <> [])
  /\ (length (validateCheckout b) <= 2)%nat
  /\ Forall (fun m => m_type m = "error" /\ m_severity m = Some "recoverable")
       (validateCheckout b).
Proof.
  unfold validateCheckout, determineStatus.
  destruct (truthy_str (b ≫= email)), (truthy_str (b ≫= full_name)); simpl;
    (split; [split; [intros H; try discriminate H; auto
                    |intros [H1 H2]; try discriminate H1; try discriminate H2; reflexivity]|]);
    (split; [|split; [lia|repeat constructor]]).
  - destruct items; simpl.
    + split; [discriminate|]. intros [_ H]. congruence.
    + split; [|reflexivity]. intros _. split; [reflexivity|discriminate].
  - split; [discriminate|]. intros [H _]. discriminate.
  - split; [discriminate|]. intros [H _]. discriminate.
  - split; [discriminate|]. intros [H _]. discriminate.
Qed.

(** ** The tool front end *)

Lemma getProductId_range (s : string) :
  (getProductId s = "1" \/ getProductId s = "2" \/ getProductId s = "3")
  /\ in_catalog (getProductId s) = true
  /\ getProductId (getProductId s) = getProductId s.
Proof.
  assert (H : getProductId s = "1" \/ getProductId s = "2" \/ getProductId s = "3").
  { unfold getProductId.
    destruct (String.eqb (trim (toLowerCase s)) "1") eqn:E1.
    { apply String.eqb_eq in E1. rewrite E1. auto. }
    destruct (String.eqb (trim (toLowerCase s)) "2") eqn:E2.
    { apply String.eqb_eq in E2. rewrite E2. auto. }
    destruct (String.eqb (trim (toLowerCase s)) "3") eqn:E3.
    { apply String.eqb_eq in E3. rewrite E3. auto. }
    cbn [orb].
    destruct (includes "rose" _); [auto|].
    destruct (includes "tulip" _); [auto|].
    destruct (includes "lily" _ || includes "lilies" _); auto. }
  split; [exact H|].
  destruct H as [-> | [-> | ->]]; split; reflexivity.
Qed.

(** X22.  [getProductId] always answers with the identifier of a catalogue
    product, whatever it is given, and resolving an identifier it has
    returned gives that identifier again. *)
Theorem getProductId_in_catalog (s : string) :
  (getProductId s = "1" \/ getProductId s = "2" \/ getProductId s = "3")
  /\ in_catalog (getProductId s) = true
  /\ getProductId (getProductId s) = getProductId s.
Proof. apply getProductId_range. Qed.




Lemma tool_buyer_no_name (buyer_email : option string) :
  clean_name (tool_buyer buyer_email) = None.
Proof. unfold tool_buyer. destruct (truthy_str buyer_email); reflexivity. Qed.

Lemma determineStatus_no_name (b : option Buyer) (items : list LineItem) :
  (forall x, b = Some x -> full_name x = None) ->
  determineStatus b items = incomplete.
Proof.
  intros H. unfold determineStatus.
  destruct b as [x|]; simpl.
  - rewrite (H x eq_refl). simpl. rewrite orb_true_r. reflexivity.
  - reflexivity.
Qed.

Lemma nameless_shrink (st st' : State) :
  (forall id c, checkouts st' !! id = Some c -> checkouts st !! id = Some c) ->
  buyers st' = buyers st ->
  nameless st -> nameless st'.
Proof.
  intros Hsub Hb [Hn Hs]. split; [rewrite Hb; exact Hn|].
  intros id c Hc. apply (Hs id c), Hsub, Hc.
Qed.

Lemma tool_step_nameless (st : State) (now : Z) (t : ToolCall) :
  nameless st -> nameless (route st now (tool_request t)).1.
Proof.
  intros [Hn Hs].
  destruct t as [items buyer_email|id buyer_email items|id|id];
    cbn [tool_request route]; unfold handleIdempotency.
  - destruct (createCheckout_cases st now None
                (mkCreateBody (Some (LiArray (tool_line_items items)))
                   (tool_buyer buyer_email) (Some "USD")))
      as [(m & _ & ->)|(entries & counter & mapped & _ & _ & _ & _ & _ & ->)];
      [split; assumption|].
    cbn [fst]. split.
    + rewrite remember_buyers. simpl. apply Forall_app. split; [exact Hn|].
      constructor; [|constructor]. simpl. apply tool_buyer_no_name.
    + rewrite remember_checkouts. simpl.
      apply map_Forall_insert_2; [|exact Hs].
      simpl. split; [|reflexivity].
      apply determineStatus_no_name. intros x [= <-]. simpl. apply tool_buyer_no_name.
  - set (req := mkUpdateBody _ _).
    destruct (checkouts st !! id) as [c|] eqn:Hc;
      [|unfold updateCheckout; rewrite Hc; split; assumption].
    destruct (expires_at c <? now) eqn:Hlive.
    { unfold updateCheckout. rewrite Hc, Hlive. cbn [fst].
      apply (nameless_shrink st); [|reflexivity|split; assumption].
      intros id' c' H. simpl in H. apply lookup_delete_Some in H as [_ H]. exact H. }
    destruct (updateCheckout_live st now None id req c Hc Hlive)
      as [(x & m & _ & _ & _ & ->)|(counter & c1 & Hr & ->)]; [split; assumption|].
    apply replace_line_items_frame in Hr as (_ & _ & _ & _ & Hord & _).
    assert (Hheap : Forall (fun b => full_name b = None)
                      (alter (patch_buyer (up_buyer req)) (buyer c1) (buyers st))).
    { apply Forall_alter; [exact Hn|].
      intros b _ Hb. simpl. unfold req. cbn [up_buyer].
      rewrite tool_buyer_no_name. exact Hb. }
    cbn [fst]. split.
    + rewrite remember_buyers. simpl. exact Hheap.
    + rewrite remember_checkouts. simpl.
      apply map_Forall_insert_2; [|exact Hs].
      simpl. split.
      * apply determineStatus_no_name. intros x Hx.
        rewrite Forall_forall in Hheap. apply Hheap.
        eapply list_elem_of_lookup_2, Hx.
      * rewrite Hord. apply (Hs id c Hc).
  - unfold getCheckout.
    destruct (checkouts st !! id) as [c|]; [|split; assumption].
    destruct (expires_at c <? now); [|split; assumption].
    cbn [fst]. apply (nameless_shrink st); [|reflexivity|split; assumption].
    intros id' c' H. simpl in H. apply lookup_delete_Some in H as [_ H]. exact H.
  - unfold completeCheckout.
    destruct (checkouts st !! id) as [c|] eqn:Hc; [|split; assumption].
    destruct (expires_at c <? now).
    { cbn [fst]. apply (nameless_shrink st); [|reflexivity|split; assumption].
      intros id' c' H. simpl in H. apply lookup_delete_Some in H as [_ H]. exact H. }
    destruct (Hs id c Hc) as [-> _]. simpl. split; assumption.
Qed.

Lemma tools_run_nameless (evs : list (Z * Event)) (st : State) :
  from_tools evs -> nameless st -> nameless (run st evs).
Proof.
  intros Hevs. revert st.
  induction Hevs as [|[now e] evs He _ IH]; intros st Hst; simpl; [exact Hst|].
  apply IH. destruct e as [r| |]; simpl in *.
  - destruct He as [t ->]. apply tool_step_nameless, Hst.
  - apply (nameless_shrink st); [|reflexivity|exact Hst].
    intros id c H. simpl in H. apply map_lookup_filter_Some in H as [H _]. exact H.
  - apply (nameless_shrink st); [|reflexivity|exact Hst]. intros id c H. exact H.
Qed.

(** X24.  Through the tools no order can be placed on this server.  The
    create and update tools send the buyer's email but never a name, and
    [determineStatus] asks for both: after any run of tool calls (and
    timers) from the initial state every stored checkout is [incomplete] and
    without an order, and the complete tool is answered 400 [not_ready] or
    404, never 200. *)
Theorem tools_never_place_an_order (evs : list (Z * Event)) (now : Z) (id : string) :
  from_tools evs ->
  (forall id' c,
      checkouts (run initial evs) !! id' = Some c ->
      status c = incomplete /\ order c = None)
  /\ (http_status (route (run initial evs) now (tool_request (complete_checkout id))).2 = 400
      \/ http_status (route (run initial evs) now (tool_request (complete_checkout id))).2
         = 404).
Proof.
  intros Hevs.
  assert (Hinit : nameless initial).
  { split; [constructor|apply map_Forall_empty]. }
  destruct (tools_run_nameless evs initial Hevs Hinit) as [_ Hs].
  split; [exact Hs|].
  cbn [tool_request route]. unfold handleIdempotency, completeCheckout.
  destruct (checkouts (run initial evs) !! id) as [c|] eqn:Hc; [|right; reflexivity].
  destruct (expires_at c <? now); [right; reflexivity|].
  destruct (Hs id c Hc) as [-> _]. left. reflexivity.
Qed.

Lemma tools_never_place_an_order_witness :
  http_status
    (route (run initial
              [(1000, Call (tool_request
                              (create_checkout [mkToolItem "roses" (Some 12%Q)]
                                 (Some "a@b.com"))))])
       2000 (tool_request (complete_checkout "chk_1000"))).2 = 400
  \/ http_status
       (route (run initial
                 [(1000, Call (tool_request
                                 (create_checkout [mkToolItem "roses" (Some 12%Q)]
                                    (Some "a@b.com"))))])
          2000 (tool_request (complete_checkout "chk_1000"))).2 = 404.
Proof.
  refine (proj2 (tools_never_place_an_order
                   [(1000, Call (tool_request
                                   (create_checkout [mkToolItem "roses" (Some 12%Q)]
                                      (Some "a@b.com"))))]
                   2000 "chk_1000" _)).
  repeat constructor. eexists. reflexivity.
Defined.

(** ** The line-item counter and the lifetime of a checkout *)






(** * The server on the wire *)

(** ** Doubles *)

Lemma two_to_pos (k : Z) : (0 < Wire.two_to k)%Q.
Proof. unfold Wire.two_to. apply Qpower_0_lt. reflexivity. Qed.

Lemma two_to_add (a b : Z) :
  (Wire.two_to (a + b) == Wire.two_to a * Wire.two_to b)%Q.
Proof. unfold Wire.two_to. apply Qpower_plus. discriminate. Qed.

Lemma two_to_sub (a b : Z) :
  (Wire.two_to (a - b) == Wire.two_to a / Wire.two_to b)%Q.
Proof. unfold Wire.two_to. apply Qpower_minus. discriminate. Qed.

Lemma two_to_Z (a : Z) : 0 <= a -> (Wire.two_to a == inject_Z (2 ^ a))%Q.
Proof. intros H. unfold Wire.two_to. rewrite Zpower_Qpower by exact H. reflexivity. Qed.

Lemma two_to_le (a b : Z) : a <= b -> (Wire.two_to a <= Wire.two_to b)%Q.
Proof. intros H. unfold Wire.two_to. apply Qpower_le_compat_l; [exact H|discriminate]. Qed.

Lemma two_to_lt (a b : Z) : a < b -> (Wire.two_to a < Wire.two_to b)%Q.
Proof. intros H. unfold Wire.two_to. apply Qpower_lt_compat_l; [exact H|reflexivity]. Qed.

Lemma two_to_lt_inv (a b : Z) : (Wire.two_to a < Wire.two_to b)%Q -> a < b.
Proof. intros H. apply (Qpower_lt_compat_l_inv 2); [exact H|reflexivity]. Qed.

(** A quotient of two positive integers lies between the quotients of the
    powers of two that enclose them. *)
Lemma binade_bounds (n : Z) (d : positive) :
  0 < n ->
  (Wire.two_to (Z.log2 n - Z.log2 (Z.pos d) - 1) <= n # d)%Q
  /\ (n # d < Wire.two_to (Z.log2 n - Z.log2 (Z.pos d) + 1))%Q.
Proof.
  intros Hn.
  pose proof (Z.log2_spec n Hn) as [Hn1 Hn2].
  pose proof (Z.log2_spec (Z.pos d) ltac:(lia)) as [Hd1 Hd2].
  pose proof (Z.log2_nonneg n) as Ha.
  pose proof (Z.log2_nonneg (Z.pos d)) as Hb.
  set (a := Z.log2 n) in *. set (b := Z.log2 (Z.pos d)) in *.
  assert (HA : 0 < 2 ^ a) by (apply Z.pow_pos_nonneg; lia).
  assert (HB : 0 < 2 ^ b) by (apply Z.pow_pos_nonneg; lia).
  assert (HB1 : 2 ^ Z.succ b = 2 * 2 ^ b) by (apply Z.pow_succ_r; lia).
  assert (HA1 : 2 ^ Z.succ a = 2 * 2 ^ a) by (apply Z.pow_succ_r; lia).
  split.
  - replace (a - b - 1) with (a - Z.succ b) by lia.
    rewrite two_to_sub, !two_to_Z by lia.
    apply Qle_shift_div_r.
    + rewrite <- (Zlt_Qlt 0). lia.
    + unfold Qle, Qmult, inject_Z. cbn [Qnum Qden]. nia.
  - replace (a - b + 1) with (Z.succ a - b) by lia.
    rewrite two_to_sub, !two_to_Z by lia.
    apply Qlt_shift_div_l.
    + rewrite <- (Zlt_Qlt 0). lia.
    + unfold Qlt, Qmult, inject_Z. cbn [Qnum Qden]. nia.
Qed.

(** [binade] finds the binade. *)
Lemma binade_spec (x : Q) :
  (0 < x)%Q ->
  (Wire.two_to (Wire.binade x) <= x)%Q /\ (x < Wire.two_to (Wire.binade x + 1))%Q.
Proof.
  intros Hx. destruct x as [n d].
  assert (Hn : 0 < n) by (unfold Qlt in Hx; cbn in Hx; lia).
  destruct (binade_bounds n d Hn) as [Hlo Hhi].
  unfold Wire.binade. cbn [Qnum Qden].
  set (k := Z.log2 n - Z.log2 (Z.pos d)) in *.
  destruct (Qle_bool (Wire.two_to k) (n # d)) eqn:Ht.
  - apply Qle_bool_iff in Ht. split; [exact Ht|exact Hhi].
  - split; [exact Hlo|].
    replace (k - 1 + 1) with k by lia.
    apply Qnot_le_lt. intros H. apply Qle_bool_iff in H. congruence.
Qed.

Lemma binade_unique (x : Q) (e : Z) :
  (Wire.two_to e <= x)%Q -> (x < Wire.two_to (e + 1))%Q -> Wire.binade x = e.
Proof.
  intros Hlo Hhi.
  assert (Hx : (0 < x)%Q) by (pose proof (two_to_pos e); lra).
  destruct (binade_spec x Hx) as [Hlo' Hhi'].
  assert (H1 : Wire.binade x < e + 1) by (apply two_to_lt_inv; lra).
  assert (H2 : e < Wire.binade x + 1) by (apply two_to_lt_inv; lra).
  lia.
Qed.

Lemma binade_comp (x y : Q) : (0 < x)%Q -> (x == y)%Q -> Wire.binade x = Wire.binade y.
Proof.
  intros Hx Hxy.
  assert (Hy : (0 < y)%Q) by lra.
  destruct (binade_spec y Hy) as [Hlo Hhi].
  apply binade_unique; lra.
Qed.

Lemma round_half_even_comp (x y : Q) :
  (x == y)%Q -> Wire.round_half_even x = Wire.round_half_even y.
Proof.
  intros H. unfold Wire.round_half_even.
  rewrite (Qfloor_comp x y H).
  assert (Hc : ((x - inject_Z (Qfloor y) ?= 1 # 2) = (y - inject_Z (Qfloor y) ?= 1 # 2))%Q).
  { apply Qcompare_comp; [rewrite H|]; reflexivity. }
  rewrite Hc. reflexivity.
Qed.

Lemma round_half_even_Z (z : Z) : Wire.round_half_even (inject_Z z) = z.
Proof.
  unfold Wire.round_half_even. rewrite Qfloor_Z.
  assert (H : (inject_Z z - inject_Z z ?= 1 # 2)%Q = Lt).
  { apply Qlt_alt.
    assert (E : (inject_Z z - inject_Z z == 0)%Q) by ring.
    rewrite E. reflexivity. }
  rewrite H. reflexivity.
Qed.

(** Rounding to an integer moves a number by at most one half. *)
Lemma round_half_even_error (x : Q) :
  (Qabs (inject_Z (Wire.round_half_even x) - x) <= 1 # 2)%Q.
Proof.
  unfold Wire.round_half_even.
  pose proof (Qfloor_le x) as Hlo.
  pose proof (Qlt_floor x) as Hhi.
  rewrite inject_Z_plus in Hhi. change (inject_Z 1) with 1%Q in Hhi.
  apply Qabs_Qle_condition.
  destruct (Qcompare_spec (x - inject_Z (Qfloor x)) (1 # 2)) as [He|Hl|Hg].
  - destruct (Z.even (Qfloor x));
      rewrite ?inject_Z_plus; change (inject_Z 1) with 1%Q; split; lra.
  - split; lra.
  - rewrite inject_Z_plus. change (inject_Z 1) with 1%Q. split; lra.
Qed.

Lemma Qabs_pos_lt (x : Q) : ~ (x == 0)%Q -> (0 < Qabs x)%Q.
Proof.
  intros H. apply Qabs_case; intros Hs; [|].
  - destruct (Qlt_le_dec 0 x) as [Hl|Hl]; [exact Hl|]. exfalso. apply H. lra.
  - destruct (Qlt_le_dec x 0) as [Hl|Hl]; [lra|]. exfalso. apply H. lra.
Qed.

(** [fl] is a function of the rational, not of the fraction that writes it. *)
Lemma fl_comp (x y : Q) : (x == y)%Q -> Wire.fl x = Wire.fl y.
Proof.
  intros H. unfold Wire.fl.
  assert (Hq : Qeq_bool x 0 = Qeq_bool y 0).
  { apply Qeqb_comp; [exact H|reflexivity]. }
  rewrite Hq.
  destruct (Qeq_bool y 0) eqn:Hz; [reflexivity|].
  apply Qeq_bool_neq in Hz.
  assert (Hb : Wire.binade (Qabs x) = Wire.binade (Qabs y)).
  { apply binade_comp; [|rewrite H; reflexivity].
    apply Qabs_pos_lt. rewrite H. exact Hz. }
  rewrite Hb.
  set (ulp := Wire.two_to (Z.max (Wire.binade (Qabs y)) (-1022) - 52)).
  assert (Hr : Wire.round_half_even (x / ulp) = Wire.round_half_even (y / ulp)).
  { apply round_half_even_comp. rewrite H. reflexivity. }
  rewrite Hr.
  assert (Hs : Qle_bool 0 x = Qle_bool 0 y).
  { apply Qleb_comp; [reflexivity|exact H]. }
  rewrite Hs. reflexivity.
Qed.

Lemma Qred_inject_Z (n : Z) : Qred (inject_Z n) = inject_Z n.
Proof.
  unfold Qred, inject_Z.
  pose proof (Z.ggcd_gcd n 1) as Hg.
  pose proof (Z.ggcd_correct_divisors n 1) as Hd.
  destruct (Z.ggcd n 1) as [g [aa bb]]. cbn [fst] in Hg.
  rewrite Z.gcd_1_r in Hg. subst g. destruct Hd as [Ha Hb].
  rewrite Z.mul_1_l in Ha, Hb. subst aa bb. reflexivity.
Qed.

(** An integer below 2^53 in absolute value is a double. *)
Lemma fl_integer (x : Q) (n : Z) :
  (x == inject_Z n)%Q -> Z.abs n < 2 ^ 53 -> Wire.fl x = Wire.of_Z n.
Proof.
  intros Hx Hn. rewrite (fl_comp x (inject_Z n) Hx). clear x Hx.
  unfold Wire.fl, Wire.of_Z.
  destruct (Qeq_bool (inject_Z n) 0) eqn:Hz.
  - apply Qeq_bool_eq in Hz. f_equal.
    rewrite <- (Qred_inject_Z n). change 0%Q with (Qred 0).
    apply Qred_complete. symmetry. exact Hz.
  - apply Qeq_bool_neq in Hz.
    pose proof (Qabs_pos_lt _ Hz) as Hpos.
    destruct (binade_spec _ Hpos) as [Hlo _].
    set (b := Wire.binade (Qabs (inject_Z n))) in *.
    assert (Habs : (Qabs (inject_Z n) < Wire.two_to 53)%Q).
    { rewrite two_to_Z by lia.
      apply Qabs_Qlt_condition. rewrite <- inject_Z_opp, <- !Zlt_Qlt. lia. }
    assert (Hb : b < 53) by (apply two_to_lt_inv; lra).
    set (e := Z.max b (-1022)).
    assert (He : e <= 52) by lia.
    assert (Hu : (Wire.two_to (e - 52) * Wire.two_to (52 - e) == 1)%Q).
    { rewrite <- two_to_add. replace (e - 52 + (52 - e)) with 0 by lia. reflexivity. }
    pose proof (two_to_pos (e - 52)) as Hup.
    assert (Hm : (inject_Z n / Wire.two_to (e - 52) == inject_Z (n * 2 ^ (52 - e)))%Q).
    { rewrite inject_Z_mult, <- two_to_Z by lia.
      apply Qmult_inj_r with (z := Wire.two_to (e - 52)); [lra|].
      rewrite Qmult_comm, Qmult_div_r by lra.
      rewrite <- Qmult_assoc, (Qmult_comm (Wire.two_to (52 - e))), Hu. ring. }
    rewrite (round_half_even_comp _ _ Hm), round_half_even_Z.
    assert (Hy : (inject_Z (n * 2 ^ (52 - e)) * Wire.two_to (e - 52) == inject_Z n)%Q).
    { rewrite <- Hm. field. lra. }
    assert (Hov : Qle_bool (Wire.two_to 1024)
                    (Qabs (inject_Z (n * 2 ^ (52 - e)) * Wire.two_to (e - 52))) = false).
    { destruct (Qle_bool _ _) eqn:Ht; [|reflexivity].
      apply Qle_bool_iff in Ht. rewrite Hy in Ht.
      pose proof (two_to_lt 53 1024 ltac:(lia)). lra. }
    rewrite Hov. f_equal.
    rewrite <- (Qred_inject_Z n). apply Qred_complete. exact Hy.
Qed.

(** In the normal range, rounding to a double moves a number by at most
    [2^-53] of its size. *)
Lemma fl_error (x : Q) :
  (Wire.two_to (-1022) <= Qabs x)%Q ->
  (Qabs x < Wire.two_to 1023)%Q ->
  exists y, Wire.fl x = Wire.Finite y
            /\ (Qabs (y - x) <= Qabs x * Wire.two_to (-53))%Q.
Proof.
  intros Hlo Hhi.
  pose proof (two_to_pos (-1022)) as Hmin.
  assert (Hz : ~ (x == 0)%Q).
  { intros Hz. rewrite Hz in Hlo. change (Qabs 0) with 0%Q in Hlo. lra. }
  unfold Wire.fl.
  destruct (Qeq_bool x 0) eqn:Hq; [apply Qeq_bool_eq in Hq; contradiction|].
  pose proof (Qabs_pos_lt _ Hz) as Hpos.
  destruct (binade_spec _ Hpos) as [Hb _].
  set (b := Wire.binade (Qabs x)) in *.
  set (e := Z.max b (-1022)).
  assert (He : (Wire.two_to e <= Qabs x)%Q).
  { unfold e. destruct (Z.max_spec b (-1022)) as [[_ ->]|[_ ->]]; assumption. }
  set (u := Wire.two_to (e - 52)).
  assert (Hu : (0 < u)%Q) by apply two_to_pos.
  assert (Hu2 : (u * (1 # 2) == Wire.two_to e * Wire.two_to (-53))%Q).
  { unfold u. replace (e - 52) with (e + -53 + 1) by lia.
    rewrite !two_to_add. change (Wire.two_to 1) with 2%Q. ring. }
  set (m := Wire.round_half_even (x / u)).
  pose proof (round_half_even_error (x / u)) as Hr. fold m in Hr.
  assert (Herr : (Qabs (inject_Z m * u - x) <= u * (1 # 2))%Q).
  { assert (E : (inject_Z m * u - x == (inject_Z m - x / u) * u)%Q) by (field; lra).
    rewrite E, Qabs_Qmult, (Qabs_pos u) by lra.
    rewrite (Qmult_comm u). apply Qmult_le_compat_r; lra. }
  assert (H53 : (0 < Wire.two_to (-53))%Q) by apply two_to_pos.
  assert (Hbound : (Qabs (inject_Z m * u - x) <= Qabs x * Wire.two_to (-53))%Q).
  { eapply Qle_trans; [exact Herr|]. rewrite Hu2.
    apply Qmult_le_compat_r; lra. }
  assert (Hov : Qle_bool (Wire.two_to 1024) (Qabs (inject_Z m * u)) = false).
  { destruct (Qle_bool _ _) eqn:Ht; [|reflexivity].
    apply Qle_bool_iff in Ht.
    pose proof (Qabs_triangle (inject_Z m * u - x) x) as Htri.
    assert (E : (inject_Z m * u - x + x == inject_Z m * u)%Q) by ring.
    rewrite E in Htri.
    assert (H1 : (Wire.two_to (-53) <= 1)%Q).
    { change 1%Q with (Wire.two_to 0). apply two_to_le. lia. }
    assert (H2 : (Wire.two_to 1024 == 2 * Wire.two_to 1023)%Q).
    { change 1024 with (1 + 1023). rewrite two_to_add. reflexivity. }
    assert (H3 : (Qabs x * Wire.two_to (-53) <= Qabs x)%Q).
    { rewrite <- (Qmult_1_r (Qabs x)) at 2.
      apply Qmult_le_l; lra. }
    lra. }
  rewrite Hov. exists (Qred (inject_Z m * u)). split; [reflexivity|].
  rewrite Qred_correct. exact Hbound.
Qed.

(** ** Totals in double arithmetic *)

Lemma tax_rate_value :
  Wire.tax_rate = Wire.Finite (5764607523034235 # 72057594037927936).
Proof. vm_compute. reflexivity. Qed.

(** On a whole number of cents below 2^48 the tax computed on doubles is the
    exact one: the product with the double [0.08] is off by far less than
    the 1/50 that separates the exact product from a rounding boundary. *)
Lemma tax_of_cents (s : Z) :
  0 <= s < 2 ^ 48 ->
  Wire.Math_round (Wire.mul (Wire.of_Z s) Wire.tax_rate)
  = Wire.of_Z ((8 * s + 50) / 100).
Proof.
  intros [Hs0 Hs]. rewrite tax_rate_value.
  destruct (Z.eq_dec s 0) as [->|Hne]; [vm_compute; reflexivity|].
  unfold Wire.mul, Wire.of_Z.
  set (c := (5764607523034235 # 72057594037927936)%Q).
  assert (HS1 : (1 <= inject_Z s)%Q) by (rewrite <- (Zle_Qle 1); lia).
  assert (HS2 : (inject_Z s < inject_Z (2 ^ 48))%Q) by (rewrite <- Zlt_Qlt; exact Hs).
  change (inject_Z (2 ^ 48)) with (281474976710656 # 1)%Q in HS2.
  assert (Hpos : (0 <= inject_Z s * c)%Q) by (unfold c; lra).
  destruct (fl_error (inject_Z s * c)) as (y & Hy & Herr).
  - rewrite (Qabs_pos _ Hpos).
    eapply Qle_trans; [apply (two_to_le (-1022) (-4)); lia|].
    change (Wire.two_to (-4)) with (1 # 16)%Q. unfold c. lra.
  - rewrite (Qabs_pos _ Hpos).
    eapply Qlt_le_trans; [|apply (two_to_le 48 1023); lia].
    change (Wire.two_to 48) with (281474976710656 # 1)%Q. unfold c. lra.
  - rewrite Hy. cbn [Wire.Math_round]. do 2 f_equal.
    change (Wire.two_to (-53)) with (1 # 9007199254740992)%Q in Herr.
    pose proof (Qabs_pos _ Hpos) as Habs.
    apply Qabs_Qle_condition in Herr as [Hlo Hhi].
    rewrite <- Math_round_cents.
    apply (Math_round_cents_stable s y); unfold tax_rate, c in *; lra.
Qed.

Lemma add_of_Z (a b : Z) :
  Z.abs (a + b) < 2 ^ 53 -> Wire.add (Wire.of_Z a) (Wire.of_Z b) = Wire.of_Z (a + b).
Proof.
  intros H. unfold Wire.add, Wire.of_Z at 1 2. apply fl_integer; [|exact H].
  rewrite inject_Z_plus. reflexivity.
Qed.

Lemma mul_of_Z (a n : Z) (q : Q) :
  (q == inject_Z n)%Q -> Z.abs (a * n) < 2 ^ 53 ->
  Wire.mul (Wire.of_Z a) (Wire.Finite q) = Wire.of_Z (a * n).
Proof.
  intros Hq H. unfold Wire.mul, Wire.of_Z at 1. apply fl_integer; [|exact H].
  rewrite Hq, inject_Z_mult. reflexivity.
Qed.

Lemma whole_quantity_Some (i : Wire.LineItem) (n : Z) :
  Wire.whole_quantity i = Some n ->
  exists q, Wire.ToNumber (Wire.li_quantity i) = Ok (Wire.Finite q)
            /\ (q == inject_Z n)%Q.
Proof.
  unfold Wire.whole_quantity. intros H.
  destruct (Wire.ToNumber (Wire.li_quantity i)) as [[| |q]|]; try discriminate.
  destruct (Qeq_bool q (inject_Z (Qfloor q))) eqn:He; [|discriminate].
  injection H as <-. exists q. split; [reflexivity|].
  apply Qeq_bool_eq, He.
Qed.

Lemma exact_subtotal_nonneg (items : list Wire.LineItem) :
  Forall Wire.whole_item items -> 0 <= Wire.exact_subtotal items.
Proof.
  induction 1 as [|i items (Hp & n & Hq & Hn) _ IH]; cbn; [lia|].
  unfold Wire.exact_amount at 1. rewrite Hq. fold (Wire.exact_subtotal items). nia.
Qed.

(** With whole quantities the sum is exact as long as it stays below 2^53. *)
Lemma reduce_subtotal_whole (items : list Wire.LineItem) (acc : Z) :
  Forall Wire.whole_item items ->
  0 <= acc ->
  acc + Wire.exact_subtotal items < 2 ^ 53 ->
  Wire.reduce_subtotal items (Wire.of_Z acc)
  = Ok (Wire.of_Z (acc + Wire.exact_subtotal items)).
Proof.
  intros Hall. revert acc.
  induction Hall as [|i items (Hp & n & Hq & Hn) Hall IH]; intros acc Hacc Hb.
  - cbn. rewrite Z.add_0_r. reflexivity.
  - pose proof (exact_subtotal_nonneg items Hall) as Hrest.
    cbn [Wire.exact_subtotal foldr] in Hb |- *. fold (Wire.exact_subtotal items) in Hb |- *.
    assert (Ha : Wire.exact_amount i = item_price (Wire.li_item i) * n).
    { unfold Wire.exact_amount. rewrite Hq. reflexivity. }
    destruct (whole_quantity_Some i n Hq) as (q & Hnum & Hqn).
    cbn [Wire.reduce_subtotal]. rewrite Hnum. cbn [Wire.and_then].
    assert (Hmul : Wire.mul (Wire.of_Z (item_price (Wire.li_item i))) (Wire.Finite q)
                   = Wire.of_Z (Wire.exact_amount i)).
    { rewrite Ha. apply mul_of_Z; [exact Hqn|]. rewrite Ha in Hb. nia. }
    rewrite Hmul.
    assert (Hadd : Wire.add (Wire.of_Z acc) (Wire.of_Z (Wire.exact_amount i))
                   = Wire.of_Z (acc + Wire.exact_amount i)).
    { apply add_of_Z. rewrite Ha in *. nia. }
    rewrite Hadd, IH; [f_equal; f_equal; lia| rewrite Ha; nia | lia].
Qed.

(** C7, as amended.  On line items with whole quantities [calculateTotals]
    returns three entries, in the order subtotal, tax, total: the subtotal
    is the sum of unit price times quantity, the tax is the subtotal times
    0.08 rounded half up, [(8 s + 50) / 100] on [s] cents, and the total is
    their sum.  The arithmetic of the server is that of doubles; it is the
    exact one here because every intermediate value is a whole number below
    2^53 and the product with [0.08] stays clear of the rounding boundaries
    for subtotals below 2^48 cents. *)
Theorem calculateTotals_subtotal_tax_total (lineItems : list Wire.LineItem) :
  Forall Wire.whole_item lineItems ->
  Wire.exact_subtotal lineItems < 2 ^ 48 ->
  Wire.calculateTotals lineItems =
    Ok [ Wire.mkTotal "subtotal" (Wire.of_Z (Wire.exact_subtotal lineItems)) (Some "Subtotal");
         Wire.mkTotal "tax" (Wire.of_Z ((8 * Wire.exact_subtotal lineItems + 50) / 100))
           (Some "Tax (8%)");
         Wire.mkTotal "total"
           (Wire.of_Z (Wire.exact_subtotal lineItems + (8 * Wire.exact_subtotal lineItems + 50) / 100))
           (Some "Total") ]
  /\ round_half_up (inject_Z (Wire.exact_subtotal lineItems) * (8 # 100))
       ((8 * Wire.exact_subtotal lineItems + 50) / 100).
Proof.
  intros Hall Hs.
  pose proof (exact_subtotal_nonneg lineItems Hall) as H0.
  set (s := Wire.exact_subtotal lineItems) in *.
  split.
  - unfold Wire.calculateTotals.
    change (Wire.Finite 0) with (Wire.of_Z 0).
    rewrite (reduce_subtotal_whole lineItems 0 Hall ltac:(lia)) by (fold s; lia).
    fold s. rewrite Z.add_0_l. cbn [Wire.and_then].
    rewrite tax_of_cents by lia.
    rewrite add_of_Z; [reflexivity|].
    assert (Ht : 0 <= (8 * s + 50) / 100 <= s + 1).
    { split; [apply Z.div_pos; lia|].
      apply Z.div_le_upper_bound; lia. }
    change (2 ^ 48) with 281474976710656 in Hs.
    change (2 ^ 53) with 9007199254740992. lia.
  - rewrite <- Math_round_cents. apply Math_round_half_up.
Qed.

Lemma calculateTotals_subtotal_tax_total_witness :
  Wire.calculateTotals [Wire.twelve_roses] =
    Ok [ Wire.mkTotal "subtotal" (Wire.of_Z 3588) (Some "Subtotal");
         Wire.mkTotal "tax" (Wire.of_Z 287) (Some "Tax (8%)");
         Wire.mkTotal "total" (Wire.of_Z 3875) (Some "Total") ].
Proof.
  assert (Hw : Forall Wire.whole_item [Wire.twelve_roses]).
  { constructor; [|constructor]. split; [vm_compute; discriminate|].
    exists 12. split; [vm_compute; reflexivity|lia]. }
  exact (proj1 (calculateTotals_subtotal_tax_total [Wire.twelve_roses] Hw eq_refl)).
Defined.

(** C7, as stated, fails on the quantities the server accepts.  With a
    fractional quantity the product of price and quantity is rounded to a
    double before it is added: red roses
    in the quantity 37.688127090301 give the subtotal 11268.75 and the tax
    902, while unit price times quantity is below 11268.75 and rounds, times
    0.08, to 901. *)
Lemma calculateTotals_rounds_fractional_amounts :
  Wire.validate_entry
    (Wire.JObj [("item", Wire.JObj [("id", Wire.JStr "1")]);
                ("quantity", Wire.JNum Wire.fractional_quantity)]) = Ok tt
  /\ Wire.calculateTotals [Wire.fractional_roses] =
       Ok [ Wire.mkTotal "subtotal" (Wire.Finite (45075 # 4)) (Some "Subtotal");
            Wire.mkTotal "tax" (Wire.of_Z 902) (Some "Tax (8%)");
            Wire.mkTotal "total" (Wire.Finite (48683 # 4)) (Some "Total") ]
  /\ exists q, Wire.fractional_quantity = Wire.Finite q
               /\ (299 * q < 45075 # 4)%Q
               /\ round_half_up (299 * q * (8 # 100)) 901.
Proof.
  split; [vm_compute; reflexivity|].
  split; [vm_compute; reflexivity|].
  eexists. split; [vm_compute; reflexivity|].
  split; [reflexivity|]. split; [discriminate|reflexivity].
Qed.

(** ** Reading and validating a body *)

Lemma get_readable (k : string) (body : Wire.Value) :
  Wire.readable body = true -> Wire.get k body = Ok (Wire.get_opt k body).
Proof. destruct body as [[]|]; (discriminate || reflexivity). Qed.

Lemma get_unreadable (k : string) (body : Wire.Value) :
  Wire.readable body = false -> exists m, Wire.get k body = Throw m.
Proof. destruct body as [[]|]; try discriminate; intros _; eexists; reflexivity. Qed.

Lemma lt_of_Z (a b : Z) : Wire.lt (Wire.of_Z a) (Wire.of_Z b) = (a <? b)%Z.
Proof.
  unfold Wire.lt, Wire.of_Z, Qltb, Qle_bool, inject_Z. cbn [Qnum Qden].
  rewrite !Z.mul_1_r. destruct (Z.ltb_spec a b), (Z.leb_spec b a); (reflexivity || lia).
Qed.

(** [validateLineItems] accepts an entry exactly when [item.id] is truthy
    and the quantity is acceptable. *)
Lemma validate_entry_spec (item : Wire.Json) :
  (Wire.entry_valid item = true /\ Wire.validate_entry item = Ok tt)
  \/ (Wire.entry_valid item = false /\ exists m, Wire.validate_entry item = Throw m).
Proof.
  unfold Wire.entry_valid, Wire.validate_entry.
  destruct (Wire.readable (Some item)) eqn:Hr.
  - rewrite !(get_readable _ _ Hr). cbn [Wire.and_then].
    destruct (Wire.truthy (Wire.get_opt "id" (Wire.get_opt "item" (Some item))));
      cbn [negb andb]; [|right; split; [reflexivity|eexists; reflexivity]].
    unfold Wire.acceptable, Wire.less_than, Wire.greater_than.
    destruct (Wire.truthy (Wire.get_opt "quantity" (Some item)));
      cbn [negb andb]; [|right; split; [reflexivity|eexists; reflexivity]].
    destruct (Wire.ToNumber (Wire.get_opt "quantity" (Some item))) as [n|m];
      cbn [Wire.and_then]; [|right; split; [reflexivity|eexists; reflexivity]].
    destruct (Wire.lt n (Wire.of_Z 1));
      cbn [negb andb]; [right; split; [reflexivity|eexists; reflexivity]|].
    destruct (Wire.lt (Wire.of_Z 100) n); cbn [negb];
      [right; split; [reflexivity|eexists; reflexivity]|].
    left. split; reflexivity.
  - destruct item; try discriminate. right. split; [reflexivity|eexists; reflexivity].
Qed.

Lemma validate_entries_spec (l : list Wire.Json) :
  (forallb Wire.entry_valid l = true /\ Wire.validate_entries l = Ok tt)
  \/ (forallb Wire.entry_valid l = false /\ exists m, Wire.validate_entries l = Throw m).
Proof.
  induction l as [|item l IH]; [left; split; reflexivity|].
  cbn [forallb Wire.validate_entries].
  destruct (validate_entry_spec item) as [[-> ->]|[-> (m & ->)]]; cbn [andb Wire.and_then].
  - exact IH.
  - right. split; [reflexivity|eexists; reflexivity].
Qed.

Lemma validateLineItems_spec (lineItems : Wire.Value) :
  (Wire.valid_array lineItems = true /\ Wire.validateLineItems lineItems = Ok tt)
  \/ (Wire.valid_array lineItems = false
      /\ exists m, Wire.validateLineItems lineItems = Throw m).
Proof.
  unfold Wire.valid_array, Wire.validateLineItems.
  destruct lineItems as [[| | | |[|item rest]|]|];
    try (right; split; [reflexivity|eexists; reflexivity]).
  apply validate_entries_spec.
Qed.

Lemma acceptable_ToNumber (quantity : Wire.Value) :
  Wire.acceptable quantity = true -> exists n, Wire.ToNumber quantity = Ok n.
Proof.
  unfold Wire.acceptable. intros H. apply andb_prop in H as [_ H].
  destruct (Wire.ToNumber quantity) as [n|]; [exists n; reflexivity|discriminate].
Qed.

(** ** Building line items *)

Lemma wire_set_lineItemCounter_same (st : Wire.State) :
  Wire.set_lineItemCounter (Wire.lineItemCounter st) st = st.
Proof. destruct st; reflexivity. Qed.

Lemma set_lineItemCounter_twice (a b : Z) (st : Wire.State) :
  Wire.set_lineItemCounter a (Wire.set_lineItemCounter b st) = Wire.set_lineItemCounter a st.
Proof. reflexivity. Qed.

(** What [createLineItem] makes of an acceptable quantity: nothing for an
    unknown product, and otherwise a line item that keeps the quantity as it
    came; only the counter moves, and never back. *)
Lemma createLineItem_acceptable (now : Z) (productId quantity : Wire.Value)
    (st : Wire.State) :
  Wire.acceptable quantity = true ->
  exists counter x,
    Wire.createLineItem now productId quantity st
    = (Wire.set_lineItemCounter counter st, Ok x)
    /\ Wire.lineItemCounter st <= counter
    /\ forall i, x = Some i -> Wire.li_quantity i = quantity.
Proof.
  intros Hq. destruct (acceptable_ToNumber _ Hq) as (n & Hn).
  unfold Wire.createLineItem.
  destruct (Wire.find_product productId) as [product|].
  - unfold Wire.bind, Wire.increment, Wire.lift, Wire.ret. rewrite Hn.
    eexists _, _. split; [reflexivity|]. split.
    + cbn. destruct (Wire.lineItemCounter st <? 2 ^ 53)%Z; lia.
    + intros i [= <-]. reflexivity.
  - exists (Wire.lineItemCounter st), None.
    rewrite wire_set_lineItemCounter_same. split; [reflexivity|]. split; [lia|discriminate].
Qed.

Lemma entry_valid_parts (li : Wire.Json) :
  Wire.entry_valid li = true ->
  Wire.readable (Some li) = true
  /\ Wire.readable (Wire.get_opt "item" (Some li)) = true
  /\ Wire.acceptable (Wire.get_opt "quantity" (Some li)) = true.
Proof.
  unfold Wire.entry_valid. intros H. apply andb_prop in H as [Hid Hq].
  split; [|split; [|exact Hq]].
  - destruct li; try reflexivity. discriminate.
  - destruct (Wire.get_opt "item" (Some li)) as [[]|]; try reflexivity; discriminate.
Qed.

Lemma create_from_entry_valid (now : Z) (li : Wire.Json) (st : Wire.State) :
  Wire.entry_valid li = true ->
  exists counter x,
    Wire.create_from_entry now li st = (Wire.set_lineItemCounter counter st, Ok x)
    /\ Wire.lineItemCounter st <= counter
    /\ forall i, x = Some i -> Wire.acceptable (Wire.li_quantity i) = true.
Proof.
  intros Hv. destruct (entry_valid_parts li Hv) as (Hr & Hi & Hq).
  unfold Wire.create_from_entry.
  rewrite !(get_readable _ _ Hr). unfold Wire.bind at 1. cbn [Wire.lift].
  rewrite (get_readable _ _ Hi). unfold Wire.bind at 1. cbn [Wire.lift].
  unfold Wire.bind at 1. cbn [Wire.lift].
  destruct (createLineItem_acceptable now
              (Wire.get_opt "id" (Wire.get_opt "item" (Some li)))
              (Wire.get_opt "quantity" (Some li)) st Hq)
    as (counter & x & Hc & Hle & Hx).
  exists counter, x. split; [exact Hc|]. split; [exact Hle|].
  intros i Hi'. rewrite (Hx i Hi'). exact Hq.
Qed.

(** The items built from validated entries: all of them are built, only the
    counter moves, and every quantity is an acceptable one. *)
Lemma map_createLineItem_valid (now : Z) (l : list Wire.Json) (st : Wire.State) :
  forallb Wire.entry_valid l = true ->
  exists counter mapped,
    Wire.map_createLineItem now l st = (Wire.set_lineItemCounter counter st, Ok mapped)
    /\ Wire.lineItemCounter st <= counter
    /\ Forall (fun i => Wire.acceptable (Wire.li_quantity i) = true)
         (Wire.filter_not_null mapped).
Proof.
  revert st. induction l as [|li l IH]; intros st Hall.
  - exists (Wire.lineItemCounter st), [].
    cbn. rewrite wire_set_lineItemCounter_same. split; [reflexivity|]. split; [lia|constructor].
  - cbn [forallb] in Hall. apply andb_prop in Hall as [Hv Hall].
    destruct (create_from_entry_valid now li st Hv) as (c1 & x & H1 & Hle1 & Hx).
    destruct (IH (Wire.set_lineItemCounter c1 st) Hall) as (c2 & xs & H2 & Hle2 & Hxs).
    exists c2, (x :: xs).
    cbn [Wire.map_createLineItem]. unfold Wire.bind at 1. rewrite H1.
    unfold Wire.bind at 1. rewrite H2. cbn [Wire.ret].
    split; [reflexivity|]. split; [cbn in Hle2; lia|].
    unfold Wire.filter_not_null in *. destruct x as [i|]; cbn [omap].
    + constructor; [apply Hx; reflexivity|exact Hxs].
    + exact Hxs.
Qed.

Lemma reduce_subtotal_acceptable (items : list Wire.LineItem) (sum : Wire.number) :
  Forall (fun i => Wire.acceptable (Wire.li_quantity i) = true) items ->
  exists subtotal, Wire.reduce_subtotal items sum = Ok subtotal.
Proof.
  intros Hall. revert sum. induction Hall as [|i items Hi _ IH]; intros sum.
  - exists sum. reflexivity.
  - destruct (acceptable_ToNumber _ Hi) as (n & Hn).
    cbn [Wire.reduce_subtotal]. rewrite Hn. cbn [Wire.and_then]. apply IH.
Qed.

(** [calculateTotals] does not throw on items with acceptable quantities. *)
Lemma calculateTotals_acceptable (items : list Wire.LineItem) :
  Forall (fun i => Wire.acceptable (Wire.li_quantity i) = true) items ->
  exists totals, Wire.calculateTotals items = Ok totals.
Proof.
  intros Hall. unfold Wire.calculateTotals.
  destruct (reduce_subtotal_acceptable items (Wire.Finite 0) Hall) as (s & ->).
  eexists. reflexivity.
Qed.

(** ** Sanitising the buyer *)

Lemma clean_sanitizeEmail (v : Wire.Value) :
  (Wire.quiet v = true /\ exists o, Wire.clean Wire.sanitizeEmail v = Ok o)
  \/ (Wire.quiet v = false /\ exists m, Wire.clean Wire.sanitizeEmail v = Throw m).
Proof.
  unfold Wire.quiet, Wire.clean, Wire.sanitizeEmail.
  destruct (Wire.truthy v) eqn:Ht; cbn [negb orb].
  - destruct v as [[| | |e| |]|]; cbn [Wire.and_then];
      try (right; split; [reflexivity|eexists; reflexivity]).
    left. split; [reflexivity|eexists; reflexivity].
  - left. split; [reflexivity|eexists; reflexivity].
Qed.

Lemma clean_sanitizeName (v : Wire.Value) :
  (Wire.quiet v = true /\ exists o, Wire.clean Wire.sanitizeName v = Ok o)
  \/ (Wire.quiet v = false /\ exists m, Wire.clean Wire.sanitizeName v = Throw m).
Proof.
  unfold Wire.quiet, Wire.clean, Wire.sanitizeName.
  destruct (Wire.truthy v) eqn:Ht; cbn [negb orb].
  - destruct v as [[| | |e| |]|]; cbn [Wire.and_then];
      try (right; split; [reflexivity|eexists; reflexivity]).
    left. split; [reflexivity|eexists; reflexivity].
  - left. split; [reflexivity|eexists; reflexivity].
Qed.

(** ** Creating a checkout *)

(** One statement of a block: the first [bind] of the equation [H] is run. *)
Ltac step H := unfold Wire.bind at 1 in H; cbn [Wire.lift] in H.

Lemma greater_than_length (n : nat) :
  Wire.greater_than (Some (Wire.JNum (Wire.of_Z (Z.of_nat n)))) (Wire.of_Z 0)
  = Ok (0 <? n)%nat.
Proof.
  unfold Wire.greater_than. cbn [Wire.ToNumber Wire.unprintable Wire.number_of Wire.and_then].
  rewrite lt_of_Z. f_equal.
  destruct (Z.ltb_spec 0 (Z.of_nat n)), (Nat.ltb_spec 0 n); (reflexivity || lia).
Qed.

Lemma str_nonempty_length (s : string) :
  str_nonempty s = (0 <? String.length s)%nat.
Proof. destruct s; reflexivity. Qed.

(** The first statements of [POST]: the guard on [line_items], the
    validation and the receiver of [map].  Together they let through a falsy
    member, the empty array and a valid array, and nothing else. *)
Lemma create_stage (line_items : Wire.Value) :
  let nonempty :=
    if Wire.truthy line_items
    then Wire.greater_than (Wire.length_of line_items) (Wire.of_Z 0)
    else Ok false in
  let entries :=
    if Wire.truthy line_items
    then Wire.array_entries "(line_items || [])" line_items
    else Ok [] in
  (negb (Wire.truthy line_items) || Wire.empty_array line_items
   || Wire.valid_array line_items = true
   /\ exists b l,
        nonempty = Ok b
        /\ (if b then Wire.validateLineItems line_items else Ok tt) = Ok tt
        /\ entries = Ok l
        /\ forallb Wire.entry_valid l = true)
  \/ (negb (Wire.truthy line_items) || Wire.empty_array line_items
      || Wire.valid_array line_items = false
      /\ ((exists m, nonempty = Throw m)
          \/ (exists b m,
                nonempty = Ok b
                /\ (if b then Wire.validateLineItems line_items else Ok tt) = Throw m)
          \/ (exists b m,
                nonempty = Ok b
                /\ (if b then Wire.validateLineItems line_items else Ok tt) = Ok tt
                /\ entries = Throw m))).
Proof.
  cbv zeta.
  destruct (Wire.truthy line_items) eqn:Ht; cbn [negb orb].
  2:{ left. split; [reflexivity|]. exists false, []. repeat split. }
  destruct line_items as [[|b|x|s|l|members]|]; try discriminate.
  - right. split; [reflexivity|]. right. right.
    exists false. eexists. repeat split.
  - right. split; [reflexivity|]. right. right.
    exists false. eexists. cbn [Wire.length_of]. unfold Wire.greater_than.
    cbn [Wire.ToNumber Wire.and_then Wire.lt]. repeat split.
  - right. split; [reflexivity|]. right. left.
    cbn [Wire.length_of]. rewrite greater_than_length.
    cbn [Wire.truthy] in Ht. rewrite str_nonempty_length in Ht. rewrite Ht.
    exists true. eexists. split; reflexivity.
  - cbn [Wire.length_of]. rewrite greater_than_length.
    destruct l as [|item rest].
    + left. split; [reflexivity|]. exists false, []. repeat split.
    + cbn [length Nat.ltb Nat.leb].
      destruct (validateLineItems_spec (Some (Wire.JArr (item :: rest))))
        as [[Hv Hok]|[Hv (m & Hm)]]; cbn [Wire.empty_array orb]; rewrite Hv.
      * left. split; [reflexivity|]. exists true, (item :: rest).
        repeat split; [exact Hok|exact Hv].
      * right. split; [reflexivity|]. right. left. exists true, m. split; [reflexivity|exact Hm].
  - right. split; [reflexivity|].
    destruct (Wire.greater_than (Wire.length_of (Some (Wire.JObj members))) (Wire.of_Z 0))
      as [[|]|m].
    + right. left. exists true. eexists. split; reflexivity.
    + right. right. exists false. eexists. repeat split.
    + left. exists m. reflexivity.
Qed.

Lemma remember_frame (key : option string) (c : Wire.Checkout) (st : Wire.State) :
  Wire.checkouts (Wire.remember key c st).1 = Wire.checkouts st
  /\ Wire.buyers (Wire.remember key c st).1 = Wire.buyers st
  /\ Wire.lineItemCounter (Wire.remember key c st).1 = Wire.lineItemCounter st
  /\ (Wire.remember key c st).2 = Ok tt.
Proof.
  unfold Wire.remember. destruct key as [k|]; [destruct (str_nonempty k)|];
    repeat split.
Qed.

(** The last statements of the three mutating handlers. *)
Lemma store_remember_respond (code : Z) (id : string) (key : option string)
    (c : Wire.Checkout) (st : Wire.State) :
  Wire.bind (Wire.store id c)
    (fun _ => Wire.bind (Wire.remember key c) (fun _ => Wire.respond code c)) st
  = ((Wire.remember key c (Wire.set_checkouts (insert id c) st)).1,
     Ok (Wire.mkResponse code (Wire.CheckoutBody (Wire.render (Wire.buyers st) c)))).
Proof.
  unfold Wire.bind, Wire.store, Wire.respond.
  destruct (remember_frame key c (Wire.set_checkouts (insert id c) st))
    as (_ & Hb & _ & Hr).
  destruct (Wire.remember key c (Wire.set_checkouts (insert id c) st)) as [st' r].
  cbn [fst snd] in *. subst r. rewrite Hb. reflexivity.
Qed.

(** [POST], case by case.  A body that is not accepted is answered 400 and
    leaves the checkouts, the records and the buyers alone; the counter has
    advanced when line items were built before the failure.  An accepted
    body stores a checkout built from it. *)
Lemma wire_createCheckout_cases (st : Wire.State) (now : Z) (key : option string)
    (body : Wire.Value) :
  (Wire.create_accepts now body = false
   /\ Wire.invalid_request (Wire.createCheckout st now key body).2
   /\ Wire.same_store st (Wire.createCheckout st now key body).1
   /\ Wire.lineItemCounter st
      <= Wire.lineItemCounter (Wire.createCheckout st now key body).1)
  \/ (Wire.create_accepts now body = true
      /\ exists c b counter,
           Wire.createCheckout st now key body
           = ((Wire.remember key c
                 (Wire.set_checkouts (insert ("chk_" +:+ pretty now) c)
                    (Wire.set_buyers (Wire.buyers st ++ [b])
                       (Wire.set_lineItemCounter counter st)))).1,
              Wire.mkResponse 201
                (Wire.CheckoutBody (Wire.render (Wire.buyers st ++ [b]) c)))
           /\ Wire.lineItemCounter st <= counter
           /\ Wire.checkout_id c = "chk_" +:+ pretty now
           /\ Wire.buyer c = length (Wire.buyers st)
           /\ Forall (fun i => Wire.acceptable (Wire.li_quantity i) = true)
                (Wire.line_items c)
           /\ Wire.calculateTotals (Wire.line_items c) = Ok (Wire.totals c)
           /\ Wire.messages c = validateCheckout (Some b)
           /\ Wire.status c = Wire.determineStatus (Some b) (Wire.line_items c)
           /\ Wire.order c = None
           /\ Wire.expires_at c = now + six_hours).
Proof.
  destruct (Wire.createCheckout st now key body) as [st' r] eqn:Hrun. cbn [fst snd].
  unfold Wire.createCheckout, Wire.try_catch, Wire.create_block in Hrun.
  unfold Wire.create_accepts.
  destruct (Wire.readable body) eqn:Hr; cbn [andb].
  2:{ destruct (get_unreadable "line_items" body Hr) as (m & Hg).
      rewrite Hg in Hrun. step Hrun. injection Hrun as <- <-.
      left. split; [reflexivity|]. split; [eexists; reflexivity|].
      split; [repeat split|lia]. }
  rewrite !(get_readable _ _ Hr) in Hrun. do 3 step Hrun.
  set (line_items := Wire.get_opt "line_items" body) in *.
  destruct (create_stage line_items)
    as [[Hacc (b & l & Hn & Hval & He & Hl)]
       |[Hacc [(m & Hn)|[(b & m & Hn & Hval)|(b & m & Hn & Hval & He)]]]];
    cbv zeta in *; rewrite Hacc; rewrite Hn in Hrun; cbn [andb]; step Hrun.
  2:{ injection Hrun as <- <-.
      left. split; [reflexivity|]. split; [eexists; reflexivity|].
      split; [repeat split|lia]. }
  2:{ rewrite Hval in Hrun. step Hrun. injection Hrun as <- <-.
      left. split; [reflexivity|]. split; [eexists; reflexivity|].
      split; [repeat split|lia]. }
  2:{ rewrite Hval in Hrun. step Hrun. rewrite He in Hrun. step Hrun.
      injection Hrun as <- <-.
      left. split; [reflexivity|]. split; [eexists; reflexivity|].
      split; [repeat split|lia]. }
  rewrite Hval in Hrun. step Hrun. rewrite He in Hrun. step Hrun. clear Hacc.
  destruct (map_createLineItem_valid now l st Hl) as (counter & mapped & Hm & Hle & Hacc).
  unfold Wire.bind at 1 in Hrun. rewrite Hm in Hrun.
  unfold Wire.quiet_buyer.
  destruct (clean_sanitizeEmail (Wire.get_opt "email" (Wire.get_opt "buyer" body)))
    as [[-> (e & Hce)]|[-> (m & Hce)]]; rewrite Hce in Hrun; cbn [andb]; step Hrun.
  2:{ injection Hrun as <- <-.
      left. split; [reflexivity|]. split; [eexists; reflexivity|].
      split; [repeat split|exact Hle]. }
  destruct (clean_sanitizeName (Wire.get_opt "full_name" (Wire.get_opt "buyer" body)))
    as [[-> (n & Hcn)]|[-> (m & Hcn)]]; rewrite Hcn in Hrun; cbn [andb]; step Hrun.
  2:{ injection Hrun as <- <-.
      left. split; [reflexivity|]. split; [eexists; reflexivity|].
      split; [repeat split|exact Hle]. }
  destruct (calculateTotals_acceptable _ Hacc) as (totals & Ht).
  rewrite Ht in Hrun. step Hrun.
  unfold Wire.toISOString in Hrun. unfold Wire.in_time.
  destruct (Z.abs (now + six_hours) <=? 8640000000000000)%Z; step Hrun.
  2:{ injection Hrun as <- <-.
      left. split; [reflexivity|]. split; [eexists; reflexivity|].
      split; [repeat split|exact Hle]. }
  right. split; [reflexivity|].
  unfold Wire.bind at 1 in Hrun. cbn [Wire.allocate] in Hrun.
  rewrite store_remember_respond in Hrun.
  eexists _, (mkBuyer e n), counter. split; [symmetry; exact Hrun|].
  cbn. repeat split; try assumption.
Qed.

Lemma createCheckout_accepted (st : Wire.State) (now : Z) (key : option string)
    (body : Wire.Value) :
  Wire.create_accepts now body = true ->
  Wire.http_status (Wire.createCheckout st now key body).2 = 201.
Proof.
  intros Hacc.
  destruct (wire_createCheckout_cases st now key body)
    as [(Hno & _)|(_ & c & b & counter & Hrun & _)]; [congruence|].
  rewrite Hrun. reflexivity.
Qed.

(** X12.  [POST] answers 201 exactly for the bodies [create_accepts]
    describes: the body can be destructured; [line_items] is falsy, the
    empty array, or a non-empty array of entries with a truthy [item.id] and
    an acceptable quantity; the email and the name of the buyer are falsy or
    strings; and the expiry is a date.  Every other body is answered 400
    [invalid_request]; the checkouts, the records and the buyer objects are
    then as before, but the line-item counter may have advanced: the line
    items are built before the buyer is sanitised. *)
Theorem create_accepts_iff (st : Wire.State) (now : Z) (key : option string)
    (body : Wire.Value) :
  (Wire.http_status (Wire.createCheckout st now key body).2 = 201
   <-> Wire.create_accepts now body = true)
  /\ (Wire.create_accepts now body = false ->
      Wire.invalid_request (Wire.createCheckout st now key body).2
      /\ Wire.same_store st (Wire.createCheckout st now key body).1
      /\ Wire.lineItemCounter st
         <= Wire.lineItemCounter (Wire.createCheckout st now key body).1).
Proof.
  destruct (wire_createCheckout_cases st now key body)
    as [(Hacc & (m & Hr) & Hs & Hc)|(Hacc & c & b & counter & Hrun & _)].
  - split.
    + rewrite Hr, Hacc. split; discriminate.
    + intros _. split; [exists m; exact Hr|]. split; assumption.
  - split.
    + rewrite Hrun, Hacc. split; reflexivity.
    + rewrite Hacc. discriminate.
Qed.

Lemma create_accepts_iff_witness :
  Wire.invalid_request (Wire.createCheckout Wire.initial 1000 None Wire.roses_email_5).2
  /\ Wire.same_store Wire.initial
       (Wire.createCheckout Wire.initial 1000 None Wire.roses_email_5).1
  /\ Wire.lineItemCounter (Wire.createCheckout Wire.initial 1000 None Wire.roses_email_5).1
     = 1.
Proof.
  destruct (proj2 (create_accepts_iff Wire.initial 1000 None Wire.roses_email_5) eq_refl)
    as (H1 & H2 & _).
  split; [exact H1|]. split; [exact H2|reflexivity].
Defined.

(** ** Updating a checkout *)

Lemma set_checkouts_insert (id : string) (c1 c2 : Wire.Checkout) (st : Wire.State) :
  Wire.set_checkouts (insert id c2) (Wire.set_checkouts (insert id c1) st)
  = Wire.set_checkouts (insert id c2) st.
Proof. unfold Wire.set_checkouts. cbn. rewrite insert_insert_eq. reflexivity. Qed.

Lemma set_checkouts_same (id : string) (c : Wire.Checkout) (st : Wire.State) :
  Wire.checkouts st !! id = Some c -> Wire.set_checkouts (insert id c) st = st.
Proof.
  intros H. destruct st. unfold Wire.set_checkouts. cbn in *.
  rewrite insert_id by exact H. reflexivity.
Qed.

(** The block [if (line_items) { ... }] of [PUT]: an invalid member throws
    before anything is assigned; a valid one leaves the checkout with new
    line items, all with acceptable quantities, and their totals. *)
Lemma wire_replace_line_items_cases (now : Z) (id : string) (c : Wire.Checkout)
    (line_items : Wire.Value) (st : Wire.State) :
  (Wire.valid_array line_items = false
   /\ exists m, Wire.replace_line_items now id c line_items st = (st, Throw m))
  \/ (Wire.valid_array line_items = true
      /\ exists counter items totals,
           Wire.replace_line_items now id c line_items st
           = (Wire.set_checkouts
                (insert id (Wire.with_totals totals (Wire.with_line_items items c)))
                (Wire.set_lineItemCounter counter st),
              Ok (Wire.with_totals totals (Wire.with_line_items items c)))
           /\ Wire.lineItemCounter st <= counter
           /\ Forall (fun i => Wire.acceptable (Wire.li_quantity i) = true) items
           /\ Wire.calculateTotals items = Ok totals
           /\ Wire.built now st line_items counter items).
Proof.
  destruct (Wire.replace_line_items now id c line_items st) as [st' r] eqn:Hrun.
  unfold Wire.replace_line_items in Hrun.
  destruct (validateLineItems_spec line_items) as [[Hv Hok]|[Hv (m & Hm)]].
  2:{ rewrite Hm in Hrun. step Hrun. injection Hrun as <- <-.
      left. split; [exact Hv|]. exists m. reflexivity. }
  rewrite Hok in Hrun. step Hrun.
  right. split; [exact Hv|].
  unfold Wire.valid_array in Hv.
  destruct line_items as [[| | | |[|item rest]|]|]; try discriminate.
  cbn [Wire.array_entries] in Hrun. step Hrun.
  destruct (map_createLineItem_valid now (item :: rest) st Hv)
    as (counter & mapped & Hm & Hle & Hacc).
  unfold Wire.bind at 1 in Hrun. rewrite Hm in Hrun.
  destruct (calculateTotals_acceptable _ Hacc) as (totals & Ht).
  exists counter, (Wire.filter_not_null mapped), totals.
  split; [|split; [exact Hle|split; [exact Hacc|split; [exact Ht|]]]].
  2:{ exists (item :: rest), mapped. repeat split. exact Hm. }
  unfold Wire.bind, Wire.assign, Wire.lift, Wire.ret in Hrun. rewrite Ht in Hrun.
  rewrite set_checkouts_insert in Hrun. symmetry. exact Hrun.
Qed.

(** The block [if (buyer) { ... }] of [PUT] assigns to the buyer object at
    [ref] and to nothing else; it throws exactly when the email or the name
    is truthy and no string, and the email may have been assigned by then. *)
Lemma patch_buyer_cases (ref : nat) (buyer : Wire.Value) (st : Wire.State) :
  exists f,
    (Wire.patch_buyer ref buyer st).1 = Wire.set_buyers (alter f ref (Wire.buyers st)) st
    /\ ((Wire.quiet (Wire.get_opt "email" buyer)
         && Wire.quiet (Wire.get_opt "full_name" buyer) = true
         /\ (Wire.patch_buyer ref buyer st).2 = Ok tt)
        \/ (Wire.quiet (Wire.get_opt "email" buyer)
            && Wire.quiet (Wire.get_opt "full_name" buyer) = false
            /\ exists m, (Wire.patch_buyer ref buyer st).2 = Throw m)).
Proof.
  assert (Hid : Wire.set_buyers (alter (fun b => b) ref (Wire.buyers st)) st = st).
  { destruct st. unfold Wire.set_buyers. cbn. rewrite list_alter_id by reflexivity.
    reflexivity. }
  destruct (Wire.patch_buyer ref buyer st) as [st' r] eqn:Hrun. cbn [fst snd].
  unfold Wire.patch_buyer in Hrun.
  destruct (clean_sanitizeEmail (Wire.get_opt "email" buyer))
    as [[-> (e & He)]|[-> (m & He)]]; rewrite He in Hrun; cbn [andb]; step Hrun.
  2:{ injection Hrun as <- <-. exists (fun b => b). rewrite Hid. split; [reflexivity|].
      right. split; [reflexivity|]. exists m. reflexivity. }
  destruct (clean_sanitizeName (Wire.get_opt "full_name" buyer))
    as [[-> (n & Hn)]|[-> (m & Hn)]].
  - destruct e as [e|], n as [n|];
      unfold Wire.bind, Wire.assign_buyer, Wire.ret, Wire.lift in Hrun;
      rewrite Hn in Hrun; cbn [Wire.buyers Wire.set_buyers] in Hrun;
      injection Hrun as <- <-.
    + exists (Wire.with_full_name n ∘ Wire.with_email e).
      rewrite list_alter_alter_eq. split; [reflexivity|]. left. split; reflexivity.
    + exists (Wire.with_email e). split; [reflexivity|]. left. split; reflexivity.
    + exists (Wire.with_full_name n). split; [reflexivity|]. left. split; reflexivity.
    + exists (fun b => b). rewrite Hid. split; [reflexivity|]. left. split; reflexivity.
  - destruct e as [e|];
      unfold Wire.bind, Wire.assign_buyer, Wire.ret, Wire.lift in Hrun;
      rewrite Hn in Hrun; cbn [Wire.buyers Wire.set_buyers] in Hrun;
      injection Hrun as <- <-.
    + exists (Wire.with_email e). split; [reflexivity|].
      right. split; [reflexivity|]. exists m. reflexivity.
    + exists (fun b => b). rewrite Hid. split; [reflexivity|].
      right. split; [reflexivity|]. exists m. reflexivity.
Qed.

Lemma falsy_get_opt (k : string) (v : Wire.Value) :
  Wire.truthy v = false -> Wire.get_opt k v = None.
Proof. destruct v as [[]|]; (discriminate || reflexivity). Qed.

(** The statement [if (line_items) { ... }] of [PUT]. *)
Lemma update_line_items_stage (now : Z) (id : string) (c : Wire.Checkout)
    (line_items : Wire.Value) (st : Wire.State) :
  Wire.checkouts st !! id = Some c ->
  (Wire.truthy line_items = true /\ Wire.valid_array line_items = false
   /\ exists m,
        (if Wire.truthy line_items
         then Wire.replace_line_items now id c line_items
         else Wire.ret c) st = (st, Throw m))
  \/ (negb (Wire.truthy line_items) || Wire.valid_array line_items = true
      /\ exists counter c1,
           (if Wire.truthy line_items
            then Wire.replace_line_items now id c line_items
            else Wire.ret c) st
           = (Wire.set_checkouts (insert id c1) (Wire.set_lineItemCounter counter st),
              Ok c1)
           /\ Wire.lineItemCounter st <= counter
           /\ ((Wire.truthy line_items = false /\ c1 = c
                /\ counter = Wire.lineItemCounter st)
               \/ (Wire.valid_array line_items = true
                   /\ exists items totals,
                        c1 = Wire.with_totals totals (Wire.with_line_items items c)
                        /\ Forall (fun i => Wire.acceptable (Wire.li_quantity i) = true)
                             items
                        /\ Wire.calculateTotals items = Ok totals
                        /\ Wire.built now st line_items counter items))).
Proof.
  intros Hc. destruct (Wire.truthy line_items) eqn:Ht; cbn [negb orb].
  - destruct (wire_replace_line_items_cases now id c line_items st)
      as [[Hv (m & Hm)]
         |[Hv (counter & items & totals & Hrun & Hle & Hacc & Htot & Hbuilt)]].
    + left. split; [reflexivity|]. split; [exact Hv|]. exists m. exact Hm.
    + right. split; [exact Hv|]. eexists counter, _. split; [exact Hrun|].
      split; [exact Hle|]. right. split; [exact Hv|].
      exists items, totals. repeat split; assumption.
  - right. split; [reflexivity|]. exists (Wire.lineItemCounter st), c.
    rewrite wire_set_lineItemCounter_same, (set_checkouts_same id c st Hc).
    split; [reflexivity|]. split; [lia|]. left. repeat split.
Qed.

(** The statement [if (buyer) { ... }] of [PUT]. *)
Lemma update_buyer_stage (ref : nat) (buyer : Wire.Value) (st : Wire.State) :
  exists f,
    ((if Wire.truthy buyer then Wire.patch_buyer ref buyer else Wire.ret tt) st).1
    = Wire.set_buyers (alter f ref (Wire.buyers st)) st
    /\ ((Wire.quiet (Wire.get_opt "email" buyer)
         && Wire.quiet (Wire.get_opt "full_name" buyer) = true
         /\ ((if Wire.truthy buyer then Wire.patch_buyer ref buyer else Wire.ret tt) st).2
            = Ok tt)
        \/ (Wire.quiet (Wire.get_opt "email" buyer)
            && Wire.quiet (Wire.get_opt "full_name" buyer) = false
            /\ exists m,
                 ((if Wire.truthy buyer then Wire.patch_buyer ref buyer else Wire.ret tt)
                    st).2 = Throw m)).
Proof.
  destruct (Wire.truthy buyer) eqn:Ht; [apply patch_buyer_cases|].
  exists (fun b => b). rewrite !(falsy_get_opt _ _ Ht). cbn.
  split; [|left; split; reflexivity].
  destruct st. unfold Wire.set_buyers. cbn. rewrite list_alter_id by reflexivity.
  reflexivity.
Qed.

(** [PUT] on a live checkout, case by case.  The update is rejected before
    anything is assigned (the body cannot be destructured, or its line items
    are invalid), or rejected when the buyer is sanitised, after the line
    items and the totals have been assigned, or accepted. *)
Lemma wire_updateCheckout_live (st : Wire.State) (now : Z) (key : option string)
    (id : string) (body : Wire.Value) (c : Wire.Checkout) :
  Wire.checkouts st !! id = Some c ->
  (Wire.expires_at c <? now)%Z = false ->
  (Wire.update_accepts body = false
   /\ (Wire.readable body = false
       \/ Wire.valid_array (Wire.get_opt "line_items" body) = false)
   /\ exists m,
        Wire.updateCheckout st now key id body
        = (st, Wire.mkResponse 400 (Wire.ucpError "invalid_request" m)))
  \/ exists counter f c1,
       Wire.lineItemCounter st <= counter
       /\ ((Wire.truthy (Wire.get_opt "line_items" body) = false /\ c1 = c
            /\ counter = Wire.lineItemCounter st)
           \/ (Wire.valid_array (Wire.get_opt "line_items" body) = true
               /\ exists items totals,
                    c1 = Wire.with_totals totals (Wire.with_line_items items c)
                    /\ Forall (fun i => Wire.acceptable (Wire.li_quantity i) = true)
                         items
                    /\ Wire.calculateTotals items = Ok totals
                    /\ Wire.built now st (Wire.get_opt "line_items" body) counter items))
       /\ ((Wire.update_accepts body = false
            /\ Wire.quiet_buyer body = false
            /\ exists m,
                 Wire.updateCheckout st now key id body
                 = (Wire.set_buyers (alter f (Wire.buyer c) (Wire.buyers st))
                      (Wire.set_checkouts (insert id c1)
                         (Wire.set_lineItemCounter counter st)),
                    Wire.mkResponse 400 (Wire.ucpError "invalid_request" m)))
           \/ (Wire.update_accepts body = true
               /\ Wire.updateCheckout st now key id body
                  = ((Wire.remember key
                        (Wire.revalidated (alter f (Wire.buyer c) (Wire.buyers st)) c1)
                        (Wire.set_checkouts
                           (insert id
                              (Wire.revalidated
                                 (alter f (Wire.buyer c) (Wire.buyers st)) c1))
                           (Wire.set_buyers (alter f (Wire.buyer c) (Wire.buyers st))
                              (Wire.set_lineItemCounter counter st)))).1,
                     Wire.mkResponse 200
                       (Wire.CheckoutBody
                          (Wire.render (alter f (Wire.buyer c) (Wire.buyers st))
                             (Wire.revalidated
                                (alter f (Wire.buyer c) (Wire.buyers st)) c1)))))).
Proof.
  intros Hc Hlive.
  destruct (Wire.updateCheckout st now key id body) as [st' r] eqn:Hrun.
  unfold Wire.updateCheckout in Hrun. rewrite Hc, Hlive in Hrun.
  unfold Wire.try_catch, Wire.update_block in Hrun. cbv zeta in Hrun.
  unfold Wire.update_accepts.
  destruct (Wire.readable body) eqn:Hr; cbn [andb].
  2:{ destruct (get_unreadable "line_items" body Hr) as (m & Hg).
      rewrite Hg in Hrun. step Hrun. injection Hrun as <- <-.
      left. split; [reflexivity|]. split; [left; reflexivity|]. exists m. reflexivity. }
  rewrite !(get_readable _ _ Hr) in Hrun. do 2 step Hrun.
  set (line_items := Wire.get_opt "line_items" body) in *.
  unfold Wire.bind at 1 in Hrun.
  destruct (update_line_items_stage now id c line_items st Hc)
    as [(Ht & Hv & m & Hs)|(Hacc & counter & c1 & Hs & Hle & Hc1)];
    rewrite Hs in Hrun.
  { injection Hrun as <- <-. left. rewrite Ht, Hv. split; [reflexivity|].
    split; [right; reflexivity|]. exists m. reflexivity. }
  rewrite Hacc. cbn [andb].
  right. 
  set (st1 := Wire.set_checkouts (insert id c1) (Wire.set_lineItemCounter counter st)) in *.
  unfold Wire.bind at 1 in Hrun.
  destruct (update_buyer_stage (Wire.buyer c) (Wire.get_opt "buyer" body) st1)
    as (f & Hst & Hq).
  destruct ((if Wire.truthy (Wire.get_opt "buyer" body)
             then Wire.patch_buyer (Wire.buyer c) (Wire.get_opt "buyer" body)
             else Wire.ret tt) st1) as [st2 r2] eqn:Hstage.
  cbn [fst snd] in Hst, Hq. subst st2.
  exists counter, f, c1. split; [exact Hle|]. split; [exact Hc1|].
  unfold Wire.quiet_buyer.
  destruct Hq as [[Hquiet ->]|[Hquiet (m & ->)]]; rewrite Hquiet.
  2:{ injection Hrun as <- <-. left. split; [reflexivity|]. split; [reflexivity|].
      exists m. reflexivity. }
  right. split; [reflexivity|].
  unfold Wire.bind at 1 in Hrun. unfold Wire.revalidate in Hrun.
  rewrite store_remember_respond in Hrun.
  rewrite <- Hrun. unfold st1. cbn [Wire.buyers Wire.set_buyers Wire.set_checkouts].
  unfold Wire.set_checkouts. cbn. rewrite !insert_insert_eq. reflexivity.
Qed.

(** X13.  [PUT] on a live checkout answers 200 exactly for the bodies
    [update_accepts] describes: the body can be destructured, [line_items]
    is falsy or a non-empty array of valid entries, and the email and the
    name of the buyer are falsy or strings; every other body is answered 400
    [invalid_request].  Unlike [POST] it rejects the empty array: a cart
    cannot be emptied by sending [line_items: []], which is answered 400 and
    changes nothing, while [POST] makes an empty checkout of the same
    body. *)
Theorem update_accepts_iff (st : Wire.State) (now : Z) (key : option string)
    (id : string) (body : Wire.Value) (c : Wire.Checkout) :
  Wire.checkouts st !! id = Some c ->
  (Wire.expires_at c <? now)%Z = false ->
  (Wire.http_status (Wire.updateCheckout st now key id body).2 = 200
   <-> Wire.update_accepts body = true)
  /\ (Wire.update_accepts body = false ->
      Wire.invalid_request (Wire.updateCheckout st now key id body).2)
  /\ (Wire.get_opt "line_items" body = Some (Wire.JArr []) ->
      Wire.invalid_request (Wire.updateCheckout st now key id body).2
      /\ (Wire.updateCheckout st now key id body).1 = st
      /\ forall st0 now0 key0,
           Wire.in_time now0 = true ->
           Wire.quiet_buyer body = true ->
           Wire.http_status (Wire.createCheckout st0 now0 key0 body).2 = 201).
Proof.
  intros Hc Hlive.
  destruct (wire_updateCheckout_live st now key id body c Hc Hlive)
    as [(Hacc & _ & m & Hrun)
       |(counter & f & c1 & Hle & Hc1
         & [(Hacc & Hq & m & Hrun)|(Hacc & Hrun)])].
  - rewrite Hrun, Hacc. cbn [fst snd Wire.http_status].
    split; [split; discriminate|]. split; [intros _; exists m; reflexivity|].
    intros Hempty. split; [exists m; reflexivity|]. split; [reflexivity|].
    intros st0 now0 key0 Htime Hquiet.
    apply createCheckout_accepted.
    unfold Wire.create_accepts. rewrite Hempty, Hquiet, Htime.
    destruct body as [[]|]; try discriminate. reflexivity.
  - rewrite Hrun, Hacc. cbn [fst snd Wire.http_status].
    split; [split; discriminate|]. split; [intros _; exists m; reflexivity|].
    intros Hempty. exfalso. rewrite Hempty in Hc1.
    destruct Hc1 as [(Ht & _)|(Hv & _)]; discriminate.
  - rewrite Hrun, Hacc. cbn [fst snd Wire.http_status].
    split; [split; reflexivity|]. split; [discriminate|].
    intros Hempty. exfalso. rewrite Hempty in Hc1.
    destruct Hc1 as [(Ht & _)|(Hv & _)]; discriminate.
Qed.

Lemma update_accepts_iff_witness :
  Wire.invalid_request (Wire.updateCheckout Wire.st_roses 2000 None "chk_1000" Wire.empty_cart).2
  /\ (Wire.updateCheckout Wire.st_roses 2000 None "chk_1000" Wire.empty_cart).1
     = Wire.st_roses.
Proof.
  destruct (Wire.checkouts Wire.st_roses !! "chk_1000") as [c|] eqn:Hc;
    [|vm_compute in Hc; discriminate].
  assert (Hl : (Wire.expires_at c <? 2000)%Z = false).
  { vm_compute in Hc. injection Hc as <-. reflexivity. }
  destruct (proj2 (proj2 (update_accepts_iff Wire.st_roses 2000 None "chk_1000"
                            Wire.empty_cart c Hc Hl)) eq_refl)
    as (H1 & H2 & _).
  split; assumption.
Defined.

(** ** What a step does to the store *)

Lemma wire_handleIdempotency_cases (st : Wire.State) (key : option string)
    (next : option string -> Wire.State * Wire.Response) :
  (Wire.handleIdempotency st key next).1 = st
  \/ Wire.handleIdempotency st key next = next key.
Proof.
  unfold Wire.handleIdempotency.
  destruct key as [k|]; [|right; reflexivity].
  destruct (str_nonempty k); [|right; reflexivity].
  destruct (Wire.processedRequests st !! k); [left|right]; reflexivity.
Qed.

(** [POST /complete], case by case. *)
Lemma wire_completeCheckout_cases (st : Wire.State) (now : Z) (key : option string)
    (id : string) :
  (Wire.completeCheckout st now key id).1 = st
  \/ (Wire.completeCheckout st now key id).1 = Wire.evict id st
  \/ exists c,
       Wire.checkouts st !! id = Some c
       /\ (Wire.expires_at c <? now)%Z = false
       /\ Wire.status c = ready_for_complete
       /\ Wire.completeCheckout st now key id
          = ((Wire.remember key (Wire.placed now c)
                (Wire.set_checkouts (insert id (Wire.placed now c)) st)).1,
             Wire.mkResponse 200
               (Wire.CheckoutBody (Wire.render (Wire.buyers st) (Wire.placed now c)))).
Proof.
  unfold Wire.completeCheckout.
  destruct (Wire.checkouts st !! id) as [c|] eqn:Hc; [|left; reflexivity].
  destruct (Wire.expires_at c <? now)%Z eqn:Hlive; [right; left; reflexivity|].
  destruct (Wire.status c) eqn:Hs; cbn [is_ready negb]; try (left; reflexivity).
  right. right. exists c. repeat split; try assumption.
  unfold Wire.try_catch. unfold Wire.bind at 1. cbn [Wire.assign].
  rewrite store_remember_respond, set_checkouts_insert. reflexivity.
Qed.

(** What an event does to the checkouts and the buyer objects: it removes
    checkouts or leaves them alone; or it stores a new checkout with a new
    buyer object; or it is a [PUT] that assigns to one checkout and to its
    buyer object; or it places the order of one checkout. *)
Lemma wire_step_effect (st : Wire.State) (now : Z) (e : Wire.Event) :
  (Wire.buyers (Wire.step st now e) = Wire.buyers st
   /\ forall id c,
        Wire.checkouts (Wire.step st now e) !! id = Some c ->
        Wire.checkouts st !! id = Some c)
  \/ (exists c b,
        Wire.checkouts (Wire.step st now e)
        = <[("chk_" +:+ pretty now) := c]> (Wire.checkouts st)
        /\ Wire.buyers (Wire.step st now e) = (Wire.buyers st ++ [b])%list
        /\ Wire.buyer c = length (Wire.buyers st)
        /\ Wire.items_ok c
        /\ Wire.status c = Wire.determineStatus (Some b) (Wire.line_items c)
        /\ Wire.messages c = validateCheckout (Some b))
  \/ (exists key id body c c' f,
        e = Wire.Call (Wire.PUT_checkout key id body)
        /\ Wire.checkouts st !! id = Some c
        /\ Wire.checkouts (Wire.step st now e) = <[id := c']> (Wire.checkouts st)
        /\ Wire.buyers (Wire.step st now e) = alter f (Wire.buyer c) (Wire.buyers st)
        /\ Wire.buyer c' = Wire.buyer c
        /\ (Wire.items_ok c -> Wire.items_ok c')
        /\ (Wire.quiet_buyer body = true ->
            c' = Wire.revalidated (Wire.buyers (Wire.step st now e)) c'))
  \/ (exists id c,
        Wire.checkouts st !! id = Some c
        /\ Wire.status c = ready_for_complete
        /\ Wire.checkouts (Wire.step st now e)
           = <[id := Wire.placed now c]> (Wire.checkouts st)
        /\ Wire.buyers (Wire.step st now e) = Wire.buyers st).
Proof.
  assert (Hevict : forall id id' c,
            Wire.checkouts (Wire.evict id st) !! id' = Some c ->
            Wire.checkouts st !! id' = Some c).
  { intros id id' c H. cbn in H. apply lookup_delete_Some in H as [_ H]. exact H. }
  destruct e as [[key body|id|key id body|key id]| |]; cbn [Wire.step Wire.route].
  - destruct (wire_handleIdempotency_cases st key
                (fun k => Wire.createCheckout st now k body)) as [->| ->];
      [left; split; [reflexivity|auto]|].
    destruct (wire_createCheckout_cases st now key body)
      as [(_ & _ & (Hck & _ & Hb) & _)
         |(_ & c & b & counter & -> & _ & _ & Hbuyer & Hitems & _ & Hm & Hs & _)].
    + left. rewrite Hck, Hb. split; [reflexivity|auto].
    + right. left. exists c, b. cbn [fst].
      destruct (remember_frame key c
                  (Wire.set_checkouts (insert ("chk_" +:+ pretty now) c)
                     (Wire.set_buyers (Wire.buyers st ++ [b])
                        (Wire.set_lineItemCounter counter st))))
        as (-> & -> & _).
      repeat split; assumption.
  - left. unfold Wire.getCheckout.
    destruct (Wire.checkouts st !! id) as [c|]; [|split; [reflexivity|auto]].
    destruct (Wire.expires_at c <? now)%Z; cbn [fst];
      [split; [reflexivity|apply Hevict]|split; [reflexivity|auto]].
  - destruct (wire_handleIdempotency_cases st key
                (fun k => Wire.updateCheckout st now k id body)) as [->| ->];
      [left; split; [reflexivity|auto]|].
    destruct (Wire.checkouts st !! id) as [c|] eqn:Hc.
    2:{ left. unfold Wire.updateCheckout. rewrite Hc. split; [reflexivity|auto]. }
    destruct (Wire.expires_at c <? now)%Z eqn:Hlive.
    { left. unfold Wire.updateCheckout. rewrite Hc, Hlive.
      split; [reflexivity|apply Hevict]. }
    destruct (wire_updateCheckout_live st now key id body c Hc Hlive)
      as [(_ & _ & m & ->)
         |(counter & f & c1 & _ & Hc1
           & [(_ & Hq & m & ->)|(_ & ->)])].
    + left. split; [reflexivity|auto].
    + right. right. left. exists key, id, body, c, c1, f. cbn [fst].
      split; [reflexivity|]. split; [exact Hc|]. split; [reflexivity|].
      split; [reflexivity|].
      split; [destruct Hc1 as [(_ & -> & _)|(_ & items & totals & -> & _)]; reflexivity|].
      split; [|intros Hquiet; congruence].
      destruct Hc1 as [(_ & -> & _)|(_ & items & totals & -> & Hacc & _)];
        [auto|intros _; exact Hacc].
    + right. right. left.
      exists key, id, body, c,
        (Wire.revalidated (alter f (Wire.buyer c) (Wire.buyers st)) c1), f.
      cbn [fst].
      destruct (remember_frame key
                  (Wire.revalidated (alter f (Wire.buyer c) (Wire.buyers st)) c1)
                  (Wire.set_checkouts
                     (insert id
                        (Wire.revalidated (alter f (Wire.buyer c) (Wire.buyers st)) c1))
                     (Wire.set_buyers (alter f (Wire.buyer c) (Wire.buyers st))
                        (Wire.set_lineItemCounter counter st))))
        as (-> & -> & _).
      split; [reflexivity|]. split; [exact Hc|]. split; [reflexivity|].
      split; [reflexivity|].
      split; [destruct Hc1 as [(_ & -> & _)|(_ & items & totals & -> & _)]; reflexivity|].
      split; [|intros _; reflexivity].
      destruct Hc1 as [(_ & -> & _)|(_ & items & totals & -> & Hacc & _)];
        [auto|intros _; exact Hacc].
  - destruct (wire_handleIdempotency_cases st key
                (fun k => Wire.completeCheckout st now k id)) as [->| ->];
      [left; split; [reflexivity|auto]|].
    destruct (wire_completeCheckout_cases st now key id)
      as [->|[->|(c & Hc & Hlive & Hs & ->)]].
    + left. split; [reflexivity|auto].
    + left. split; [reflexivity|apply Hevict].
    + right. right. right. exists id, c. cbn [fst].
      destruct (remember_frame key (Wire.placed now c)
                  (Wire.set_checkouts (insert id (Wire.placed now c)) st))
        as (-> & -> & _).
      repeat split; assumption.
  - left. split; [reflexivity|]. intros id c H. cbn in H.
    apply map_lookup_filter_Some in H as [H _]. exact H.
  - left. split; [reflexivity|auto].
Qed.

(** ** Quantities of stored line items *)









(** ** Status and messages of stored checkouts *)

Lemma wire_status_in_step_frame (h h' : list Buyer) (c : Wire.Checkout) :
  h' !! Wire.buyer c = h !! Wire.buyer c ->
  Wire.status_in_step h c -> Wire.status_in_step h' c.
Proof. unfold Wire.status_in_step. intros ->. auto. Qed.

(** The store stays in step as long as no [PUT] is rejected while its buyer
    is sanitised. *)
Lemma step_in_step (st : Wire.State) (now : Z) (e : Wire.Event) :
  Wire.quiet_update e ->
  Wire.store_in_step st -> Wire.store_in_step (Wire.step st now e).
Proof.
  intros Hquiet [Hd Hall]. unfold Wire.store_in_step.
  destruct (wire_step_effect st now e)
    as [(Hb & Hsub)
       |[(c & b & Hck & Hb & Hbuyer & _ & Hs & Hm)
        |[(key & id & body & c & c' & f & -> & Hc & Hck & Hb & Hbuyer & _ & Hrev)
         |(id & c & Hc & _ & Hck & Hb)]]].
  - rewrite Hb. split.
    + intros id1 id2 c1 c2 H1 H2. apply Hd; apply Hsub; assumption.
    + intros id c Hc. apply (Hall id c), Hsub, Hc.
  - rewrite Hck, Hb. split.
    + intros id1 id2 c1 c2 H1 H2 Heq.
      apply lookup_insert_Some in H1 as [[<- <-]|[Hn1 H1]];
        apply lookup_insert_Some in H2 as [[<- <-]|[Hn2 H2]].
      * reflexivity.
      * exfalso. destruct (Hall _ _ H2) as [Hlt _]. lia.
      * exfalso. destruct (Hall _ _ H1) as [Hlt _]. lia.
      * apply (Hd _ _ _ _ H1 H2 Heq).
    + apply map_Forall_insert_2.
      * split; [rewrite length_app; cbn; lia|].
        right. rewrite Hbuyer, list_lookup_middle by reflexivity. split; assumption.
      * intros id0 c0 H0. destruct (Hall id0 c0 H0) as [Hlt Hstep].
        split; [rewrite length_app; lia|].
        apply (wire_status_in_step_frame (Wire.buyers st)); [|exact Hstep].
        apply lookup_app_l, Hlt.
  - cbn [Wire.quiet_update] in Hquiet. specialize (Hrev Hquiet).
    rewrite Hck, Hb. split.
    + intros id1 id2 c1 c2 H1 H2 Heq.
      apply lookup_insert_Some in H1 as [[<- <-]|[Hn1 H1]];
        apply lookup_insert_Some in H2 as [[<- <-]|[Hn2 H2]].
      * reflexivity.
      * apply (Hd _ _ _ _ Hc H2). congruence.
      * apply (Hd _ _ _ _ H1 Hc). congruence.
      * apply (Hd _ _ _ _ H1 H2 Heq).
    + intros id0 c0 H0.
      apply lookup_insert_Some in H0 as [[<- <-]|[Hne H0]].
      * destruct (Hall id c Hc) as [Hlt _].
        split; [rewrite length_alter, Hbuyer; exact Hlt|].
        right. rewrite Hb in Hrev. rewrite Hrev. split; reflexivity.
      * destruct (Hall id0 c0 H0) as [Hlt Hstep].
        split; [rewrite length_alter; exact Hlt|].
        apply (wire_status_in_step_frame (Wire.buyers st)); [|exact Hstep].
        apply list_lookup_alter_ne. intros Heq.
        apply Hne. symmetry. apply (Hd _ _ _ _ H0 Hc). congruence.
  - rewrite Hck, Hb. split.
    + intros id1 id2 c1 c2 H1 H2 Heq.
      apply lookup_insert_Some in H1 as [[<- <-]|[Hn1 H1]];
        apply lookup_insert_Some in H2 as [[<- <-]|[Hn2 H2]].
      * reflexivity.
      * apply (Hd _ _ _ _ Hc H2). exact Heq.
      * apply (Hd _ _ _ _ H1 Hc). exact Heq.
      * apply (Hd _ _ _ _ H1 H2 Heq).
    + intros id0 c0 H0.
      apply lookup_insert_Some in H0 as [[<- <-]|[Hne H0]].
      * destruct (Hall id c Hc) as [Hlt _]. split; [exact Hlt|].
        left. cbn. split; [reflexivity|]. split; [eexists; reflexivity|reflexivity].
      * exact (Hall id0 c0 H0).
Qed.

Lemma run_in_step (evs : list (Z * Wire.Event)) (st : Wire.State) :
  Forall (fun te => Wire.quiet_update te.2) evs ->
  Wire.store_in_step st -> Wire.store_in_step (Wire.run st evs).
Proof.
  intros Hq. revert st.
  induction Hq as [|[now e] evs He _ IH]; intros st Hst; [exact Hst|].
  cbn [Wire.run]. apply IH, step_in_step; assumption.
Qed.

Lemma initial_in_step : Wire.store_in_step Wire.initial.
Proof.
  split.
  - intros id1 id2 c1 c2 H1. cbn in H1. rewrite lookup_empty in H1. discriminate.
  - cbn. apply map_Forall_empty.
Qed.

(** X4.  As long as no [PUT] has a buyer whose email or name is truthy and
    no string, a stored checkout that is not completed has the status and
    the messages that [determineStatus] and [validateCheckout] give for its
    current buyer and line items: messages are recomputed, never
    accumulated, and a checkout that is [ready_for_complete] has none. *)
Theorem status_and_messages_in_step (evs : list (Z * Wire.Event)) (id : string)
    (c : Wire.Checkout) :
  Forall (fun te => Wire.quiet_update te.2) evs ->
  Wire.checkouts (Wire.run Wire.initial evs) !! id = Some c ->
  Wire.status c <> completed ->
  Wire.status c
  = Wire.determineStatus (Wire.buyers (Wire.run Wire.initial evs) !! Wire.buyer c)
      (Wire.line_items c)
  /\ Wire.messages c
     = validateCheckout (Wire.buyers (Wire.run Wire.initial evs) !! Wire.buyer c)
  /\ (Wire.status c = ready_for_complete -> Wire.messages c = []).
Proof.
  intros Hq Hc Hn.
  destruct (run_in_step evs Wire.initial Hq initial_in_step) as [_ Hall].
  destruct (Hall id c Hc) as [_ [(Hs & _)|(Hs & Hm)]]; [congruence|].
  split; [exact Hs|]. split; [exact Hm|].
  rewrite Hs, Hm. unfold Wire.determineStatus, validateCheckout.
  destruct (negb (truthy_str (Wire.buyers (Wire.run Wire.initial evs) !! Wire.buyer c
                              ≫= email)));
    destruct (negb (truthy_str (Wire.buyers (Wire.run Wire.initial evs) !! Wire.buyer c
                                ≫= full_name)));
    cbn; try discriminate.
  reflexivity.
Qed.

Lemma status_and_messages_in_step_witness :
  exists c,
    Wire.checkouts Wire.st_ready !! "chk_1000" = Some c
    /\ Wire.status c = ready_for_complete
    /\ Wire.messages c = [].
Proof.
  destruct (Wire.checkouts Wire.st_ready !! "chk_1000") as [c|] eqn:Hc;
    [|vm_compute in Hc; discriminate].
  assert (Hs : Wire.status c = ready_for_complete).
  { vm_compute in Hc. injection Hc as <-. reflexivity. }
  exists c. split; [reflexivity|]. split; [exact Hs|].
  apply (status_and_messages_in_step
           [(1000, Wire.Call (Wire.POST_checkout None Wire.roses_with_buyer))]
           "chk_1000" c);
    [repeat constructor|exact Hc|congruence|exact Hs].
Defined.

(** ** A rejected update that has replaced the line items *)

(** X27.  A [PUT] with valid line items and a buyer whose email or name is
    truthy and no string is answered 400 after [checkout.line_items] and
    [checkout.totals] have been assigned: the stored checkout has the line
    items built from the request and their totals, while its status, its
    messages and its order are those from before the request, and the
    line-item counter has advanced. *)
Theorem rejected_update_replaces_line_items (st : Wire.State) (now : Z)
    (key : option string) (id : string) (body : Wire.Value) (c : Wire.Checkout) :
  Wire.checkouts st !! id = Some c ->
  (Wire.expires_at c <? now)%Z = false ->
  Wire.valid_array (Wire.get_opt "line_items" body) = true ->
  Wire.quiet_buyer body = false ->
  exists c' counter,
    Wire.invalid_request (Wire.updateCheckout st now key id body).2
    /\ Wire.checkouts (Wire.updateCheckout st now key id body).1 !! id = Some c'
    /\ Wire.built now st (Wire.get_opt "line_items" body) counter (Wire.line_items c')
    /\ Wire.lineItemCounter (Wire.updateCheckout st now key id body).1 = counter
    /\ Wire.calculateTotals (Wire.line_items c') = Ok (Wire.totals c')
    /\ Wire.status c' = Wire.status c
    /\ Wire.messages c' = Wire.messages c
    /\ Wire.order c' = Wire.order c.
Proof.
  intros Hc Hlive Hv Hq.
  assert (Hr : Wire.readable body = true).
  { destruct body as [[]|]; try discriminate. reflexivity. }
  assert (Ht : Wire.truthy (Wire.get_opt "line_items" body) = true).
  { destruct (Wire.get_opt "line_items" body) as [[| | | |[|]|]|]; try discriminate.
    reflexivity. }
  destruct (wire_updateCheckout_live st now key id body c Hc Hlive)
    as [(_ & [Hno|Hno] & _)
       |(counter & f & c1 & Hle & Hc1
         & [(Hacc & _ & m & Hrun)|(Hacc & Hrun)])].
  - congruence.
  - congruence.
  - destruct Hc1 as [(Hf & _)|(_ & items & totals & -> & _ & Htot & Hbuilt)];
      [congruence|].
    exists (Wire.with_totals totals (Wire.with_line_items items c)), counter.
    rewrite Hrun. cbn [fst snd].
    split; [exists m; reflexivity|].
    split; [cbn; apply lookup_insert_eq|].
    split; [exact Hbuilt|]. split; [reflexivity|]. split; [exact Htot|].
    repeat split.
  - exfalso. unfold Wire.update_accepts in Hacc. rewrite Hq in Hacc.
    rewrite andb_false_r in Hacc. discriminate.
Qed.

Lemma rejected_update_replaces_line_items_witness :
  exists c',
    Wire.invalid_request
      (Wire.updateCheckout Wire.st_ready 2000 None "chk_1000" Wire.unknown_product_email_5).2
    /\ Wire.checkouts
         (Wire.updateCheckout Wire.st_ready 2000 None "chk_1000"
            Wire.unknown_product_email_5).1 !! "chk_1000" = Some c'
    /\ Wire.line_items c' = []
    /\ Wire.status c' = ready_for_complete.
Proof.
  destruct (Wire.checkouts Wire.st_ready !! "chk_1000") as [c|] eqn:Hc;
    [|vm_compute in Hc; discriminate].
  assert (Hl : (Wire.expires_at c <? 2000)%Z = false).
  { vm_compute in Hc. injection Hc as <-. reflexivity. }
  assert (Hs : Wire.status c = ready_for_complete).
  { vm_compute in Hc. injection Hc as <-. reflexivity. }
  destruct (rejected_update_replaces_line_items Wire.st_ready 2000 None "chk_1000"
              Wire.unknown_product_email_5 c Hc Hl eq_refl eq_refl)
    as (c' & counter & Hinv & Hc' & (l & mapped & Hl' & Hmap & Hitems) & _ & _ & Hs' & _).
  exists c'. split; [exact Hinv|]. split; [exact Hc'|].
  split; [|congruence].
  rewrite Hitems. injection Hl' as <-.
  vm_compute in Hmap. injection Hmap as _ <-. reflexivity.
Defined.

(** ** Sanitising a name *)

Lemma slice0_length_min (n : nat) (s : string) :
  String.length (slice0 n s) = Nat.min n (String.length s).
Proof.
  revert s. induction n as [|n IH]; intros [|a s]; cbn; try reflexivity.
  rewrite IH. reflexivity.
Qed.

(** X20.  [sanitizeName] returns [null] for a falsy name, throws for a
    truthy name that is no string, and for a non-empty string returns the
    first hundred characters of the trimmed name: a prefix of the trimmed
    name of length 100, or all of it when it is shorter, which does not
    begin with white space. *)
Theorem sanitizeName_spec (name : Wire.Value) :
  (Wire.truthy name = false -> Wire.sanitizeName name = Ok None)
  /\ (forall n,
        name = Some (Wire.JStr n) -> str_nonempty n = true ->
        exists r rest,
          Wire.sanitizeName name = Ok (Some r)
          /\ trim n = r +:+ rest
          /\ String.length r = Nat.min 100 (String.length (trim n))
          /\ forall a r', r = String a r' -> is_space a = false)
  /\ (Wire.truthy name = true ->
      (forall n, name <> Some (Wire.JStr n)) ->
      exists m, Wire.sanitizeName name = Throw m).
Proof.
  split; [|split].
  - intros Hf. unfold Wire.sanitizeName. rewrite Hf. reflexivity.
  - intros n -> Hn.
    destruct (slice0_prefix 100 (trim n)) as [rest Hrest].
    exists (slice0 100 (trim n)), rest.
    split; [unfold Wire.sanitizeName; cbn [Wire.truthy]; rewrite Hn; reflexivity|].
    split; [exact Hrest|]. split; [apply slice0_length_min|].
    intros a r' Hr.
    destruct (trim n) as [|b t] eqn:Ht; [discriminate|].
    cbn [slice0] in Hr. injection Hr as <- _.
    eapply trim_head, Ht.
  - intros Ht Hno. unfold Wire.sanitizeName. rewrite Ht. cbn [negb].
    destruct name as [[| | |n| |]|]; try (eexists; reflexivity).
    exfalso. apply (Hno n). reflexivity.
Qed.

Lemma sanitizeName_spec_witness :
  (exists r rest,
     Wire.sanitizeName (Some (Wire.JStr "  Ada Lovelace ")) = Ok (Some r)
     /\ "Ada Lovelace" = r +:+ rest
     /\ String.length r = 12%nat)
  /\ exists m, Wire.sanitizeName (Some (Wire.JNum (Wire.of_Z 5))) = Throw m.
Proof.
  split.
  - destruct (proj1 (proj2 (sanitizeName_spec (Some (Wire.JStr "  Ada Lovelace "))))
                "  Ada Lovelace " eq_refl eq_refl)
      as (r & rest & Hr & Hp & Hl & _).
    exists r, rest. split; [exact Hr|]. split; [exact Hp|exact Hl].
  - apply (proj2 (proj2 (sanitizeName_spec (Some (Wire.JNum (Wire.of_Z 5)))))).
    + reflexivity.
    + intros n. discriminate.
Defined.
